(* ===== verification/_CoqProject ===== *)
-Q . S2P
Prelude.v
JsValue.v
ObjectId.v
Schema.v
Store.v
Model.v
Handlers.v
Router.v
Examples.v
PostProps.v
QueryProps.v
RouterProps.v
System.v
Spec.v
Concurrent.v
Server.v
