(* ===== verification/Prelude.v ===== *)
(** * Weather API: a verification development for the Express/Mongoose CRUD service

    ** The program

    src/index.js is an Express application over one MongoDB collection of
    weather records; src/weather.js is the Mongoose schema and model of that
    collection.  The program has four parts:

    - the schema ([weatherSchema], five paths) and the model made from it;
    - six route handlers (health, create, list, look-up by id, delete by id,
      delete all), each one database call inside a [try]/[catch];
    - the application: the middleware stack ([cors], [express.json],
      [express.static]) and the route table;
    - start-up: the port and the connection string read from the
      environment, [mongoose.connect], and [app.listen] once connected.

    ** The files, in dependency order

    - [Prelude] (this file): the monad [prog] of computations over a world
      that may throw, with [try_catch] and the notation [let* x := c in k]
      (scope [prog_scope]); the hint databases [weather] and [weather_rw];
      the tactics [prog_unfold] and [case_all]; list lemmas on sorted
      prefixes and filters.
    - [JsValue]: the values of [req.body] ([value], numbers as IEEE doubles),
      [truthy] for [!city], [is_undefined] for [=== undefined], [js_or] for
      [||], [get_prop] and [destructure4] for line 32 of src/index.js, the
      exceptions [exn] a [catch] sees.
    - [ObjectId]: identifiers as numbers below [oid_bound = 16^24], their
      text [string_of_oid] and the parser [oid_of_string], with the round
      trip.
    - [Schema]: the schema as data ([weatherSchema] is the literal of
      src/weather.js), documents, construction [new_Model] (so [Weather] is
      [new_Model weatherSchema]), validation [validate].  What Mongoose's
      casting does to a client value is the interface [Caster] with the laws
      [CasterLaws]; [strict_caster] is an instance.
    - [Store]: the collection as the interface [Store] (operations
      [insertOne], [findSorted], [findOne], [findOneAndDelete],
      [deleteMany], abstraction function [contents], invariant [store_inv])
      with the contract [StoreLaws]; [list_store] implements it.
    - [Model]: the [world] a handler runs in (collection, identifier
      generator, console), the inputs [env] of one request (clock, database
      fault), and the model operations [save], [find_sort_limit],
      [findById], [findByIdAndDelete], [deleteMany_all], [console_error].
    - [Handlers]: one definition per handler of src/index.js:
      [get_health] (line 25), [post_weather] (30-44), [get_weather_list]
      (48-56), [get_weather_by_id] (60-69), [delete_weather_by_id] (73-82),
      [delete_weather_all] (86-94), each with the source's [try]/[catch].
    - [Router]: the route table [routes] in registration order, Express's
      matching of methods and paths, and [app]: preflight, body parsing,
      static files, routes, 404.
    - [Examples]: concrete worlds and requests (the Paris example of the
      specification) and runs checked by computation.
    - [PostProps]: the behaviour of [post_weather] on every branch.
    - [QueryProps]: the behaviour of the list, look-up and delete handlers.
    - [RouterProps]: the route table agrees with a direct classification of
      requests ([classify]); routes are disjoint; no update endpoint; every
      handler returns.
    - [System]: the service over a run of requests ([serve], [run],
      [reachable]); the invariant [world_inv] and its preservation; what is
      sent is valid; identifiers are never reused; the sessions of the
      specification's testable properties.
    - [Spec]: the specification as a step relation [spec_step] on finite
      maps of records, the abstraction [abs], and the refinement theorem.
    - [Concurrent]: each handler split at its [await] ([post_weather_start]
      and the like, [settle] for the rest), and the service with requests in
      flight as a step relation [cstep] (arrival, database call, resumption,
      in any order).
    - [Server]: [PORT] and [MONGODB_URI], and start-up as a state machine
      ([proc_step], [proc_run]) over the settling connection and the
      requests that arrive.

    ** What the theorems show

    - Handlers (PostProps, QueryProps): for each handler, the response and
      the resulting world on every branch, error branches included: 201 with
      the constructed record, 400 on the presence check, 500 on validation
      or database failure; the list is sorted, a sub-multiset of the
      collection, of length [min 100 n], and holds the newest; look-up and
      delete answer 200, 404 or 400; reads never write.
    - Routing (RouterProps): equivalence of the table search with the
      classification, disjointness of the routes, absence of an update
      endpoint.
    - System: every reachable state has distinct identifiers and valid,
      well-typed records; every document sent is valid; every request is
      answered with a documented status; created identifiers are pairwise
      distinct and fresh; create-then-read, delete-then-read and
      clear-then-list behave as the specification's testable properties say.
    - Spec: every answer of the application to a request that addresses an
      endpoint is a step of the specification (forward simulation through
      [abs]).
    - Concurrent: under every interleaving the stored records stay valid
      with distinct identifiers and only valid documents are sent; every
      request takes effect at its database call, where the call and the
      answer of the resumed handler are a step of the specification; the
      two parts of a handler run back to back are the handler of
      [Handlers] (a consistency lemma between the two transcriptions).
    - Server: the default port; no request is answered before a successful
      connection; a failed connection means no service and one error line
      on the console; a successful one logs the two start-up lines.

    The theorems on handlers, routing, system and refinement are proved for
    every store that satisfies [StoreLaws] and every caster that satisfies
    [CasterLaws]; the instances [list_store] and [strict_caster] show that
    the laws can be met and evaluate the examples.

    ** Assumptions and choices

    - Runs.  [System] and [Spec] take the requests one after another: a
      handler awaits exactly one database call and shares no process state
      with other handlers except the identifier generator and the console.
      [Concurrent] lifts this: handlers are suspended at their [await] and
      the steps of different requests interleave freely; the session
      theorems and the refinement of [Spec] are stated for the sequential
      runs, the validity invariant and the linearisation of each request at
      its database call for all interleavings.
    - The database call of a request either fails as a whole, leaving the
      collection as it was ([fault] of [env]), or takes effect.  A call
      whose write was applied and whose reply was then lost is not
      modelled, so that nothing is stored or deleted when a handler answers
      500 or 400 holds of the model partly by this assumption.
    - Identifiers are handed out by a counter ([next_oid]); the contract
      modelled is that [new ObjectId()] never returns the same value twice.
      Their text has 24 hexadecimal digits, which bounds them by [16^24].
    - [new_Model] always takes the generated identifier: Mongoose would
      take an [_id] property of the object it is given, but the only call
      (src/index.js, line 37) passes an object with the four named keys.
    - The list of a [VObject] has one entry for each key of the object
      ([is_json] asks for it); [own_property] is not meant for lists that
      repeat a key.
    - [port_text] is the text of the two forms [PORT] can take (a string of
      the environment, or the number 5000), not [ToString] in general.
    - Numbers are [spec_float] (binary64); dates are integers of
      milliseconds.
    - No fuel is used: every function of the model is structurally
      recursive and total.

    ** Not modelled

    - The internals of [cors], [express.json] and [express.static], and
      [dotenv]: their effect on dispatch is an input ([Preflight],
      [Malformed], [static_file]); the environment is taken as given.  The
      CORS headers of responses are not modelled.
    - Express's matching of methods and paths ([method_matches],
      [match_path]) is the framework's default behaviour, written from its
      documentation and not from src/: a route registered with [app.get]
      also answers [HEAD].  The answer to a [HEAD] request is modelled with
      the body the [GET] handler sends, which Node does not put on the
      wire.
    - The text of JSON responses (key order, ISO text of dates, the [__v]
      key): responses are typed values ([json_body]).
    - Percent-decoding of the [:id] segment and query strings.
    - Mongoose's casting of values other than strings at string paths,
      numbers at number paths and [null]: left to [CasterLaws].
    - A failure of [app.listen] to bind the port, an exception thrown
      inside the [.then] callback (which the [.catch] of line 103 would
      also receive), and the loss of the connection after start-up other
      than as the per-request [fault].  The options passed to
      [mongoose.connect] are ignored, and every failed connection,
      a missing connection string included, is the one exception
      [StoreError]. *)

From Stdlib Require Export ZArith.
From stdpp Require Export base tactics option list list_numbers sets sorting strings.

(** ** Outcomes: a JavaScript completion is a value or a thrown exception *)

Inductive outcome (E A : Type) : Type :=
| Ok (a : A)
| Throw (e : E).
Arguments Ok {E A} a.
Arguments Throw {E A} e.

(** A computation over a mutable world [S] that may throw.  Effects performed
    before a throw persist, as they do in JavaScript. *)
Definition prog (S E A : Type) : Type := S -> outcome E A * S.

Definition ret {S E A} (a : A) : prog S E A := fun s => (Ok a, s).

Definition throw {S E A} (e : E) : prog S E A := fun s => (Throw e, s).

Definition bind {S E A B} (c : prog S E A) (k : A -> prog S E B) : prog S E B :=
  fun s =>
    match c s with
    | (Ok a, s') => k a s'
    | (Throw e, s') => (Throw e, s')
    end.

(** [try { body } catch (err) { handler }] *)
Definition try_catch {S E A} (body : prog S E A) (handler : E -> prog S E A)
  : prog S E A :=
  fun s =>
    match body s with
    | (Ok a, s') => (Ok a, s')
    | (Throw e, s') => handler e s'
    end.

(** Lift a pure completion into a computation. *)
Definition lift {S E A} (o : outcome E A) : prog S E A := fun s => (o, s).

Definition gets {S E A} (f : S -> A) : prog S E A := fun s => (Ok (f s), s).

Definition modify {S E} (f : S -> S) : prog S E unit := fun s => (Ok tt, f s).

Declare Scope prog_scope.
Delimit Scope prog_scope with prog.
Bind Scope prog_scope with prog.

Notation "'let*' x := c 'in' k" := (bind c (fun x => k))
  (at level 10, x pattern, c at level 100, k at level 200) : prog_scope.

(** ** Monad laws and the equations of [try_catch] *)

Section ProgLaws.
Context {S E A B C : Type}.
Implicit Types (s : S) (a : A) (e : E).

Lemma bind_ret_l a (k : A -> prog S E B) s : bind (ret a) k s = k a s.
Proof. reflexivity. Qed.

Lemma bind_ret_r (c : prog S E A) s : bind c ret s = c s.
Proof. unfold bind, ret. by destruct (c s) as [[]]. Qed.

Lemma bind_assoc (c : prog S E A) (k : A -> prog S E B) (h : B -> prog S E C) s :
  bind (bind c k) h s = bind c (fun a => bind (k a) h) s.
Proof. unfold bind. by destruct (c s) as [[]]. Qed.

Lemma bind_throw e (k : A -> prog S E B) s : bind (throw e) k s = (Throw e, s).
Proof. reflexivity. Qed.

Lemma try_catch_ret a (h : E -> prog S E A) s : try_catch (ret a) h s = (Ok a, s).
Proof. reflexivity. Qed.

Lemma try_catch_throw e (h : E -> prog S E A) s : try_catch (throw e) h s = h e s.
Proof. reflexivity. Qed.

(** A [try] whose handler returns never lets an exception escape. *)
Lemma try_catch_total (body : prog S E A) (h : E -> prog S E A) s :
  (forall e s', exists a s'', h e s' = (Ok a, s'')) ->
  exists a s', try_catch body h s = (Ok a, s').
Proof.
  intros Hh. unfold try_catch. destruct (body s) as [[a|e] s']; eauto.
Qed.
End ProgLaws.

(** ** Automation *)

Create HintDb weather discriminated.
Create Rewrite HintDb weather_rw.

#[export] Hint Rewrite @bind_ret_l @bind_throw @try_catch_ret @try_catch_throw
  : weather_rw.

(** Unfold the monad down to pairs. *)
Ltac prog_unfold :=
  unfold try_catch, bind, ret, throw, lift, gets, modify in *.

(** Split every [match]/[if] met in the goal, simplifying equations as they
    appear. *)
Ltac case_all :=
  repeat (case_match; simplify_eq/=; try done).

(** ** Lists ordered by a key, and their prefixes *)

Section SortedTake.
Context {A : Type} (R : relation A).

Lemma Sorted_take n (l : list A) : Sorted R l -> Sorted R (take n l).
Proof.
  intros Hl. revert n. induction Hl as [|x l Hl IH Hhd]; intros [|n]; simpl;
    try by constructor.
  constructor; [apply IH|]. destruct Hhd, n; simpl; by constructor.
Qed.

Lemma StronglySorted_take n (l : list A) :
  StronglySorted R l -> StronglySorted R (take n l).
Proof.
  intros Hl. revert n. induction Hl as [|x l Hl IH Hall]; intros [|n]; simpl;
    try by constructor.
  constructor; [apply IH|]. by apply Forall_take.
Qed.

(** In a strongly sorted list every element of a prefix is related to every
    element of the rest. *)
Lemma StronglySorted_take_drop n (l : list A) x y :
  StronglySorted R l -> x ∈ take n l -> y ∈ drop n l -> R x y.
Proof.
  intros Hl Hx Hy. rewrite <-(take_drop n l) in Hl.
  eapply StronglySorted_app_1_elem_of; eauto.
Qed.
End SortedTake.

Lemma length_take_le_bound {A} n (l : list A) : length (take n l) ≤ n.
Proof. rewrite length_take. lia. Qed.

Lemma elem_of_take {A} n (l : list A) x : x ∈ take n l -> x ∈ l.
Proof. intros Hx. rewrite <-(take_drop n l). apply elem_of_app. by left. Qed.

Lemma filter_all {A} (P : A -> Prop) `{!forall x, Decision (P x)} (l : list A) :
  Forall P l -> filter P l = l.
Proof.
  induction 1 as [|x l Hx Hl IH]; [done|].
  by rewrite filter_cons, decide_True, IH.
Qed.

#[export] Hint Resolve Sorted_take StronglySorted_take length_take_le_bound
  elem_of_take : weather.
