(* ===== verification/JsValue.v ===== *)
(** JavaScript values as the request handlers of src/index.js see them: the
    value that [express.json()] leaves in [req.body], the operators the
    handlers apply to it ([!v], [v === undefined], the destructuring
    [const { city, ... } = req.body]) and the exceptions a handler can catch.

    Numbers are IEEE 754 binary64 values, represented by the Standard
    Library's [spec_float] (zeros, infinities, NaN, finite mantissa/exponent
    pairs), so that [-0], [NaN] and the [Infinity] that [JSON.parse("1e999")]
    yields are all values of the model. *)

From Stdlib Require Export SpecFloat.
From S2P Require Import Prelude.

Set Warnings "-clear-no-such-hyp".

(** ** Numbers *)

Abbreviation number := spec_float (only parsing).

#[export] Instance number_eq_dec : EqDecision number.
Proof. solve_decision. Defined.

(** The double nearest to an integer literal of the source. *)
Definition num_of_Z (z : Z) : number := binary_normalize 53 1024 z 0 false.

Definition is_nan (n : number) : bool :=
  match n with S754_nan => true | _ => false end.

Definition is_zero (n : number) : bool :=
  match n with S754_zero _ => true | _ => false end.

(** ** Values *)

(** An object is the list of its own enumerable properties in insertion
    order; the keys of an object are distinct. *)
#[warnings="-register-all"]
Inductive value : Type :=
| VUndefined
| VNull
| VBool (b : bool)
| VNumber (n : number)
| VString (s : string)
| VArray (xs : list value)
| VObject (fields : list (string * value)).

(** Exceptions raised while a handler runs.  [TypeError] is the language's;
    [ValidationError] (with the failing paths) and [CastError] (with the
    path) are the document mapper's; [StoreError] is any failure of the
    database driver (lost connection, timeout). *)
Inductive exn : Type :=
| TypeError
| ValidationError (paths : list string)
| CastError (path : string)
| StoreError.

#[export] Instance exn_eq_dec : EqDecision exn.
Proof. solve_decision. Defined.

(** ToBoolean (ECMA-262 7.1.2): the test behind [!v], [v || w] and [if (v)]. *)
Definition truthy (v : value) : bool :=
  match v with
  | VUndefined | VNull => false
  | VBool b => b
  | VNumber n => negb (is_zero n || is_nan n)
  | VString s => negb (String.eqb s "")
  | VArray _ | VObject _ => true
  end.

(** [v === undefined] *)
Definition is_undefined (v : value) : bool :=
  match v with VUndefined => true | _ => false end.

(** [v == null]: [undefined] or [null]. *)
Definition is_nullish (v : value) : bool :=
  match v with VUndefined | VNull => true | _ => false end.

(** [a || b] on values: the first operand when it is truthy. *)
Definition js_or (a b : value) : value := if truthy a then a else b.

(** The own property [k] of an object, [undefined] when it has none.  The
    list of a [VObject] holds the properties of the object, one entry for
    each key: where the text of a JSON body repeats a key, [JSON.parse]
    keeps the last member, and that one is the entry of the list
    ([is_json] asks for distinct keys). *)
Fixpoint own_property (k : string) (fields : list (string * value)) : value :=
  match fields with
  | [] => VUndefined
  | (k', v) :: rest => if String.eqb k k' then v else own_property k rest
  end.

(** [v.k] for a property name [k] that no prototype defines and that is
    neither an array index nor ["length"] (the four names the handlers read
    are such): the own property of an object, [undefined] for any other
    value that can be converted to an object. *)
Definition get_prop (k : string) (v : value) : value :=
  match v with
  | VObject fields => own_property k fields
  | _ => VUndefined
  end.

(** RequireObjectCoercible (ECMA-262 7.2.1): destructuring or reading a
    property of [undefined] or [null] throws a [TypeError]. *)
Definition require_object_coercible (v : value) : outcome exn value :=
  if is_nullish v then Throw TypeError else Ok v.

(** [const { k1, k2, k3, k4 } = v] *)
Definition destructure4 (k1 k2 k3 k4 : string) (v : value)
  : outcome exn (value * value * value * value) :=
  match require_object_coercible v with
  | Throw e => Throw e
  | Ok o => Ok (get_prop k1 o, get_prop k2 o, get_prop k3 o, get_prop k4 o)
  end.

(** What [JSON.parse] can produce: no [undefined] and no [NaN] anywhere,
    and objects whose keys are distinct. *)
Fixpoint is_json (v : value) : bool :=
  match v with
  | VUndefined => false
  | VNull | VBool _ | VString _ => true
  | VNumber n => negb (is_nan n)
  | VArray xs => forallb is_json xs
  | VObject fields =>
      bool_decide (NoDup fields.*1) && forallb (fun kv => is_json kv.2) fields
  end.

(** ** Properties of the operators *)

(** The falsy values are exactly [undefined], [null], [false], [+0], [-0],
    [NaN] and the empty string. *)
Lemma truthy_false_iff v :
  truthy v = false <->
  v = VUndefined \/ v = VNull \/ v = VBool false \/
  (exists s, v = VNumber (S754_zero s)) \/ v = VNumber S754_nan \/ v = VString "".
Proof.
  split.
  - destruct v as [| |[]|[]|s| |]; simpl; try discriminate; eauto 10.
    destruct (String.eqb_spec s ""); subst; [eauto 10|discriminate].
  - intros [->|[->|[->|[[s ->]|[->| ->]]]]]; reflexivity.
Qed.

Lemma truthy_string s : truthy (VString s) = true <-> s <> "".
Proof. simpl. destruct (String.eqb_spec s ""); split; (done || congruence). Qed.

Lemma is_undefined_true v : is_undefined v = true <-> v = VUndefined.
Proof. destruct v; simpl; split; (done || discriminate). Qed.

Lemma js_or_truthy a b : truthy a = true -> js_or a b = a.
Proof. unfold js_or. by intros ->. Qed.

Lemma js_or_falsy a b : truthy a = false -> js_or a b = b.
Proof. unfold js_or. by intros ->. Qed.

Lemma own_property_elem_of k fields :
  own_property k fields <> VUndefined -> k ∈ fields.*1.
Proof.
  induction fields as [|[k' v] rest IH]; simpl; [done|].
  rewrite elem_of_cons. destruct (String.eqb_spec k k') as [->|]; auto.
Qed.

Lemma own_property_not_elem_of k fields :
  k ∉ fields.*1 -> own_property k fields = VUndefined.
Proof.
  induction fields as [|[k' v] rest IH]; simpl; [done|].
  rewrite not_elem_of_cons. destruct (String.eqb_spec k k') as [->|]; naive_solver.
Qed.

Lemma own_property_is_json k fields :
  is_json (VObject fields) = true -> k ∈ fields.*1 ->
  is_json (own_property k fields) = true.
Proof.
  simpl. intros [_ Hj]%andb_prop. revert Hj.
  induction fields as [|[k' v] rest IH]; simpl; [by intros _ ?%elem_of_nil|].
  intros [Hv Hrest]%andb_prop [->|Hk]%elem_of_cons.
  - by rewrite String.eqb_refl.
  - destruct (String.eqb k k'); auto.
Qed.

(** In a parsed JSON object the entry of a key is its property. *)
Lemma own_property_lookup k v fields :
  is_json (VObject fields) = true -> (k, v) ∈ fields -> own_property k fields = v.
Proof.
  simpl. intros [Hnd%bool_decide_eq_true _]%andb_prop. revert Hnd.
  induction fields as [|[k' v'] rest IH]; simpl; [by intros _ ?%elem_of_nil|].
  intros [Hk' Hnd]%NoDup_cons [[= -> ->]|Hin]%elem_of_cons.
  - by rewrite String.eqb_refl.
  - destruct (String.eqb_spec k k') as [->|]; [|by apply IH].
    destruct Hk'. apply list_elem_of_fmap. by exists (k', v).
Qed.

(** In a parsed JSON object a property reads as [undefined] exactly when the
    key is absent: JSON has no [undefined] literal. *)
Lemma get_prop_json_undefined k fields :
  is_json (VObject fields) = true ->
  (is_undefined (get_prop k (VObject fields)) = true <-> k ∉ fields.*1).
Proof.
  intros Hj. rewrite is_undefined_true. simpl. split.
  - intros Hu Hk. apply (own_property_is_json k) in Hj; [|done].
    by rewrite Hu in Hj.
  - apply own_property_not_elem_of.
Qed.

(** Destructuring throws exactly on [undefined] and [null], and then it is
    a [TypeError]. *)
Lemma destructure4_throw k1 k2 k3 k4 v e :
  destructure4 k1 k2 k3 k4 v = Throw e <-> is_nullish v = true /\ e = TypeError.
Proof.
  unfold destructure4, require_object_coercible.
  destruct (is_nullish v); naive_solver.
Qed.

Lemma destructure4_ok k1 k2 k3 k4 v :
  is_nullish v = false ->
  destructure4 k1 k2 k3 k4 v =
    Ok (get_prop k1 v, get_prop k2 v, get_prop k3 v, get_prop k4 v).
Proof. unfold destructure4, require_object_coercible. by intros ->. Qed.

#[export] Hint Rewrite destructure4_ok using done : weather_rw.
