(* ===== verification/ObjectId.v ===== *)
(** Object identifiers: the 12-byte MongoDB [ObjectId] behind [_id], its
    24-digit hexadecimal text (what [res.json] prints for [removed._id] and
    what a client sends back as the [:id] segment of a URL), and the
    conversions between the two. *)

From Stdlib Require Import Ascii.
From S2P Require Import Prelude.

Set Warnings "-clear-no-such-hyp".

Local Open Scope N_scope.

(** An identifier is a 96-bit natural number. *)
Abbreviation oid := N (only parsing).

Definition oid_bound : N := 16 ^ 24.

(** The value of a hexadecimal digit, in either case. *)
Definition hex_digit (c : ascii) : option N :=
  let n := N_of_ascii c in
  if (48 <=? n) && (n <=? 57) then Some (n - 48)
  else if (97 <=? n) && (n <=? 102) then Some (n - 87)
  else if (65 <=? n) && (n <=? 70) then Some (n - 55)
  else None.

(** The lower-case digit of a value below sixteen. *)
Definition hex_char (d : N) : ascii :=
  ascii_of_N (if d <? 10 then 48 + d else 87 + d).

(** Read a string of hexadecimal digits, most significant first. *)
Fixpoint parse_hex (s : string) (acc : N) : option N :=
  match s with
  | EmptyString => Some acc
  | String c rest =>
      match hex_digit c with
      | Some d => parse_hex rest (16 * acc + d)
      | None => None
      end
  end.

(** The [k] least significant hexadecimal digits of [n]. *)
Fixpoint hex_of (k : nat) (n : N) : string :=
  match k with
  | O => EmptyString
  | S k' => hex_of k' (n / 16) +:+ String (hex_char (n mod 16)) EmptyString
  end.

(** [id.toString()]: 24 lower-case hexadecimal digits. *)
Definition string_of_oid (id : oid) : string := hex_of 24 id.

(** The strictest reading of "a syntactically valid identifier": exactly 24
    hexadecimal digits. *)
Definition oid_of_string (s : string) : option oid :=
  if Nat.eqb (String.length s) 24 then parse_hex s 0 else None.

(** ** Round trip *)

Lemma hex_digit_char d : d < 16 -> hex_digit (hex_char d) = Some d.
Proof.
  intros Hd. destruct d as [|p]; [done|].
  do 4 (destruct p as [p|p|]; try done); lia.
Qed.

Lemma parse_hex_app s t acc :
  parse_hex (s +:+ t) acc = parse_hex s acc ≫= parse_hex t.
Proof.
  revert acc. induction s as [|c s IH]; intros acc; simpl; [done|].
  destruct (hex_digit c); [apply IH|done].
Qed.

Lemma length_app_string s t :
  String.length (s +:+ t) = (String.length s + String.length t)%nat.
Proof. induction s; simpl; [done|]. by f_equal. Qed.

Lemma length_hex_of k n : String.length (hex_of k n) = k.
Proof.
  revert n. induction k as [|k IH]; intros n; simpl; [done|].
  rewrite length_app_string, IH. simpl. lia.
Qed.

Lemma parse_hex_of k n acc :
  n < 16 ^ N.of_nat k ->
  parse_hex (hex_of k n) acc = Some (16 ^ N.of_nat k * acc + n).
Proof.
  revert n acc. induction k as [|k IH]; intros n acc Hn.
  - simpl in *. f_equal. lia.
  - rewrite Nat2N.inj_succ, N.pow_succ_r' in *. simpl.
    rewrite parse_hex_app, IH by (apply N.Div0.div_lt_upper_bound; lia).
    simpl. rewrite hex_digit_char by (apply N.mod_lt; lia).
    f_equal. pose proof (N.div_mod n 16). lia.
Qed.

(** Reading back the text of an identifier gives the identifier. *)
Lemma oid_of_string_of_oid id :
  id < oid_bound -> oid_of_string (string_of_oid id) = Some id.
Proof.
  intros Hid. unfold oid_of_string, string_of_oid.
  rewrite length_hex_of, Nat.eqb_refl, (parse_hex_of 24) by exact Hid.
  by rewrite N.mul_0_r.
Qed.

Lemma oid_of_string_length s id : oid_of_string s = Some id -> String.length s = 24%nat.
Proof.
  unfold oid_of_string. destruct (Nat.eqb_spec (String.length s) 24); done.
Qed.
