(* ===== verification/Schema.v ===== *)
(** The Weather model of src/weather.js: the schema as the data it is, and
    the way the document mapper interprets a schema when a document is
    constructed ([new Weather({...})]) and validated (before [save()]).

    The conversions the mapper applies to client values (its "casting") are
    library code.  They are an interface here, [Caster], with the laws the
    handlers rely on in [CasterLaws]; every theorem about the handlers holds
    for any caster that satisfies the laws.  [strict_caster] is the least
    permissive one and serves to evaluate the model on concrete inputs. *)

From S2P Require Import Prelude JsValue ObjectId.

Set Warnings "-clear-no-such-hyp".

(** ** The schema (src/weather.js, lines 4-10) *)

(** The schema types the model uses: [String], [Number], [Date]. *)
Inductive SchemaType : Type := SString | SNumber | SDate.

#[export] Instance SchemaType_eq_dec : EqDecision SchemaType.
Proof. solve_decision. Defined.

(** The [default] option of a path: none, or the function [Date.now]. *)
Inductive DefaultSpec : Type := NoDefault | DateNow.

(** The options of one path: [{ type, required, default }]. *)
Record SchemaTypeOptions : Type := {
  type : SchemaType;
  required : bool;
  default_value : DefaultSpec
}.

Definition Schema : Type := list (string * SchemaTypeOptions).

Definition weatherSchema : Schema :=
  [ ("city",        {| type := SString; required := true;  default_value := NoDefault |});
    ("country",     {| type := SString; required := false; default_value := NoDefault |});
    ("temperature", {| type := SNumber; required := true;  default_value := NoDefault |});
    ("description", {| type := SString; required := false; default_value := NoDefault |});
    ("recordedAt",  {| type := SDate;   required := false; default_value := DateNow |}) ].

(** ** Documents *)

(** A stored scalar; a date is its number of milliseconds since the epoch. *)
Inductive bson : Type :=
| BString (s : string)
| BNumber (n : number)
| BDate (ms : Z).

#[export] Instance bson_eq_dec : EqDecision bson.
Proof. solve_decision. Defined.

Definition bson_type (x : bson) : SchemaType :=
  match x with BString _ => SString | BNumber _ => SNumber | BDate _ => SDate end.

(** The state of one path of a document: never set, set to [null], set to a
    value of the path's type, or set to a value that could not be cast (the
    mapper keeps the error and reports it when the document is validated). *)
Inductive path_value : Type :=
| Unset
| Null
| Val (x : bson)
| Invalid.

#[export] Instance path_value_eq_dec : EqDecision path_value.
Proof. solve_decision. Defined.

(** A document: its identifier and its paths in schema order. *)
Record document : Type := {
  _id : oid;
  paths : list (string * path_value)
}.

#[export] Instance document_eq_dec : EqDecision document.
Proof. solve_decision. Defined.

Fixpoint assoc_path (p : string) (l : list (string * path_value)) : path_value :=
  match l with
  | [] => Unset
  | (p', v) :: rest => if String.eqb p p' then v else assoc_path p rest
  end.

(** [doc.p] *)
Definition doc_get (p : string) (d : document) : path_value :=
  assoc_path p (paths d).

(** The sort key of [.sort({ recordedAt: -1 })]: the date in milliseconds;
    [None] for a document whose [recordedAt] is missing or not a date, which
    the database orders below every date. *)
Definition recordedAt (d : document) : option Z :=
  match doc_get "recordedAt" d with
  | Val (BDate ms) => Some ms
  | _ => None
  end.

(** ** Casting: the interface to the mapper's conversions *)

Inductive cast_result : Type :=
| Casted (x : bson)
| CastedNull
| CastFailure.

Class Caster : Type := {
  (** the value stored at a path of the given type for a client value that
      is not [undefined] *)
  cast : SchemaType -> value -> cast_result;
  (** the identifier a string of a URL denotes, if any *)
  castObjectId : string -> option oid
}.

Class CasterLaws `{Caster} : Prop := {
  cast_string s : cast SString (VString s) = Casted (BString s);
  cast_number n : is_nan n = false -> cast SNumber (VNumber n) = Casted (BNumber n);
  cast_null t : cast t VNull = CastedNull;
  cast_typed t v x : cast t v = Casted x -> bson_type x = t;
  castObjectId_hex id :
    (id < oid_bound)%N -> castObjectId (string_of_oid id) = Some id
}.

(** ** Construction: [new Model(obj)] *)

(** The stored form of a client value at a path of type [t]. *)
Definition cast_path `{Caster} (t : SchemaType) (v : value) : path_value :=
  match cast t v with
  | Casted x => Val x
  | CastedNull => Null
  | CastFailure => Invalid
  end.

(** The value a path takes when the client gives none. *)
Definition apply_default (now : Z) (d : DefaultSpec) : path_value :=
  match d with
  | DateNow => Val (BDate now)
  | NoDefault => Unset
  end.

(** The initial state of a path with options [opts] given the client value
    [v]: an [undefined] value leaves the path to its default; any other
    value is cast to the path's type. *)
Definition init_value `{Caster} (now : Z) (opts : SchemaTypeOptions) (v : value)
  : path_value :=
  if is_undefined v then apply_default now (default_value opts)
  else cast_path (type opts) v.

(** The initial state of one path of the schema, read off [obj]. *)
Definition init_path `{Caster} (now : Z) (obj : value)
    (entry : string * SchemaTypeOptions) : string * path_value :=
  (entry.1, init_value now entry.2 (get_prop entry.1 obj)).

(** [new Model(obj)] for the model of [schema], at time [now], with the fresh
    identifier [id].  The identifier is always the fresh one: an [_id]
    property of [obj], which Mongoose would take, is not read; the object
    the program constructs has none. *)
Definition new_Model `{Caster} (schema : Schema) (id : oid) (now : Z)
    (obj : value) : document :=
  {| _id := id; paths := init_path now obj <$> schema |}.

(** [mongoose.model("Weather", weatherSchema)] (src/weather.js, line 12) *)
Definition Weather `{Caster} : oid -> Z -> value -> document :=
  new_Model weatherSchema.

(** ** Validation *)

(** The [required] validator: a value is present, and a string is not empty. *)
Definition checkRequired (v : path_value) : bool :=
  match v with
  | Val (BString s) => negb (String.eqb s "")
  | Val _ => true
  | Unset | Null | Invalid => false
  end.

(** A path fails validation when its value could not be cast, or when it is
    required and the [required] validator rejects it. *)
Definition path_fails (opts : SchemaTypeOptions) (v : path_value) : bool :=
  match v with
  | Invalid => true
  | _ => required opts && negb (checkRequired v)
  end.

(** [doc.validateSync()]: the names of the paths that fail, in schema order. *)
Definition validate (schema : Schema) (d : document) : list string :=
  omap (fun entry : string * SchemaTypeOptions =>
          if path_fails entry.2 (doc_get entry.1 d) then Some entry.1 else None)
       schema.

(** A value of a path has the path's type. *)
Definition path_typed (opts : SchemaTypeOptions) (v : path_value) : bool :=
  match v with
  | Val x => bool_decide (bson_type x = type opts)
  | _ => true
  end.

(** Every path of the schema holds a value of its type. *)
Definition well_typed (schema : Schema) (d : document) : bool :=
  forallb (fun entry : string * SchemaTypeOptions =>
             path_typed entry.2 (doc_get entry.1 d)) schema.

(** ** The least permissive caster *)

(** Strings for [String] paths, numbers other than [NaN] for [Number] paths,
    [null] for any path; 24 hexadecimal digits for an identifier. *)
Definition strict_cast (t : SchemaType) (v : value) : cast_result :=
  match v, t with
  | VNull, _ => CastedNull
  | VString s, SString => Casted (BString s)
  | VNumber n, SNumber => if is_nan n then CastFailure else Casted (BNumber n)
  | _, _ => CastFailure
  end.

Definition strict_caster : Caster :=
  {| cast := strict_cast; castObjectId := oid_of_string |}.

Lemma strict_caster_laws : @CasterLaws strict_caster.
Proof.
  split; simpl; try done.
  - by intros n ->.
  - intros t v x. destruct v, t; simpl; repeat case_match; intros; by simplify_eq.
  - apply oid_of_string_of_oid.
Qed.

#[export] Existing Instance strict_caster_laws.

(** ** Properties of construction and validation *)

(** The options of a path of a schema. *)
Fixpoint schema_lookup (p : string) (schema : Schema) : option SchemaTypeOptions :=
  match schema with
  | [] => None
  | (p', opts) :: rest => if String.eqb p p' then Some opts else schema_lookup p rest
  end.

(** A default has the type of its path: [Date.now] is given to dates only. *)
Definition default_typed (opts : SchemaTypeOptions) : bool :=
  match default_value opts with
  | DateNow => bool_decide (type opts = SDate)
  | NoDefault => true
  end.

Section SchemaProps.
Context `{CasterLaws}.

Lemma doc_get_new_Model schema id t obj p :
  doc_get p (new_Model schema id t obj) =
    from_option (fun opts => init_value t opts (get_prop p obj)) Unset
      (schema_lookup p schema).
Proof.
  unfold doc_get, new_Model; simpl.
  induction schema as [|[p' opts] rest IH]; simpl; [done|].
  destruct (String.eqb_spec p p') as [->|]; [done|apply IH].
Qed.

Lemma cast_path_typed opts v : path_typed opts (cast_path (type opts) v) = true.
Proof.
  unfold cast_path. destruct (cast _ v) eqn:Hc; simpl; [|done..].
  apply bool_decide_eq_true. by eapply cast_typed.
Qed.

Lemma init_value_typed t opts v :
  default_typed opts = true -> path_typed opts (init_value t opts v) = true.
Proof.
  unfold init_value, default_typed, apply_default.
  destruct (is_undefined v); [|intros _; apply cast_path_typed].
  destruct (default_value opts); simpl; [done|].
  intros ->%bool_decide_eq_true. by apply bool_decide_eq_true.
Qed.

Lemma schema_lookup_elem_of p opts schema :
  schema_lookup p schema = Some opts -> (p, opts) ∈ schema.
Proof.
  induction schema as [|[p' o] rest IH]; simpl; [done|].
  destruct (String.eqb_spec p p') as [->|]; [intros [= ->]; left|right; auto].
Qed.

Lemma schema_lookup_NoDup p opts schema :
  NoDup schema.*1 -> (p, opts) ∈ schema -> schema_lookup p schema = Some opts.
Proof.
  induction schema as [|[p' o] rest IH]; simpl; [by intros _ ?%elem_of_nil|].
  intros [Hp' Hnd]%NoDup_cons [[= -> ->]|Hin]%elem_of_cons;
    [by rewrite String.eqb_refl|].
  destruct (String.eqb_spec p p') as [->|]; [|by apply IH].
  destruct Hp'. apply list_elem_of_fmap. by exists (p', opts).
Qed.

(** Whatever the client sends, a new document of a schema whose defaults are
    typed holds, at each path, nothing or a value of the path's type. *)
Lemma new_Model_well_typed schema id t obj :
  forallb (fun entry => default_typed entry.2) schema = true ->
  NoDup schema.*1 ->
  well_typed schema (new_Model schema id t obj) = true.
Proof.
  intros Hdef Hnd. unfold well_typed. rewrite forallb_forall in *.
  intros [p opts] Hin. specialize (Hdef _ Hin). apply list_elem_of_In in Hin.
  simpl. rewrite doc_get_new_Model, (schema_lookup_NoDup p opts) by done. simpl.
  by apply init_value_typed.
Qed.

Lemma validate_nil schema d :
  validate schema d = [] <->
  Forall (fun entry => path_fails entry.2 (doc_get entry.1 d) = false) schema.
Proof.
  unfold validate. induction schema as [|[p opts] rest IH]; simpl; [done|].
  rewrite Forall_cons. simpl. destruct (path_fails opts (doc_get p d)); simpl.
  - split; [done|by intros [? _]].
  - rewrite IH. naive_solver.
Qed.

Lemma validate_elem_of schema d p opts :
  (p, opts) ∈ schema -> path_fails opts (doc_get p d) = true ->
  p ∈ validate schema d.
Proof.
  intros Hin Hf. apply list_elem_of_omap. exists (p, opts). simpl. by rewrite Hf.
Qed.

End SchemaProps.

(** A document meets the data model of the service: its city is a string
    that is not empty and its temperature is a number. *)
Definition valid_record (d : document) : Prop :=
  exists s n, doc_get "city" d = Val (BString s) /\ s <> "" /\
              doc_get "temperature" d = Val (BNumber n).

(** A document that passes validation against [weatherSchema] and is typed
    by it meets the data model. *)
Lemma validate_valid_record d :
  validate weatherSchema d = [] -> well_typed weatherSchema d = true ->
  valid_record d.
Proof.
  intros Hv Ht. rewrite validate_nil in Hv. unfold weatherSchema, well_typed in *.
  rewrite !Forall_cons in Hv. simpl in Hv, Ht. rewrite !andb_true_iff in Ht.
  destruct Hv as (Hc & _ & Htm & _), Ht as (Hct & _ & Htt & _).
  revert Hc Htm Hct Htt. unfold path_fails, path_typed, valid_record.
  destruct (doc_get "city" d) as [| |[s|n|ms]|],
    (doc_get "temperature" d) as [| |[s'|n'|ms']|];
    simpl; try done; intros Hs _ _ _.
  exists s, n'. split_and!; [done| |done]. by intros ->.
Qed.
