(* ===== verification/Store.v ===== *)
(** The record store: the MongoDB collection behind the Weather model.

    The database is not code of the repository.  What the handlers need of
    it is an interface, [Store], and its contract, [StoreLaws], stated over
    an abstraction function [contents] (the documents of the collection) and
    a representation invariant [store_inv]: insertion keeps identifiers
    unique, look-up and deletion go by identifier, and the sorted query
    returns a prefix of some ordering of the contents by descending
    [recordedAt].  The order of documents with equal keys is left open, as
    the database leaves it.

    [list_store] implements the interface with a list in insertion order and
    a stable merge sort; its laws are proved at the end of the file. *)

From S2P Require Import Prelude JsValue ObjectId Schema.

Set Warnings "-clear-no-such-hyp".

(** ** The order of [.sort({ recordedAt: -1 })] *)

(** [key_le a b]: key [a] sorts no later than [b] in ascending order; a
    missing key is below every date. *)
Definition key_le (a b : option Z) : Prop :=
  match a, b with
  | None, _ => True
  | Some _, None => False
  | Some x, Some y => (x <= y)%Z
  end.

(** [newer a b]: [a] may stand before [b] in descending order of
    [recordedAt]. *)
Definition newer (a b : document) : Prop := key_le (recordedAt b) (recordedAt a).

#[export] Instance key_le_dec : RelDecision key_le.
Proof. intros [x|] [y|]; simpl; apply _. Defined.

#[export] Instance newer_dec : RelDecision newer.
Proof. intros a b. unfold newer. apply _. Defined.

#[export] Instance key_le_preorder : PreOrder key_le.
Proof.
  split.
  - by intros [x|]; simpl.
  - intros [x|] [y|] [z|]; simpl; try done. lia.
Qed.

#[export] Instance key_le_total : Total key_le.
Proof. intros [x|] [y|]; simpl; auto. lia. Qed.

#[export] Instance newer_trans : Transitive newer.
Proof. intros a b c Hab Hbc. unfold newer in *. by etrans. Qed.

#[export] Instance newer_total : Total newer.
Proof. intros a b. unfold newer. destruct (total key_le (recordedAt a) (recordedAt b)); auto. Qed.

(** ** The interface *)

Class Store (C : Type) : Type := {
  (** the documents of the collection (abstraction function) *)
  contents : C -> list document;
  (** the representation invariant *)
  store_inv : C -> Prop;
  (** a collection with no document *)
  store_empty : C;
  (** [insertOne(doc)]: [None] when the identifier is taken (the unique
      index on [_id] rejects the insertion) *)
  insertOne : document -> C -> option C;
  (** [find().sort({ recordedAt: -1 }).limit(n)] *)
  findSorted : nat -> C -> list document;
  (** [findOne({ _id: id })] *)
  findOne : oid -> C -> option document;
  (** [findOneAndDelete({ _id: id })] *)
  findOneAndDelete : oid -> C -> option document * C;
  (** [deleteMany({})] *)
  deleteMany : C -> C
}.

(** The identifiers in use. *)
Definition ids `{Store C} (c : C) : list oid := _id <$> contents c.

Class StoreLaws (C : Type) `{Store C} : Prop := {
  store_inv_NoDup c : store_inv c -> NoDup (ids c);
  store_empty_inv : store_inv store_empty;
  store_empty_contents : contents store_empty = [];
  insertOne_None d c :
    store_inv c -> (insertOne d c = None <-> _id d ∈ ids c);
  insertOne_Some d c c' :
    store_inv c -> insertOne d c = Some c' ->
    store_inv c' /\ contents c' ≡ₚ d :: contents c;
  findOne_Some i c d :
    store_inv c -> (findOne i c = Some d <-> d ∈ contents c /\ _id d = i);
  findOneAndDelete_found i c :
    (findOneAndDelete i c).1 = findOne i c;
  findOneAndDelete_rest i c :
    store_inv c ->
    store_inv (findOneAndDelete i c).2 /\
    contents (findOneAndDelete i c).2 ≡ₚ
      filter (fun d => _id d <> i) (contents c);
  deleteMany_inv c : store_inv (deleteMany c);
  deleteMany_contents c : contents (deleteMany c) = [];
  findSorted_spec n c :
    exists l, l ≡ₚ contents c /\ Sorted newer l /\ findSorted n c = take n l
}.

(** ** The list store *)

Fixpoint list_findOne (i : oid) (c : list document) : option document :=
  match c with
  | [] => None
  | d :: rest => if bool_decide (_id d = i) then Some d else list_findOne i rest
  end.

(** Remove the first document with identifier [i]. *)
Fixpoint list_deleteOne (i : oid) (c : list document) : list document :=
  match c with
  | [] => []
  | d :: rest => if bool_decide (_id d = i) then rest else d :: list_deleteOne i rest
  end.

Definition list_insertOne (d : document) (c : list document)
  : option (list document) :=
  if bool_decide (_id d ∈ _id <$> c) then None else Some (c ++ [d]).

Definition list_findSorted (n : nat) (c : list document) : list document :=
  take n (merge_sort newer c).

Definition list_store : Store (list document) := {|
  contents c := c;
  store_inv c := NoDup (_id <$> c);
  store_empty := [];
  insertOne := list_insertOne;
  findSorted := list_findSorted;
  findOne := list_findOne;
  findOneAndDelete i c := (list_findOne i c, list_deleteOne i c);
  deleteMany _ := []
|}.

(** ** Lemmas on the list operations *)

Lemma list_findOne_Some i c d :
  list_findOne i c = Some d -> d ∈ c /\ _id d = i.
Proof.
  induction c as [|d' c IH]; simpl; [done|].
  case_bool_decide; [intros [= <-]|intros [??]%IH]; split; (done || by constructor).
Qed.

Lemma list_findOne_None i c :
  list_findOne i c = None <-> i ∉ _id <$> c.
Proof.
  induction c as [|d c IH]; simpl.
  - split; [intros _ ?%elem_of_nil|]; done.
  - rewrite not_elem_of_cons. case_bool_decide; naive_solver.
Qed.

Lemma list_findOne_elem_of i c d :
  NoDup (_id <$> c) -> d ∈ c -> _id d = i -> list_findOne i c = Some d.
Proof.
  induction c as [|d' c IH]; simpl; [by intros _ ?%elem_of_nil|].
  intros [Hd' Hc]%NoDup_cons [->|Hd]%elem_of_cons Hi.
  - by rewrite bool_decide_eq_true_2.
  - case_bool_decide; [|by apply IH].
    destruct Hd'. apply list_elem_of_fmap. exists d. by split; [congruence|].
Qed.

Lemma list_deleteOne_filter i c :
  NoDup (_id <$> c) ->
  list_deleteOne i c = filter (fun d => _id d <> i) c.
Proof.
  induction c as [|d c IH]; simpl; [done|].
  intros [Hd Hc]%NoDup_cons. rewrite filter_cons. case_bool_decide as Hi.
  - rewrite decide_False by naive_solver. symmetry. apply filter_all.
    apply Forall_forall. intros d' Hd' Heq. apply Hd, list_elem_of_fmap.
    exists d'. by split; [congruence|].
  - rewrite decide_True by done. f_equal. by apply IH.
Qed.

Lemma NoDup_ids_filter (P : document -> Prop) `{!forall d, Decision (P d)} c :
  NoDup (_id <$> c) -> NoDup (_id <$> filter P c).
Proof.
  induction c as [|d c IH]; simpl; [done|].
  intros [Hd Hc]%NoDup_cons. rewrite filter_cons. case_decide; [|by apply IH].
  rewrite fmap_cons. apply NoDup_cons. split; [|by apply IH].
  intros (d' & ? & [??]%list_elem_of_filter)%list_elem_of_fmap.
  apply Hd, list_elem_of_fmap. eauto.
Qed.

(** ** The list store satisfies the contract *)

Lemma list_store_laws : @StoreLaws (list document) list_store.
Proof.
  split; simpl; unfold ids; simpl; try done.
  - constructor.
  - intros d c _. unfold list_insertOne. case_bool_decide; naive_solver.
  - intros d c c' Hc. unfold list_insertOne. case_bool_decide as Hd; [done|].
    intros [= <-]. split; [|by rewrite Permutation_app_comm].
    rewrite fmap_app. apply NoDup_app. split_and!; [done| |apply NoDup_singleton].
    intros i Hi ->%list_elem_of_singleton. done.
  - intros i c d Hc. split; [apply list_findOne_Some|].
    intros [??]. by apply list_findOne_elem_of.
  - intros i c Hc. rewrite list_deleteOne_filter by done.
    split; [by apply NoDup_ids_filter|done].
  - intros _. constructor.
  - intros n c. exists (merge_sort newer c).
    split_and!; [apply merge_sort_Permutation|apply (Sorted_merge_sort _)|done].
Qed.

#[export] Existing Instance list_store.
#[export] Existing Instance list_store_laws.

(** ** Consequences of the contract *)

Section StoreProps.
Context {C : Type} `{StoreLaws C}.
Implicit Types (c : C) (d : document) (i : oid).

Lemma findOne_None i c : store_inv c -> (findOne i c = None <-> i ∉ ids c).
Proof.
  intros Hc. unfold ids. rewrite list_elem_of_fmap. split.
  - intros Hn (d & -> & Hd).
    assert (findOne (_id d) c = Some d) as Hs by (by apply findOne_Some).
    congruence.
  - intros Hn. destruct (findOne i c) as [d|] eqn:Hf; [|done].
    apply findOne_Some in Hf as [? <-]; [|done]. destruct Hn. eauto.
Qed.

Lemma findOne_elem_of i c d : store_inv c -> findOne i c = Some d -> d ∈ contents c.
Proof. intros Hc Hf. by apply findOne_Some in Hf as [? _]. Qed.

Lemma findOne_id i c d : store_inv c -> findOne i c = Some d -> _id d = i.
Proof. intros Hc Hf. by apply findOne_Some in Hf as [_ ?]. Qed.

(** After [findOneAndDelete] the collection holds the documents it held
    under other identifiers, and none under [i]. *)
Lemma findOneAndDelete_elem_of i c d :
  store_inv c ->
  d ∈ contents (findOneAndDelete i c).2 <-> d ∈ contents c /\ _id d <> i.
Proof.
  intros Hc. destruct (findOneAndDelete_rest i c Hc) as [_ ->].
  rewrite list_elem_of_filter. naive_solver.
Qed.

Lemma findOneAndDelete_gone i c :
  store_inv c -> findOne i (findOneAndDelete i c).2 = None.
Proof.
  intros Hc. destruct (findOneAndDelete_rest i c Hc) as [Hc' Hp].
  apply findOne_None; [done|]. unfold ids. rewrite Hp.
  intros (d & -> & [? _]%list_elem_of_filter)%list_elem_of_fmap. done.
Qed.

Lemma findOneAndDelete_other i j c :
  store_inv c -> i <> j ->
  findOne j (findOneAndDelete i c).2 = findOne j c.
Proof.
  intros Hc Hij. destruct (findOneAndDelete_rest i c Hc) as [Hc' _].
  destruct (findOne j c) as [d|] eqn:Hf.
  - apply findOne_Some in Hf as [Hd Hj]; [|done].
    apply findOne_Some; [done|]. split; [|done].
    apply findOneAndDelete_elem_of; [done|]. split; [done|congruence].
  - apply findOne_None; [done|]. apply findOne_None in Hf; [|done].
    intros (d & -> & [Hd _]%findOneAndDelete_elem_of)%list_elem_of_fmap; [|done].
    apply Hf, list_elem_of_fmap. eauto.
Qed.

(** A missing identifier leaves the collection as it was. *)
Lemma findOneAndDelete_missing i c :
  store_inv c -> i ∉ ids c -> contents (findOneAndDelete i c).2 ≡ₚ contents c.
Proof.
  intros Hc Hi. destruct (findOneAndDelete_rest i c Hc) as [_ ->].
  rewrite filter_all; [done|]. apply Forall_forall. intros d Hd Heq.
  apply Hi, list_elem_of_fmap. eauto.
Qed.

(** The sorted query: its length, its order, where its documents come from,
    and that it returns the newest. *)
Lemma findSorted_length n c :
  length (findSorted n c) = n `min` length (contents c).
Proof.
  destruct (findSorted_spec n c) as (l & Hp & _ & ->).
  by rewrite length_take, Hp.
Qed.

Lemma findSorted_Sorted n c : Sorted newer (findSorted n c).
Proof.
  destruct (findSorted_spec n c) as (l & _ & Hs & ->). by apply Sorted_take.
Qed.

Lemma findSorted_submseteq n c : findSorted n c ⊆+ contents c.
Proof.
  destruct (findSorted_spec n c) as (l & Hp & _ & ->).
  rewrite <-Hp. apply sublist_submseteq, sublist_take.
Qed.

Lemma findSorted_newest n c x y :
  x ∈ findSorted n c -> y ∈ contents c -> y ∉ findSorted n c -> newer x y.
Proof.
  destruct (findSorted_spec n c) as (l & Hp & Hs & ->).
  rewrite <-Hp. intros Hx Hy Hny.
  apply (StronglySorted_take_drop newer n l);
    [by apply (Sorted_StronglySorted _)|done|].
  rewrite <-(take_drop n l) in Hy. apply elem_of_app in Hy as [|]; done.
Qed.

(** Below the limit the query returns every document. *)
Lemma findSorted_all n c : length (contents c) <= n -> findSorted n c ≡ₚ contents c.
Proof.
  destruct (findSorted_spec n c) as (l & Hp & _ & ->). intros Hn.
  rewrite take_ge; [done|]. by rewrite Hp.
Qed.

End StoreProps.
