(* ===== verification/Model.v ===== *)
(** The process state a request handler runs in, and the operations of the
    Weather model the handlers of src/index.js call: [new ObjectId()],
    [record.save()], [Weather.find().sort().limit()], [Weather.findById],
    [Weather.findByIdAndDelete], [Weather.deleteMany] and [console.error].

    Each operation is a computation of the [prog] monad over the [world]:
    the collection, the identifier generator and the console.  What the
    environment decides for a request (the clock, and whether the round trip
    to the database fails) is the [env] the operations take. *)

From S2P Require Import Prelude JsValue ObjectId Schema Store.

Set Warnings "-clear-no-such-hyp".

(** A line written to the console: [console.log(msg)] or
    [console.error(label, err)] (the label is empty for [console.error(err)]). *)
Inductive console_line : Type :=
| ConsoleLog (msg : string)
| ConsoleError (label : string) (e : exn).

(** The inputs of one request that the program does not control. *)
Record env : Type := {
  now : Z;        (** [Date.now()], in milliseconds *)
  fault : bool    (** the database call of this request fails *)
}.

Record world (C : Type) : Type := {
  db : C;                        (** the collection of the Weather model *)
  next_oid : oid;                (** the next identifier [new ObjectId()] gives *)
  console : list console_line    (** what was written to the console, oldest first *)
}.
Arguments db {C} _.
Arguments next_oid {C} _.
Arguments console {C} _.

Definition set_db {C} (c : C) (w : world C) : world C :=
  {| db := c; next_oid := next_oid w; console := console w |}.

Section Model.
Context {C : Type} `{Store C} `{Caster}.

(** [new ObjectId()]: identifiers are handed out in increasing order and
    never twice. *)
Definition new_ObjectId : prog (world C) exn oid :=
  fun w =>
    (Ok (next_oid w),
     {| db := db w; next_oid := N.succ (next_oid w); console := console w |}).

(** [console.error(err)] *)
Definition console_error (e : exn) : prog (world C) exn unit :=
  fun w =>
    (Ok tt,
     {| db := db w; next_oid := next_oid w;
        console := console w ++ [ConsoleError "" e] |}).

(** One round trip to the database: it fails as a whole, leaving the
    collection as it was, or it performs [op]. *)
Definition db_call {A} (e : env) (op : C -> outcome exn (A * C))
  : prog (world C) exn A :=
  fun w =>
    if fault e then (Throw StoreError, w)
    else match op (db w) with
         | Ok (a, c') => (Ok a, set_db c' w)
         | Throw err => (Throw err, w)
         end.

(** [doc.save()] for a new document: validate against the schema, then
    insert.  A document that fails validation is never sent to the database. *)
Definition save (schema : Schema) (e : env) (d : document)
  : prog (world C) exn document :=
  match validate schema d with
  | [] =>
      db_call e (fun c =>
        match insertOne d c with
        | Some c' => Ok (d, c')
        | None => Throw StoreError
        end)
  | failed => throw (ValidationError failed)
  end.

(** [Weather.find().sort({ recordedAt: -1 }).limit(n)] *)
Definition find_sort_limit (e : env) (n : nat) : prog (world C) exn (list document) :=
  db_call e (fun c => Ok (findSorted n c, c)).

(** [Weather.findById(id)]: the string is cast to an identifier before the
    query is sent; a string that is no identifier is a [CastError]. *)
Definition findById (e : env) (id : string) : prog (world C) exn (option document) :=
  match castObjectId id with
  | None => throw (CastError "_id")
  | Some i => db_call e (fun c => Ok (findOne i c, c))
  end.

(** [Weather.findByIdAndDelete(id)] *)
Definition findByIdAndDelete (e : env) (id : string)
  : prog (world C) exn (option document) :=
  match castObjectId id with
  | None => throw (CastError "_id")
  | Some i => db_call e (fun c => Ok (findOneAndDelete i c))
  end.

(** [Weather.deleteMany({})] *)
Definition deleteMany_all (e : env) : prog (world C) exn unit :=
  db_call e (fun c => Ok (tt, deleteMany c)).

End Model.

(** ** Equations of the operations *)

(** The world after [new ObjectId()]. *)
Definition bump {C} (w : world C) : world C :=
  {| db := db w; next_oid := N.succ (next_oid w); console := console w |}.

(** The world after [console.error(err)]. *)
Definition logged {C} (e : exn) (w : world C) : world C :=
  {| db := db w; next_oid := next_oid w;
     console := console w ++ [ConsoleError "" e] |}.

Section ModelProps.
Context {C : Type} `{Store C} `{Caster}.
Implicit Types (w : world C) (e : env) (d : document).

Lemma new_ObjectId_eq w : new_ObjectId w = (Ok (next_oid w), bump w).
Proof. reflexivity. Qed.

Lemma console_error_eq err w : console_error err w = (Ok tt, logged err w).
Proof. reflexivity. Qed.

Lemma db_call_fault {A} e (op : C -> outcome exn (A * C)) w :
  fault e = true -> db_call e op w = (Throw StoreError, w).
Proof. unfold db_call. by intros ->. Qed.

Lemma db_call_ok {A} e (op : C -> outcome exn (A * C)) w a c' :
  fault e = false -> op (db w) = Ok (a, c') -> db_call e op w = (Ok a, set_db c' w).
Proof. unfold db_call. by intros -> ->. Qed.

(** A database call that throws leaves the world as it was. *)
Lemma db_call_throw {A} e (op : C -> outcome exn (A * C)) w err w' :
  db_call e op w = (Throw err, w') -> w' = w.
Proof. unfold db_call. repeat case_match; naive_solver. Qed.

Lemma db_call_Ok_inv {A} e (op : C -> outcome exn (A * C)) w a w' :
  db_call e op w = (Ok a, w') ->
  fault e = false /\ exists c', op (db w) = Ok (a, c') /\ w' = set_db c' w.
Proof. unfold db_call. repeat case_match; naive_solver. Qed.

Lemma save_invalid schema e d w :
  validate schema d <> [] ->
  save schema e d w = (Throw (ValidationError (validate schema d)), w).
Proof. unfold save. by destruct (validate schema d). Qed.

Lemma save_ok schema e d w c' :
  validate schema d = [] -> fault e = false -> insertOne d (db w) = Some c' ->
  save schema e d w = (Ok d, set_db c' w).
Proof. unfold save. intros -> ? Hi. apply db_call_ok; [done|]. by rewrite Hi. Qed.

Lemma save_throw schema e d w err w' :
  save schema e d w = (Throw err, w') -> w' = w.
Proof.
  unfold save. destruct (validate schema d); [apply db_call_throw|].
  unfold throw. naive_solver.
Qed.

(** [save] returns the document it was given, and only after validation
    passed and the insertion took place. *)
Lemma save_Ok_inv schema e d w d' w' :
  save schema e d w = (Ok d', w') ->
  d' = d /\ validate schema d = [] /\ fault e = false /\
  exists c', insertOne d (db w) = Some c' /\ w' = set_db c' w.
Proof.
  unfold save. destruct (validate schema d); [|done].
  intros (? & c' & Hop & ->)%db_call_Ok_inv.
  destruct (insertOne d (db w)) eqn:Hi; naive_solver.
Qed.

Lemma findById_invalid e id w :
  castObjectId id = None -> findById e id w = (Throw (CastError "_id"), w).
Proof. unfold findById. by intros ->. Qed.

Lemma findById_ok e id i w :
  castObjectId id = Some i -> fault e = false ->
  findById e id w = (Ok (findOne i (db w)), w).
Proof.
  unfold findById. intros -> He. erewrite db_call_ok by done. by destruct w.
Qed.

Lemma findById_fault e id i w :
  castObjectId id = Some i -> fault e = true ->
  findById e id w = (Throw StoreError, w).
Proof. unfold findById. intros -> He. by apply db_call_fault. Qed.

Lemma findByIdAndDelete_invalid e id w :
  castObjectId id = None -> findByIdAndDelete e id w = (Throw (CastError "_id"), w).
Proof. unfold findByIdAndDelete. by intros ->. Qed.

Lemma findByIdAndDelete_ok e id i w :
  castObjectId id = Some i -> fault e = false ->
  findByIdAndDelete e id w =
    (Ok (findOneAndDelete i (db w)).1, set_db (findOneAndDelete i (db w)).2 w).
Proof.
  unfold findByIdAndDelete. intros -> He. apply db_call_ok; [done|].
  by destruct (findOneAndDelete i (db w)).
Qed.

Lemma findByIdAndDelete_fault e id i w :
  castObjectId id = Some i -> fault e = true ->
  findByIdAndDelete e id w = (Throw StoreError, w).
Proof. unfold findByIdAndDelete. intros -> He. by apply db_call_fault. Qed.

End ModelProps.

#[export] Hint Rewrite @new_ObjectId_eq @console_error_eq : weather_rw.
