(* ===== verification/Handlers.v ===== *)
(** The route handlers of src/index.js, one definition per handler, written
    in the [prog] monad with the source's [try]/[catch] structure.

    A handler receives the request and the response object Express made for
    it ([res_new]: status 200, nothing sent) and returns the response object
    after [res.status(...)] and [res.json(...)]. *)

From S2P Require Import Prelude JsValue ObjectId Schema Store Model.

Set Warnings "-clear-no-such-hyp".
Local Open Scope prog_scope.

(** ** Requests and responses *)

(** What a handler reads of a request: the parsed JSON body ([req.body]) and
    the [:id] segment of the URL ([req.params.id], bound by the two routes
    whose pattern has it; the other handlers do not read it). *)
Record request : Type := {
  body : value;
  params_id : string
}.

(** The argument of [res.json(...)]. *)
Inductive json_body : Type :=
| JsonError (error : string)          (** [{ error: "..." }] *)
| JsonDoc (d : document)              (** a document *)
| JsonList (l : list document)        (** an array of documents *)
| JsonDeleted (id : oid)              (** [{ deleted: true, id }] *)
| JsonDeletedAll                      (** [{ deletedAll: true }] *)
| JsonHealth (time : Z).              (** [{ status: "ok", time }] *)

(** The response object: the status code set so far and the body, once sent. *)
Record response : Type := {
  statusCode : nat;
  sent : option json_body
}.

(** The response object of a new request. *)
Definition res_new : response := {| statusCode := 200; sent := None |}.

(** [res.status(code)] *)
Definition status (code : nat) (res : response) : response :=
  {| statusCode := code; sent := sent res |}.

(** [res.json(b)] *)
Definition json (b : json_body) (res : response) : response :=
  {| statusCode := statusCode res; sent := Some b |}.

(** The limit of the list query (src/index.js, line 50). *)
Definition list_limit : nat := 100.

Section Handlers.
Context {C : Type} `{Store C} `{Caster}.

Definition handler : Type := env -> request -> response -> prog (world C) exn response.

(** [GET /api/health] (line 25) *)
Definition get_health : handler := fun e req res =>
  ret (json (JsonHealth (now e)) res).

(** [POST /api/weather] (lines 30-44) *)
Definition post_weather : handler := fun e req res =>
  try_catch
    (let* (city, country, temperature, description) :=
       lift (destructure4 "city" "country" "temperature" "description" (body req)) in
     if negb (truthy city) || is_undefined temperature then
       ret (json (JsonError "city and temperature are required") (status 400 res))
     else
       let* id := new_ObjectId in
       let record :=
         Weather id (now e)
           (VObject [("city", city); ("country", country);
                     ("temperature", temperature); ("description", description)]) in
       let* saved := save weatherSchema e record in
       ret (json (JsonDoc saved) (status 201 res)))
    (fun err =>
       let* _ := console_error err in
       ret (json (JsonError "server error") (status 500 res))).

(** [GET /api/weather] (lines 48-56) *)
Definition get_weather_list : handler := fun e req res =>
  try_catch
    (let* list := find_sort_limit e list_limit in
     ret (json (JsonList list) res))
    (fun err =>
       let* _ := console_error err in
       ret (json (JsonError "server error") (status 500 res))).

(** [GET /api/weather/:id] (lines 60-69) *)
Definition get_weather_by_id : handler := fun e req res =>
  try_catch
    (let* rec := findById e (params_id req) in
     match rec with
     | None => ret (json (JsonError "Not found") (status 404 res))
     | Some d => ret (json (JsonDoc d) res)
     end)
    (fun err =>
       let* _ := console_error err in
       ret (json (JsonError "Invalid id") (status 400 res))).

(** [DELETE /api/weather/:id] (lines 73-82) *)
Definition delete_weather_by_id : handler := fun e req res =>
  try_catch
    (let* removed := findByIdAndDelete e (params_id req) in
     match removed with
     | None => ret (json (JsonError "Not found") (status 404 res))
     | Some d => ret (json (JsonDeleted (_id d)) res)
     end)
    (fun err =>
       let* _ := console_error err in
       ret (json (JsonError "Invalid id") (status 400 res))).

(** [DELETE /api/weather] (lines 86-94) *)
Definition delete_weather_all : handler := fun e req res =>
  try_catch
    (let* _ := deleteMany_all e in
     ret (json JsonDeletedAll res))
    (fun err =>
       let* _ := console_error err in
       ret (json (JsonError "server error") (status 500 res))).

End Handlers.

(** ** The responses the handlers send, by name *)

(** [res.status(400).json({ error: "city and temperature are required" })] *)
Definition res_400_required (res : response) : response :=
  json (JsonError "city and temperature are required") (status 400 res).

(** [res.status(500).json({ error: "server error" })] *)
Definition res_500 (res : response) : response :=
  json (JsonError "server error") (status 500 res).

(** [res.status(201).json(saved)] *)
Definition res_201 (d : document) (res : response) : response :=
  json (JsonDoc d) (status 201 res).

(** [res.status(404).json({ error: "Not found" })] *)
Definition res_404 (res : response) : response :=
  json (JsonError "Not found") (status 404 res).

(** [res.status(400).json({ error: "Invalid id" })] *)
Definition res_400_invalid_id (res : response) : response :=
  json (JsonError "Invalid id") (status 400 res).
