(* ===== verification/Router.v ===== *)
(** The Express application of src/index.js: the middleware stack in the
    order the source registers it ([cors()], [express.json()],
    [express.static(...)], lines 16-22) and the route table (lines 25-94).

    The way Express matches a request path against a route pattern is the
    framework's: a pattern segment that starts with a colon binds any one
    non-empty path segment, other segments compare without regard to case,
    and one trailing slash is tolerated (the defaults of an Express
    application: not case sensitive, not strict).  A [HEAD] request is
    routed as a [GET]. *)

From Stdlib Require Import Ascii.
From S2P Require Import Prelude JsValue ObjectId Schema Store Model Handlers.

Set Warnings "-clear-no-such-hyp".
Local Open Scope prog_scope.

(** ** Requests as the application receives them *)

Inductive Method : Type := GET | HEAD | POST | PUT | PATCH | DELETE | OPTIONS.

#[export] Instance Method_eq_dec : EqDecision Method.
Proof. solve_decision. Defined.

(** What [express.json()] makes of the request body: the parsed value (an
    empty object for a request without a JSON body), or a parse error. *)
Inductive parsed_body : Type :=
| Parsed (v : value)
| Malformed.

Record http_request : Type := {
  method : Method;
  path : string;            (** the path of the URL, without the query *)
  payload : parsed_body;
  static_file : bool        (** [public/] holds a file for this path *)
}.

(** What the application answers. *)
Inductive http_response : Type :=
| Preflight              (** 204 from [cors()] for an [OPTIONS] request *)
| BadRequest             (** 400 from Express for a body that does not parse *)
| StaticFile             (** 200 with the file from [public/] *)
| Routed (res : response)  (** what a route handler sent *)
| NoRoute.               (** 404 from Express: no route matched *)

(** ** Path matching *)

(** The segments of a path: the text between slashes. *)
Fixpoint split_path (s : string) : list string :=
  match s with
  | EmptyString => [EmptyString]
  | String c rest =>
      if Ascii.eqb c "/" then EmptyString :: split_path rest
      else match split_path rest with
           | seg :: segs => String c seg :: segs
           | [] => [String c EmptyString]
           end
  end.

Definition lower_ascii (c : ascii) : ascii :=
  let n := nat_of_ascii c in
  if (65 <=? n)%nat && (n <=? 90)%nat then ascii_of_nat (n + 32) else c.

Fixpoint lower (s : string) : string :=
  match s with
  | EmptyString => EmptyString
  | String c rest => String (lower_ascii c) (lower rest)
  end.

(** A literal segment of a pattern matches a path segment that is equal up
    to the case of its letters. *)
Definition seg_eq (lit seg : string) : bool := String.eqb (lower lit) (lower seg).
Arguments seg_eq : simpl never.

(** A pattern segment [:name] binds a parameter. *)
Definition param_name (seg : string) : option string :=
  match seg with
  | String ":" name => Some name
  | _ => None
  end.

(** Match the segments of a pattern against those of a path, collecting
    the parameters. *)
Fixpoint match_segments (pat segs : list string) : option (list (string * string)) :=
  match pat, segs with
  | [], [] => Some []
  | [], [EmptyString] => Some []
  | p :: pat', s :: segs' =>
      match param_name p with
      | Some name =>
          if String.eqb s "" then None
          else match match_segments pat' segs' with
               | Some ps => Some ((name, s) :: ps)
               | None => None
               end
      | None =>
          if seg_eq p s then match_segments pat' segs' else None
      end
  | _, _ => None
  end.

(** [pattern] matches [path]: the parameters it binds. *)
Definition match_path (pattern path : string) : option (list (string * string)) :=
  match_segments (split_path pattern) (split_path path).

(** A route registered with [app.get], [app.post] or [app.delete] answers
    its own method; one registered with [app.get] answers [HEAD] too. *)
Definition method_matches (route_method m : Method) : bool :=
  bool_decide (route_method = m) ||
  (bool_decide (route_method = GET) && bool_decide (m = HEAD)).

(** [req.params.id] *)
Definition param_id (ps : list (string * string)) : string :=
  match ps with
  | (_, v) :: _ => v
  | [] => ""
  end.

Section Router.
Context {C : Type} `{Store C} `{Caster}.

(** ** The route table (lines 25, 30, 48, 60, 73, 86) *)

Definition routes : list (Method * string * @handler C) :=
  [ (GET,    "/api/health",      get_health);
    (POST,   "/api/weather",     post_weather);
    (GET,    "/api/weather",     get_weather_list);
    (GET,    "/api/weather/:id", get_weather_by_id);
    (DELETE, "/api/weather/:id", delete_weather_by_id);
    (DELETE, "/api/weather",     delete_weather_all) ].

(** The first route of a table that matches the method and the path, with
    the parameters its pattern binds. *)
Fixpoint find_route (table : list (Method * string * @handler C)) (m : Method)
    (p : string) : option (@handler C * list (string * string)) :=
  match table with
  | [] => None
  | (rm, pattern, h) :: rest =>
      if method_matches rm m then
        match match_path pattern p with
        | Some ps => Some (h, ps)
        | None => find_route rest m p
        end
      else find_route rest m p
  end.

(** ** The application: middleware, then routes, then Express's 404 *)

Definition app (e : env) (rq : http_request) : prog (world C) exn http_response :=
  if bool_decide (method rq = OPTIONS) then ret Preflight
  else
    match payload rq with
    | Malformed => ret BadRequest
    | Parsed b =>
        if (bool_decide (method rq = GET) || bool_decide (method rq = HEAD))
           && static_file rq
        then ret StaticFile
        else
          match find_route routes (method rq) (path rq) with
          | Some (h, ps) =>
              let* res := h e {| body := b; params_id := param_id ps |} res_new in
              ret (Routed res)
          | None => ret NoRoute
          end
    end.

End Router.

(** ** Facts on the table and the application *)

Section RouterFacts.
Context {C : Type} `{Store C} `{Caster}.

(** The route the search returns is an entry of the table that answers the
    method and whose pattern matches the path. *)
Lemma find_route_Some (table : list (Method * string * @handler C)) m p h ps :
  find_route table m p = Some (h, ps) ->
  exists rm pat,
    (rm, pat, h) ∈ table /\ method_matches rm m = true /\ match_path pat p = Some ps.
Proof.
  induction table as [|[[rm pat] h'] table IH]; simpl; [done|].
  destruct (method_matches rm m) eqn:Hm;
    [destruct (match_path pat p) eqn:Hp|]; try intros [= <- <-];
    try (intros (rm' & pat' & ? & ?)%IH; exists rm', pat');
    try (exists rm, pat); set_solver.
Qed.

(** The handlers of the table are the six handlers of the source. *)
Lemma routes_handlers rm pat (h : @handler C) :
  (rm, pat, h) ∈ routes ->
  rm ∈ [GET; POST; DELETE] /\
  h ∈ [get_health; post_weather; get_weather_list; get_weather_by_id;
       delete_weather_by_id; delete_weather_all].
Proof. unfold routes. set_solver. Qed.

(** A property of the answers of the application holds when it holds of
    the answers that come from no handler, which leave the world as it was,
    and of the answer of every handler of the table. *)
Lemma app_handlers (Q : world C -> http_response -> world C -> Prop) e rq w r w' :
  (forall r0, (forall res, r0 <> Routed res) -> Q w r0 w) ->
  (forall rm pat h req res w1,
     (rm, pat, h) ∈ routes -> h e req res_new w = (Ok res, w1) ->
     Q w (Routed res) w1) ->
  app e rq w = (Ok r, w') -> Q w r w'.
Proof.
  intros Hsame Hroute. unfold app.
  destruct (bool_decide _); [intros [= <- <-]; by apply Hsame|].
  destruct (payload rq); [|intros [= <- <-]; by apply Hsame].
  destruct (_ && _); [intros [= <- <-]; by apply Hsame|].
  destruct (find_route _ _ _) as [[h ps]|] eqn:Hf; [|intros [= <- <-]; by apply Hsame].
  apply find_route_Some in Hf as (rm & pat & Hin & _). unfold bind.
  destruct (h e _ res_new w) as [[res|err] w1] eqn:Hh; intros [= <- <-]. eauto.
Qed.

End RouterFacts.

(** Case analysis on the handler of an entry [Hin] of the route table:
    one goal for each of the six handlers, in the order of [routes_handlers]. *)
Ltac each_handler Hin :=
  apply routes_handlers in Hin as [_ Hin];
  repeat (apply elem_of_cons in Hin as [->|Hin]);
  [..|by apply elem_of_nil in Hin].
