(* ===== verification/Examples.v ===== *)
(** Concrete inputs on which the model is evaluated: the list store and the
    strict caster as instances, a clock, an empty world, the request of the
    specification's example ([POST { city: "Paris", temperature: 18 }]) and
    the document it creates.  The runs below are checked by computation. *)

From S2P Require Import Prelude JsValue ObjectId Schema Store Model Handlers.

#[export] Existing Instance strict_caster.

(** An environment in which the database answers, and one in which it fails. *)
Definition env_ok : env := {| now := 1700000000000; fault := false |}.
Definition env_down : env := {| now := 1700000000000; fault := true |}.

(** A fresh process: an empty collection, an empty console. *)
Definition world_empty : world (list document) :=
  {| db := []; next_oid := 1; console := [] |}.

Definition paris_body : value :=
  VObject [("city", VString "Paris"); ("temperature", VNumber (num_of_Z 18))].

Definition paris_request : request := {| body := paris_body; params_id := "" |}.

Definition paris_doc : document :=
  {| _id := 1;
     paths := [("city", Val (BString "Paris")); ("country", Unset);
               ("temperature", Val (BNumber (num_of_Z 18)));
               ("description", Unset);
               ("recordedAt", Val (BDate 1700000000000))] |}.

Definition world_paris : world (list document) :=
  {| db := [paris_doc]; next_oid := 2; console := [] |}.

(** A body with a temperature and no city. *)
Definition no_city_request : request :=
  {| body := VObject [("temperature", VNumber (num_of_Z 18))]; params_id := "" |}.

(** A body whose temperature is [null]. *)
Definition null_temperature_request : request :=
  {| body := VObject [("city", VString "Paris"); ("temperature", VNull)];
     params_id := "" |}.

(** The request [GET /api/weather/000000000000000000000001]. *)
Definition by_id_request : request :=
  {| body := VUndefined; params_id := "000000000000000000000001" |}.

Example post_paris_run :
  post_weather env_ok paris_request res_new world_empty =
    (Ok {| statusCode := 201; sent := Some (JsonDoc paris_doc) |}, world_paris).
Proof. vm_compute. reflexivity. Qed.

Example post_no_city_run :
  post_weather env_ok no_city_request res_new world_empty =
    (Ok {| statusCode := 400;
           sent := Some (JsonError "city and temperature are required") |},
     world_empty).
Proof. vm_compute. reflexivity. Qed.

Example get_paris_run :
  get_weather_by_id env_ok by_id_request res_new world_paris =
    (Ok {| statusCode := 200; sent := Some (JsonDoc paris_doc) |}, world_paris).
Proof. vm_compute. reflexivity. Qed.

Example delete_paris_run :
  delete_weather_by_id env_ok by_id_request res_new world_paris =
    (Ok {| statusCode := 200; sent := Some (JsonDeleted 1) |},
     {| db := []; next_oid := 2; console := [] |}).
Proof. vm_compute. reflexivity. Qed.

Example list_paris_run :
  get_weather_list env_ok by_id_request res_new world_paris =
    (Ok {| statusCode := 200; sent := Some (JsonList [paris_doc]) |}, world_paris).
Proof. vm_compute. reflexivity. Qed.

(** A record of city "Oslo" stored at time [i] under identifier [i]. *)
Definition numbered_doc (i : N) : document :=
  {| _id := i;
     paths := [("city", Val (BString "Oslo")); ("country", Unset);
               ("temperature", Val (BNumber (num_of_Z 3)));
               ("description", Unset);
               ("recordedAt", Val (BDate (Z.of_N i)))] |}.

(** A collection of 101 records, one more than the list query returns. *)
Definition world_many : world (list document) :=
  {| db := numbered_doc ∘ N.of_nat <$> seq 1 101; next_oid := 102; console := [] |}.

(** The list query on it returns the newest hundred, newest first. *)
Example list_many_run :
  get_weather_list env_ok by_id_request res_new world_many =
    (Ok {| statusCode := 200;
           sent := Some (JsonList (numbered_doc ∘ N.of_nat <$> reverse (seq 2 100))) |},
     world_many).
Proof. vm_compute. reflexivity. Qed.
