(* ===== verification/PostProps.v ===== *)
(** Properties of the handler of [POST /api/weather] (src/index.js, lines
    30-44): the presence check and its 400, the creation of a record and its
    201, the failures that end in 500, and what each leaves in the store. *)

From S2P Require Import Prelude JsValue ObjectId Schema Store Model Handlers Examples.

Set Warnings "-clear-no-such-hyp".

(** The object literal [{ city, country, temperature, description }] the
    handler passes to the constructor (line 37), read off the request body. *)
Definition record_init (b : value) : value :=
  VObject [("city", get_prop "city" b); ("country", get_prop "country" b);
           ("temperature", get_prop "temperature" b);
           ("description", get_prop "description" b)].

(** The presence check of line 33: [!city || temperature === undefined]. *)
Definition missing_required (b : value) : bool :=
  negb (truthy (get_prop "city" b)) || is_undefined (get_prop "temperature" b).

(** A property the schema does not require: absent, or a string. *)
Definition optional_string (v : value) : bool :=
  match v with VUndefined | VString _ => true | _ => false end.

(** What the model stores for such a property. *)
Definition stored_string (v : value) : path_value :=
  match v with VString s => Val (BString s) | _ => Unset end.

(** The record created for a city [s], a temperature [n] and the optional
    [country] and [description] of a body, at time [t] under identifier [id]. *)
Definition created_record (id : oid) (t : Z) (s : string) (n : number)
    (country description : value) : document :=
  {| _id := id;
     paths := [("city", Val (BString s)); ("country", stored_string country);
               ("temperature", Val (BNumber n));
               ("description", stored_string description);
               ("recordedAt", Val (BDate t))] |}.

Section PostProps.
Context {C : Type} `{StoreLaws C} `{CasterLaws}.
Implicit Types (w : world C) (e : env) (req : request) (res : response).

(** The handler, one case per path through its body. *)
Lemma post_weather_cases e req res w :
  post_weather e req res w =
    if is_nullish (body req) then (Ok (res_500 res), logged TypeError w)
    else if missing_required (body req) then (Ok (res_400_required res), w)
    else
      let d := Weather (next_oid w) (now e) (record_init (body req)) in
      match save weatherSchema e d (bump w) with
      | (Ok saved, w') => (Ok (res_201 saved res), w')
      | (Throw err, w') => (Ok (res_500 res), logged err w')
      end.
Proof.
  unfold post_weather, try_catch, bind, lift, destructure4, require_object_coercible.
  destruct (is_nullish (body req)); [done|].
  unfold missing_required. simpl.
  destruct (negb _ || _); [done|].
  fold (record_init (body req)) (bump w).
  by destruct (save _ _ _ _) as [[]].
Qed.

(** Split on the four paths of the handler. *)
(** A response of [POST /api/weather] that carries a document: the
    document is the one the handler constructed from the body, it passed
    validation, and the database inserted it. *)
Lemma post_weather_JsonDoc e req res w r w' d :
  post_weather e req res w = (Ok r, w') -> sent r = Some (JsonDoc d) ->
  d = Weather (next_oid w) (now e) (record_init (body req)) /\
  validate weatherSchema d = [] /\ r = res_201 d res /\
  exists c', insertOne d (db w) = Some c' /\ w' = set_db c' (bump w).
Proof.
  rewrite post_weather_cases.
  destruct (is_nullish _); [by intros [= <- _]|].
  destruct (missing_required _); [by intros [= <- _]|]. cbv zeta.
  destruct (save _ _ _ _) as [[saved|err] w1] eqn:Hsave; intros [= <- <-]; [|done].
  apply save_Ok_inv in Hsave as (-> & Hv & _ & c' & Hi & ->).
  intros [= <-]. eauto 6.
Qed.

Ltac post_cases :=
  rewrite post_weather_cases; cbv zeta;
  destruct (is_nullish _) eqn:Hnull;
    [|destruct (missing_required _) eqn:Hmiss;
      [|destruct (save _ _ _ _) as [[saved|err] w1] eqn:Hsave]].

Lemma missing_required_true b :
  missing_required b = true <->
  truthy (get_prop "city" b) = false \/ get_prop "temperature" b = VUndefined.
Proof.
  unfold missing_required.
  rewrite orb_true_iff, negb_true_iff, is_undefined_true. done.
Qed.

(** C2: a request whose body lacks a truthy [city], or has no
    [temperature], is answered 400 "city and temperature are required", and
    the handler leaves the whole world (store, identifier generator,
    console) untouched. *)
Theorem post_weather_missing_400 e req res w :
  is_nullish (body req) = false ->
  truthy (get_prop "city" (body req)) = false \/
    get_prop "temperature" (body req) = VUndefined ->
  post_weather e req res w =
    (Ok (json (JsonError "city and temperature are required") (status 400 res)), w).
Proof.
  intros Hb Hm%missing_required_true. by rewrite post_weather_cases, Hb, Hm.
Qed.

(** When the body passes the presence check, the constructed document
    passes validation, the database call does not fail and the fresh
    identifier is not in use, the handler answers 201 with that document,
    and the store afterwards holds the document and what it held before. *)
Lemma post_weather_saved e req res w :
  store_inv (db w) -> next_oid w ∉ ids (db w) -> fault e = false ->
  is_nullish (body req) = false -> missing_required (body req) = false ->
  validate weatherSchema
    (Weather (next_oid w) (now e) (record_init (body req))) = [] ->
  exists c',
    post_weather e req res w =
      (Ok (json (JsonDoc (Weather (next_oid w) (now e) (record_init (body req))))
              (status 201 res)),
       set_db c' (bump w)) /\
    store_inv c' /\
    contents c' ≡ₚ
      Weather (next_oid w) (now e) (record_init (body req)) :: contents (db w).
Proof.
  intros Hinv Hfresh He Hb Hm Hv.
  set (d := Weather _ _ _) in *.
  destruct (insertOne d (db w)) as [c'|] eqn:Hi.
  - exists c'. rewrite post_weather_cases, Hb, Hm. simpl. fold d.
    erewrite save_ok by done. split; [done|]. by eapply insertOne_Some.
  - apply (insertOne_None _ _ Hinv) in Hi. destruct Hfresh. exact Hi.
Qed.

(** Whatever the request, the handler returns normally with a response
    that has been sent, and its status is 201, 400 or 500. *)
Theorem post_weather_total e req res w :
  exists r w', post_weather e req res w = (Ok r, w') /\
    is_Some (sent r) /\ statusCode r ∈ [201; 400; 500].
Proof.
  post_cases; eexists _, _; (split; [reflexivity|]); simpl;
    (split; [by eexists|]); rewrite !elem_of_cons; auto.
Qed.

(** C12: a response other than 201 means nothing was persisted: the
    collection is the one the request found. *)
Theorem post_weather_not_created_unchanged e req res w r w' :
  post_weather e req res w = (Ok r, w') -> statusCode r <> 201 -> db w' = db w.
Proof.
  post_cases; intros [= <- <-]; simpl; try done.
  by apply save_throw in Hsave as ->.
Qed.

Lemma get_prop_nullish k b : is_nullish b = true -> get_prop k b = VUndefined.
Proof. by destruct b. Qed.

Lemma truthy_city_not_nullish b :
  truthy (get_prop "city" b) = true -> is_nullish b = false.
Proof.
  destruct (is_nullish b) eqn:Hb; [|done]. by rewrite get_prop_nullish.
Qed.

(** The paths of the document the handler constructs, one by one. *)
Lemma Weather_paths id t b :
  paths (Weather id t (record_init b)) =
    [("city", init_value t {| type := SString; required := true; default_value := NoDefault |}
                (get_prop "city" b));
     ("country", init_value t {| type := SString; required := false; default_value := NoDefault |}
                   (get_prop "country" b));
     ("temperature", init_value t {| type := SNumber; required := true; default_value := NoDefault |}
                       (get_prop "temperature" b));
     ("description", init_value t {| type := SString; required := false; default_value := NoDefault |}
                       (get_prop "description" b));
     ("recordedAt", Val (BDate t))].
Proof. reflexivity. Qed.

Lemma Weather_well_typed id t obj : well_typed weatherSchema (Weather id t obj) = true.
Proof.
  apply new_Model_well_typed; [done|].
  apply (bool_decide_unpack _). vm_compute. exact I.
Qed.

(** C24: the time of a created record is the server's clock at the request,
    and its identifier the one the generator gave: whatever the body holds
    (a [recordedAt] or [_id] property included), the client sets neither. *)
Theorem post_weather_recordedAt e req res w r w' d :
  post_weather e req res w = (Ok r, w') -> sent r = Some (JsonDoc d) ->
  recordedAt d = Some (now e) /\ _id d = next_oid w.
Proof.
  post_cases; intros [= <- <-]; simpl; try done.
  apply save_Ok_inv in Hsave as (-> & _). by intros [= <-].
Qed.

(** C22: the status is 400 exactly when the body is an object (or any value
    but [undefined] and [null]) that fails the presence check. *)
Theorem post_weather_400_iff e req res w r w' :
  post_weather e req res w = (Ok r, w') ->
  (statusCode r = 400 <->
   is_nullish (body req) = false /\ missing_required (body req) = true).
Proof. post_cases; intros [= <- <-]; simpl; naive_solver. Qed.

(** C20: a body whose temperature is [null] passes the presence check of the
    handler ([null !== undefined]) and is rejected by the model's [required]
    validator instead: the answer is 500 "server error", a
    [ValidationError] naming [temperature] is logged, and nothing is stored. *)
Theorem post_weather_null_temperature_500 e req res w :
  truthy (get_prop "city" (body req)) = true ->
  get_prop "temperature" (body req) = VNull ->
  exists failed,
    "temperature" ∈ failed /\
    post_weather e req res w =
      (Ok (json (JsonError "server error") (status 500 res)),
       logged (ValidationError failed) (bump w)).
Proof.
  intros Hc Ht. set (d := Weather (next_oid w) (now e) (record_init (body req))).
  assert ("temperature" ∈ validate weatherSchema d) as Hin.
  { eapply validate_elem_of; [do 2 right; left|].
    unfold doc_get. subst d. rewrite Weather_paths. simpl.
    rewrite Ht. unfold init_value, cast_path. simpl. by rewrite cast_null. }
  exists (validate weatherSchema d). split; [done|].
  rewrite post_weather_cases, (truthy_city_not_nullish _ Hc).
  unfold missing_required. rewrite Hc, Ht. simpl. fold d.
  rewrite save_invalid; [done|]. intros Hnil. rewrite Hnil in Hin. by apply elem_of_nil in Hin.
Qed.

(** C23: the document sent with a 201 meets the data model (a city that is
    a non-empty string, a numeric temperature), holds values of the schema's
    types only, and is in the collection afterwards. *)
Theorem post_weather_created_valid e req res w r w' d :
  store_inv (db w) ->
  post_weather e req res w = (Ok r, w') -> sent r = Some (JsonDoc d) ->
  valid_record d /\ well_typed weatherSchema d = true /\ d ∈ contents (db w').
Proof.
  intros Hinv. post_cases; intros [= <- <-]; simpl; try done.
  apply save_Ok_inv in Hsave as (-> & Hv & _ & c' & Hi & ->). intros [= <-].
  pose proof (Weather_well_typed (next_oid w) (now e) (record_init (body req))).
  split_and!; [by apply validate_valid_record|done|].
  apply insertOne_Some in Hi as [_ ->]; [left|done].
Qed.

Lemma init_value_optional_string t v :
  optional_string v = true ->
  init_value t {| type := SString; required := false; default_value := NoDefault |} v
    = stored_string v.
Proof.
  destruct v; try done. intros _. unfold init_value, cast_path. simpl.
  by rewrite cast_string.
Qed.

(** The document constructed from a body with a string city, a numeric
    temperature and optional string country and description. *)
Lemma Weather_created_record id t b s n :
  get_prop "city" b = VString s -> get_prop "temperature" b = VNumber n ->
  is_nan n = false ->
  optional_string (get_prop "country" b) = true ->
  optional_string (get_prop "description" b) = true ->
  Weather id t (record_init b) =
    created_record id t s n (get_prop "country" b) (get_prop "description" b).
Proof.
  intros Hc Ht Hn Hco Hde. unfold created_record.
  rewrite <-(init_value_optional_string t _ Hco), <-(init_value_optional_string t _ Hde).
  transitivity {| _id := id; paths := paths (Weather id t (record_init b)) |}; [done|].
  rewrite Weather_paths, Hc, Ht. unfold init_value at 1 3, cast_path. simpl.
  by rewrite cast_string, cast_number.
Qed.

Lemma validate_created_record id t s n country description :
  s <> "" -> validate weatherSchema (created_record id t s n country description) = [].
Proof.
  intros Hs. apply validate_nil. unfold weatherSchema, created_record, doc_get.
  repeat (apply Forall_cons; split); simpl; try done.
  - by destruct (String.eqb_spec s "").
  - by destruct country.
  - by destruct description.
Qed.

(** C1: the specification's example.  A body with a non-empty string
    [city] and a numeric [temperature] (optionally a string [country] and
    [description]) is answered 201 with the record holding exactly these
    values, the generated identifier and the server's time; the store then
    holds that record and what it held before, and nothing is logged. *)
Theorem post_weather_created e req res w s n :
  store_inv (db w) -> next_oid w ∉ ids (db w) -> fault e = false ->
  get_prop "city" (body req) = VString s -> s <> "" ->
  get_prop "temperature" (body req) = VNumber n -> is_nan n = false ->
  optional_string (get_prop "country" (body req)) = true ->
  optional_string (get_prop "description" (body req)) = true ->
  exists c',
    post_weather e req res w =
      (Ok (json (JsonDoc (created_record (next_oid w) (now e) s n
                            (get_prop "country" (body req))
                            (get_prop "description" (body req))))
              (status 201 res)),
       set_db c' (bump w)) /\
    store_inv c' /\
    contents c' ≡ₚ
      created_record (next_oid w) (now e) s n (get_prop "country" (body req))
        (get_prop "description" (body req)) :: contents (db w).
Proof.
  intros Hinv Hfresh He Hc Hs Ht Hn Hco Hde.
  rewrite <-(Weather_created_record _ _ _ _ _ Hc Ht Hn Hco Hde).
  apply post_weather_saved; try done.
  - apply truthy_city_not_nullish. rewrite Hc. by apply truthy_string.
  - unfold missing_required. rewrite Hc, Ht. simpl.
    by destruct (String.eqb_spec s "").
  - rewrite (Weather_created_record _ _ _ _ _ Hc Ht Hn Hco Hde).
    by apply validate_created_record.
Qed.

End PostProps.

(** ** Witnesses *)

Lemma post_weather_missing_400_witness :
  post_weather env_ok no_city_request res_new world_empty =
    (Ok (json (JsonError "city and temperature are required") (status 400 res_new)),
     world_empty).
Proof. apply post_weather_missing_400; [reflexivity|left; reflexivity]. Defined.

Lemma post_weather_created_witness :
  exists c',
    post_weather env_ok paris_request res_new world_empty =
      (Ok (json (JsonDoc (created_record 1 (now env_ok) "Paris" (num_of_Z 18)
                            VUndefined VUndefined))
              (status 201 res_new)),
       set_db c' (bump world_empty)) /\
    store_inv c' /\
    contents c' ≡ₚ
      created_record 1 (now env_ok) "Paris" (num_of_Z 18) VUndefined VUndefined :: [].
Proof.
  refine (post_weather_created env_ok paris_request res_new world_empty
            "Paris" (num_of_Z 18) _ _ _ _ _ _ _ _ _);
    try reflexivity; [constructor|apply not_elem_of_nil|done].
Defined.

Lemma post_weather_not_created_unchanged_witness :
  db (logged (ValidationError ["temperature"]) (bump world_empty)) = db world_empty.
Proof.
  refine (post_weather_not_created_unchanged env_ok null_temperature_request res_new
            world_empty (res_500 res_new)
            (logged (ValidationError ["temperature"]) (bump world_empty)) _ _).
  - vm_compute. reflexivity.
  - simpl. lia.
Defined.

Lemma post_weather_recordedAt_witness :
  recordedAt paris_doc = Some (now env_ok) /\ _id paris_doc = next_oid world_empty.
Proof.
  refine (post_weather_recordedAt env_ok paris_request res_new world_empty
            (res_201 paris_doc res_new) world_paris paris_doc _ eq_refl).
  vm_compute. reflexivity.
Defined.

Lemma post_weather_400_iff_witness :
  statusCode (res_400_required res_new) = 400 <->
  is_nullish (body no_city_request) = false /\
  missing_required (body no_city_request) = true.
Proof.
  refine (post_weather_400_iff env_ok no_city_request res_new world_empty
            (res_400_required res_new) world_empty _).
  vm_compute. reflexivity.
Defined.

Lemma post_weather_null_temperature_500_witness :
  exists failed,
    "temperature" ∈ failed /\
    post_weather env_ok null_temperature_request res_new world_empty =
      (Ok (json (JsonError "server error") (status 500 res_new)),
       logged (ValidationError failed) (bump world_empty)).
Proof.
  exact (post_weather_null_temperature_500 env_ok null_temperature_request res_new
           world_empty eq_refl eq_refl).
Defined.

Lemma post_weather_created_valid_witness :
  valid_record paris_doc /\ well_typed weatherSchema paris_doc = true /\
  paris_doc ∈ contents (db world_paris).
Proof.
  refine (post_weather_created_valid env_ok paris_request res_new world_empty
            (res_201 paris_doc res_new) world_paris paris_doc _ _ eq_refl).
  - constructor.
  - vm_compute. reflexivity.
Defined.
