(* ===== verification/QueryProps.v ===== *)
(** Properties of the read and delete handlers of src/index.js:
    [GET /api/health], [GET /api/weather], [GET /api/weather/:id],
    [DELETE /api/weather/:id] and [DELETE /api/weather]. *)

From S2P Require Import Prelude JsValue ObjectId Schema Store Model Handlers Examples.

Set Warnings "-clear-no-such-hyp".

Section QueryProps.
Context {C : Type} `{StoreLaws C} `{CasterLaws}.
Implicit Types (w : world C) (e : env) (req : request) (res : response).

Lemma set_db_same w : set_db (db w) w = w.
Proof. by destruct w. Qed.

(** ** One equation per handler *)

Lemma get_weather_list_cases e req res w :
  get_weather_list e req res w =
    if fault e then (Ok (res_500 res), logged StoreError w)
    else (Ok (json (JsonList (findSorted list_limit (db w))) res), w).
Proof.
  unfold get_weather_list, find_sort_limit, try_catch, bind, db_call.
  destruct (fault e); simpl; [done|]. by rewrite set_db_same.
Qed.

Lemma get_weather_by_id_cases e req res w :
  get_weather_by_id e req res w =
    match castObjectId (params_id req) with
    | None => (Ok (res_400_invalid_id res), logged (CastError "_id") w)
    | Some i =>
        if fault e then (Ok (res_400_invalid_id res), logged StoreError w)
        else match findOne i (db w) with
             | Some d => (Ok (json (JsonDoc d) res), w)
             | None => (Ok (res_404 res), w)
             end
    end.
Proof.
  unfold get_weather_by_id, findById, try_catch, bind, db_call.
  destruct (castObjectId _); [|done].
  destruct (fault e); simpl; [done|]. rewrite set_db_same. by destruct (findOne _ _).
Qed.

Lemma delete_weather_by_id_cases e req res w :
  delete_weather_by_id e req res w =
    match castObjectId (params_id req) with
    | None => (Ok (res_400_invalid_id res), logged (CastError "_id") w)
    | Some i =>
        if fault e then (Ok (res_400_invalid_id res), logged StoreError w)
        else match (findOneAndDelete i (db w)).1 with
             | Some d => (Ok (json (JsonDeleted (_id d)) res),
                          set_db (findOneAndDelete i (db w)).2 w)
             | None => (Ok (res_404 res), set_db (findOneAndDelete i (db w)).2 w)
             end
    end.
Proof.
  unfold delete_weather_by_id, findByIdAndDelete, try_catch, bind, db_call.
  destruct (castObjectId _); [|done].
  destruct (fault e); simpl; [done|]. by destruct (findOneAndDelete _ _) as [[]].
Qed.

Lemma delete_weather_all_cases e req res w :
  delete_weather_all e req res w =
    if fault e then (Ok (res_500 res), logged StoreError w)
    else (Ok (json JsonDeletedAll res), set_db (deleteMany (db w)) w).
Proof.
  unfold delete_weather_all, deleteMany_all, try_catch, bind, db_call.
  by destruct (fault e).
Qed.

(** ** [GET /api/weather] *)

(** C17: when the database answers, the list handler answers 200 with a
    list ordered by descending [recordedAt] whose documents are documents of
    the collection (each at most as often as the collection holds it), and
    changes nothing. *)
Theorem get_weather_list_ok e req res w :
  fault e = false ->
  exists l,
    get_weather_list e req res w = (Ok (json (JsonList l) res), w) /\
    Sorted newer l /\ l ⊆+ contents (db w).
Proof.
  intros He. exists (findSorted list_limit (db w)).
  rewrite get_weather_list_cases, He.
  split_and!; [done|apply findSorted_Sorted|apply findSorted_submseteq].
Qed.

(** C6: the list a response carries has [min 100 n] documents for a
    collection of [n]: never more than the limit, and all of them below it. *)
Theorem get_weather_list_limit e req res w r w' l :
  get_weather_list e req res w = (Ok r, w') -> sent r = Some (JsonList l) ->
  length l = 100 `min` length (contents (db w)).
Proof.
  rewrite get_weather_list_cases. destruct (fault e); intros [= <- <-] [= <-].
  apply findSorted_length.
Qed.

(** C18: the list holds the newest records: a document of the collection
    that is left out is no newer than any document returned. *)
Theorem get_weather_list_newest e req res w r w' l x y :
  get_weather_list e req res w = (Ok r, w') -> sent r = Some (JsonList l) ->
  x ∈ l -> y ∈ contents (db w) -> y ∉ l -> newer x y.
Proof.
  rewrite get_weather_list_cases. destruct (fault e); intros [= <- <-] [= <-].
  apply findSorted_newest.
Qed.

(** C32: when the database call fails, the list handler answers 500
    "server error", logs the error and changes nothing else. *)
Theorem get_weather_list_fault e req res w :
  fault e = true ->
  get_weather_list e req res w =
    (Ok (json (JsonError "server error") (status 500 res)), logged StoreError w).
Proof. intros He. by rewrite get_weather_list_cases, He. Qed.

(** ** [GET /api/weather/:id] *)

(** C25: for an identifier that denotes a stored record, the handler
    answers 200 with that record and changes nothing. *)
Theorem get_weather_by_id_found e req res w i d :
  store_inv (db w) -> fault e = false ->
  castObjectId (params_id req) = Some i -> d ∈ contents (db w) -> _id d = i ->
  get_weather_by_id e req res w = (Ok (json (JsonDoc d) res), w).
Proof.
  intros Hinv He Hi Hd Hid. rewrite get_weather_by_id_cases, Hi, He.
  by rewrite (proj2 (findOne_Some i (db w) d Hinv)).
Qed.

(** C11: for a well-formed identifier that no record has, the handler
    answers 404 "Not found" and changes nothing. *)
Theorem get_weather_by_id_not_found e req res w i :
  store_inv (db w) -> fault e = false ->
  castObjectId (params_id req) = Some i -> i ∉ ids (db w) ->
  get_weather_by_id e req res w =
    (Ok (json (JsonError "Not found") (status 404 res)), w).
Proof.
  intros Hinv He Hi Hni. rewrite get_weather_by_id_cases, Hi, He.
  by rewrite (proj2 (findOne_None i (db w) Hinv)).
Qed.

(** C26: for a string that is no identifier, the handler answers 400
    "Invalid id" without querying the database, and logs the cast error. *)
Theorem get_weather_by_id_invalid e req res w :
  castObjectId (params_id req) = None ->
  get_weather_by_id e req res w =
    (Ok (json (JsonError "Invalid id") (status 400 res)),
     logged (CastError "_id") w).
Proof. intros Hi. by rewrite get_weather_by_id_cases, Hi. Qed.

(** C21: a failure of the database during a look-up by a well-formed
    identifier is answered 400 "Invalid id" as well: the handler's [catch]
    does not tell a failing store from a malformed identifier. *)
Theorem get_weather_by_id_store_failure e req res w i :
  castObjectId (params_id req) = Some i -> fault e = true ->
  get_weather_by_id e req res w =
    (Ok (json (JsonError "Invalid id") (status 400 res)), logged StoreError w).
Proof. intros Hi He. by rewrite get_weather_by_id_cases, Hi, He. Qed.

(** ** [DELETE /api/weather/:id] *)

(** C27: deleting by the identifier of a stored record answers 200
    [{ deleted: true, id }]; afterwards the collection holds exactly the
    records it held under other identifiers. *)
Theorem delete_weather_by_id_found e req res w i d :
  store_inv (db w) -> fault e = false ->
  castObjectId (params_id req) = Some i -> d ∈ contents (db w) -> _id d = i ->
  exists c',
    delete_weather_by_id e req res w = (Ok (json (JsonDeleted i) res), set_db c' w) /\
    store_inv c' /\
    contents c' ≡ₚ filter (fun d' => _id d' <> i) (contents (db w)).
Proof.
  intros Hinv He Hi Hd Hid. exists (findOneAndDelete i (db w)).2.
  rewrite delete_weather_by_id_cases, Hi, He, findOneAndDelete_found.
  rewrite (proj2 (findOne_Some i (db w) d Hinv)), Hid by done.
  split; [done|]. by apply findOneAndDelete_rest.
Qed.

(** C28: deleting by a well-formed identifier that no record has answers
    404 "Not found" and the collection keeps its records. *)
Theorem delete_weather_by_id_not_found e req res w i :
  store_inv (db w) -> fault e = false ->
  castObjectId (params_id req) = Some i -> i ∉ ids (db w) ->
  exists c',
    delete_weather_by_id e req res w =
      (Ok (json (JsonError "Not found") (status 404 res)), set_db c' w) /\
    store_inv c' /\ contents c' ≡ₚ contents (db w).
Proof.
  intros Hinv He Hi Hni. exists (findOneAndDelete i (db w)).2.
  rewrite delete_weather_by_id_cases, Hi, He, findOneAndDelete_found.
  rewrite (proj2 (findOne_None i (db w) Hinv)) by done.
  split_and!; [done|by apply findOneAndDelete_rest|by apply findOneAndDelete_missing].
Qed.

(** C29: a delete with a malformed identifier, or during which the
    database fails, is answered 400 "Invalid id", logs the error and
    deletes nothing. *)
Theorem delete_weather_by_id_failure e req res w :
  castObjectId (params_id req) = None \/ fault e = true ->
  exists err,
    delete_weather_by_id e req res w =
      (Ok (json (JsonError "Invalid id") (status 400 res)), logged err w).
Proof.
  rewrite delete_weather_by_id_cases.
  intros [->| ->]; [by eexists|]. destruct (castObjectId _); by eexists.
Qed.

(** ** [DELETE /api/weather] *)

(** C30: when the database answers, delete-all answers 200
    [{ deletedAll: true }] and leaves an empty collection. *)
Theorem delete_weather_all_ok e req res w :
  fault e = false ->
  exists c',
    delete_weather_all e req res w = (Ok (json JsonDeletedAll res), set_db c' w) /\
    store_inv c' /\ contents c' = [].
Proof.
  intros He. exists (deleteMany (db w)). rewrite delete_weather_all_cases, He.
  split_and!; [done|apply deleteMany_inv|apply deleteMany_contents].
Qed.

(** C31: when the database call fails, delete-all answers 500 "server
    error", logs the error and deletes nothing. *)
Theorem delete_weather_all_fault e req res w :
  fault e = true ->
  delete_weather_all e req res w =
    (Ok (json (JsonError "server error") (status 500 res)), logged StoreError w).
Proof. intros He. by rewrite delete_weather_all_cases, He. Qed.

(** ** Reads *)

(** C33: the three read handlers (health, list, look-up by id) never change
    the collection or the identifier generator, whatever the request and
    whether or not the database fails. *)
Theorem reads_do_not_write e req res w r w' :
  get_health e req res w = (Ok r, w') \/
  get_weather_list e req res w = (Ok r, w') \/
  get_weather_by_id e req res w = (Ok r, w') ->
  db w' = db w /\ next_oid w' = next_oid w.
Proof.
  rewrite get_weather_list_cases, get_weather_by_id_cases. unfold get_health, ret.
  intros [?|[?|?]]; repeat case_match; by simplify_eq.
Qed.

End QueryProps.

(** ** Witnesses *)

Lemma get_weather_list_ok_witness :
  exists l,
    get_weather_list env_ok by_id_request res_new world_paris =
      (Ok (json (JsonList l) res_new), world_paris) /\
    Sorted newer l /\ l ⊆+ contents (db world_paris).
Proof. exact (get_weather_list_ok env_ok by_id_request res_new world_paris eq_refl). Defined.

Lemma get_weather_list_limit_witness :
  length (numbered_doc ∘ N.of_nat <$> reverse (seq 2 100)) =
    100 `min` length (contents (db world_many)).
Proof.
  exact (get_weather_list_limit env_ok by_id_request res_new world_many _ _ _
           list_many_run eq_refl).
Defined.

Lemma get_weather_list_newest_witness : newer (numbered_doc 101) (numbered_doc 1).
Proof.
  refine (get_weather_list_newest env_ok by_id_request res_new world_many _ _ _
            (numbered_doc 101) (numbered_doc 1) list_many_run eq_refl _ _ _);
    apply (bool_decide_unpack _); vm_compute; exact I.
Defined.

Lemma get_weather_list_fault_witness :
  get_weather_list env_down by_id_request res_new world_paris =
    (Ok (json (JsonError "server error") (status 500 res_new)),
     logged StoreError world_paris).
Proof. exact (get_weather_list_fault env_down by_id_request res_new world_paris eq_refl). Defined.

Lemma paris_store_inv : store_inv (db world_paris).
Proof. apply (bool_decide_unpack _). vm_compute. exact I. Defined.

Lemma get_weather_by_id_found_witness :
  get_weather_by_id env_ok by_id_request res_new world_paris =
    (Ok (json (JsonDoc paris_doc) res_new), world_paris).
Proof.
  refine (get_weather_by_id_found env_ok by_id_request res_new world_paris 1%N
            paris_doc paris_store_inv eq_refl _ _ eq_refl);
    [by vm_compute|by left].
Defined.

Lemma get_weather_by_id_not_found_witness :
  get_weather_by_id env_ok by_id_request res_new world_empty =
    (Ok (json (JsonError "Not found") (status 404 res_new)), world_empty).
Proof.
  refine (get_weather_by_id_not_found env_ok by_id_request res_new world_empty 1%N
            _ eq_refl _ _); [constructor|by vm_compute|apply not_elem_of_nil].
Defined.

(** The request [GET /api/weather/abc]. *)
Definition bad_id_request : request := {| body := VUndefined; params_id := "abc" |}.

Lemma get_weather_by_id_invalid_witness :
  get_weather_by_id env_ok bad_id_request res_new world_paris =
    (Ok (json (JsonError "Invalid id") (status 400 res_new)),
     logged (CastError "_id") world_paris).
Proof. exact (get_weather_by_id_invalid env_ok bad_id_request res_new world_paris eq_refl). Defined.

Lemma get_weather_by_id_store_failure_witness :
  get_weather_by_id env_down by_id_request res_new world_paris =
    (Ok (json (JsonError "Invalid id") (status 400 res_new)),
     logged StoreError world_paris).
Proof.
  refine (get_weather_by_id_store_failure env_down by_id_request res_new
            world_paris 1%N _ eq_refl). by vm_compute.
Defined.

Lemma delete_weather_by_id_found_witness :
  exists c',
    delete_weather_by_id env_ok by_id_request res_new world_paris =
      (Ok (json (JsonDeleted 1) res_new), set_db c' world_paris) /\
    store_inv c' /\
    contents c' ≡ₚ filter (fun d' => _id d' <> 1%N) (contents (db world_paris)).
Proof.
  refine (delete_weather_by_id_found env_ok by_id_request res_new world_paris 1%N
            paris_doc paris_store_inv eq_refl _ _ eq_refl);
    [by vm_compute|by left].
Defined.

Lemma delete_weather_by_id_not_found_witness :
  exists c',
    delete_weather_by_id env_ok by_id_request res_new world_empty =
      (Ok (json (JsonError "Not found") (status 404 res_new)), set_db c' world_empty) /\
    store_inv c' /\ contents c' ≡ₚ contents (db world_empty).
Proof.
  refine (delete_weather_by_id_not_found env_ok by_id_request res_new world_empty
            1%N _ eq_refl _ _); [constructor|by vm_compute|apply not_elem_of_nil].
Defined.

Lemma delete_weather_by_id_failure_witness :
  exists err,
    delete_weather_by_id env_ok bad_id_request res_new world_paris =
      (Ok (json (JsonError "Invalid id") (status 400 res_new)), logged err world_paris).
Proof.
  refine (delete_weather_by_id_failure env_ok bad_id_request res_new world_paris _).
  left. by vm_compute.
Defined.

Lemma delete_weather_all_ok_witness :
  exists c',
    delete_weather_all env_ok by_id_request res_new world_paris =
      (Ok (json JsonDeletedAll res_new), set_db c' world_paris) /\
    store_inv c' /\ contents c' = [].
Proof. exact (delete_weather_all_ok env_ok by_id_request res_new world_paris eq_refl). Defined.

Lemma delete_weather_all_fault_witness :
  delete_weather_all env_down by_id_request res_new world_paris =
    (Ok (json (JsonError "server error") (status 500 res_new)),
     logged StoreError world_paris).
Proof. exact (delete_weather_all_fault env_down by_id_request res_new world_paris eq_refl). Defined.

Lemma reads_do_not_write_witness :
  db (logged StoreError world_paris) = db world_paris /\
  next_oid (logged StoreError world_paris) = next_oid world_paris.
Proof.
  refine (reads_do_not_write env_down by_id_request res_new world_paris
            (res_500 res_new) (logged StoreError world_paris) _).
  right; left. vm_compute. reflexivity.
Defined.
