(* ===== verification/RouterProps.v ===== *)
(** Properties of the route table and of the application of src/index.js:
    the table-driven router agrees with a direct classification of requests
    into the six endpoints, no request matches two routes, and the
    application answers every request. *)

From Stdlib Require Import Ascii.
From S2P Require Import Prelude JsValue ObjectId Schema Store Model Handlers Router Examples.
From S2P Require Import PostProps QueryProps.

Set Warnings "-clear-no-such-hyp".

(** ** A reference classification of requests *)

(** The six endpoints of the service (specification, section 6). *)
Inductive endpoint : Type :=
| EHealth
| ECreate
| EList
| EGet (id : string)
| EDelete (id : string)
| EDeleteAll.

(** The endpoint of the collection path [/api/weather], by method. *)
Definition collection_endpoint (m : Method) : option endpoint :=
  match m with
  | POST => Some ECreate
  | GET | HEAD => Some EList
  | DELETE => Some EDeleteAll
  | _ => None
  end.

(** The endpoint of a record path [/api/weather/<id>], by method. *)
Definition record_endpoint (m : Method) (id : string) : option endpoint :=
  match m with
  | GET | HEAD => Some (EGet id)
  | DELETE => Some (EDelete id)
  | _ => None
  end.

Definition health_endpoint (m : Method) : option endpoint :=
  match m with
  | GET | HEAD => Some EHealth
  | _ => None
  end.

(** The endpoint a method and the segments of a path address, if any. *)
Definition classify (m : Method) (segs : list string) : option endpoint :=
  match segs with
  | [root; api; name] | [root; api; name; EmptyString] =>
      if seg_eq "" root && seg_eq "api" api then
        if seg_eq "health" name then health_endpoint m
        else if seg_eq "weather" name then collection_endpoint m
        else None
      else None
  | [root; api; name; id] | [root; api; name; id; EmptyString] =>
      if String.eqb id "" then None
      else if seg_eq "" root && seg_eq "api" api && seg_eq "weather" name
      then record_endpoint m id
      else None
  | _ => None
  end.

(** The classification accepts four methods. *)
Lemma classify_method m segs ep :
  classify m segs = Some ep -> m ∈ [GET; HEAD; POST; DELETE].
Proof.
  unfold classify, health_endpoint, collection_endpoint, record_endpoint.
  repeat case_match; try done; intros _; set_solver.
Qed.

(** A string without a slash: a single path segment. *)
Fixpoint no_slash (s : string) : bool :=
  match s with
  | EmptyString => true
  | String c rest => negb (Ascii.eqb c "/") && no_slash rest
  end.

(** A route of the table answers the method and the path. *)
Definition route_matches {H : Type} (m : Method) (p : string)
    (entry : Method * string * H) : bool :=
  method_matches entry.1.1 m &&
  match match_path entry.1.2 p with Some _ => true | None => false end.

(** The request [m /api/weather/<id>] with an empty JSON body. *)
Definition record_request (m : Method) (id : string) : http_request :=
  {| method := m; path := "/api/weather/" +:+ id;
     payload := Parsed (VObject []); static_file := false |}.

(** The request [m /api/weather] with the JSON body [b]. *)
Definition collection_request (m : Method) (b : value) : http_request :=
  {| method := m; path := "/api/weather"; payload := Parsed b;
     static_file := false |}.

Section RouterProps.
Context {C : Type} `{StoreLaws C} `{CasterLaws}.

(** The handler and the parameters of an endpoint. *)
Definition endpoint_route (ep : endpoint) : @handler C * list (string * string) :=
  match ep with
  | EHealth => (get_health, [])
  | ECreate => (post_weather, [])
  | EList => (get_weather_list, [])
  | EGet id => (get_weather_by_id, [("id", id)])
  | EDelete id => (delete_weather_by_id, [("id", id)])
  | EDeleteAll => (delete_weather_all, [])
  end.

Lemma seg_eq_excl a b s :
  seg_eq a s = true -> lower a <> lower b -> seg_eq b s = false.
Proof.
  unfold seg_eq. intros Ha%String.eqb_eq Hab. apply String.eqb_neq. congruence.
Qed.

(** Decide each comparison of a literal with a path segment; a segment that
    is one literal is no other. *)
Ltac route_tests :=
  repeat match goal with
         | |- context [seg_eq ?a ?s] =>
             let E := fresh "E" in
             destruct (seg_eq a s) eqn:E;
             try rewrite (seg_eq_excl _ _ _ E)
               by (let Hne := fresh in intros Hne; vm_compute in Hne; discriminate);
             simpl; try done
         end.

(** What the table-driven search computes, on the segments of the path. *)
Lemma find_route_segments m p :
  find_route routes m p =
    let segs := split_path p in
    let on (rm : Method) (pat : list string) (h : @handler C) rest :=
      if method_matches rm m then
        match match_segments pat segs with Some ps => Some (h, ps) | None => rest end
      else rest in
    on GET ["";"api";"health"] get_health
      (on POST ["";"api";"weather"] post_weather
        (on GET ["";"api";"weather"] get_weather_list
          (on GET ["";"api";"weather";":id"] get_weather_by_id
            (on DELETE ["";"api";"weather";":id"] delete_weather_by_id
              (on DELETE ["";"api";"weather"] delete_weather_all None))))).
Proof. reflexivity. Qed.

(** The search, for a path whose segments are [segs]. *)
Lemma find_route_split m p segs :
  split_path p = segs ->
  find_route routes m p = endpoint_route <$> classify m segs.
Proof.
  intros <-. rewrite find_route_segments. cbv zeta. generalize (split_path p) as segs.
  intros segs. unfold classify.
  destruct segs as [|s0 [|s1 [|s2 [|s3 [|s4 [|s5 segs]]]]]]; simpl;
    try (by destruct m; simpl; route_tests);
    try (destruct s3 as [|c3 s3]); try (destruct s4 as [|c4 s4]);
    simpl; destruct m; simpl; route_tests; done.
Qed.

(** C9: the route table of the source, searched in registration order,
    sends a request to the handler that a direct classification of its method
    and path segments names, with the [:id] segment as parameter; a request
    the classification rejects matches no route. *)
Theorem find_route_classify m p :
  find_route routes m p = endpoint_route <$> classify m (split_path p).
Proof. by apply find_route_split. Qed.

(** C34: no request matches two routes of the table, so the order in which
    the source registers the routes does not matter. *)
Theorem routes_disjoint m p :
  length (List.filter (route_matches m p) (@routes C _ _)) <= 1.
Proof.
  unfold route_matches, routes, match_path. simpl.
  change (split_path "/api/health") with ["";"api";"health"].
  change (split_path "/api/weather") with ["";"api";"weather"].
  change (split_path "/api/weather/:id") with ["";"api";"weather";":id"].
  generalize (split_path p) as segs. intros segs.
  destruct segs as [|s0 [|s1 [|s2 [|s3 [|s4 [|s5 segs]]]]]]; simpl;
    try (by destruct m; simpl; route_tests; lia);
    try (destruct s3 as [|c3 s3]); try (destruct s4 as [|c4 s4]);
    simpl; destruct m; simpl; route_tests; simpl; lia.
Qed.

Lemma split_path_no_slash s : no_slash s = true -> split_path s = [s].
Proof.
  induction s as [|c s IH]; simpl; [done|].
  intros [Hc Hs]%andb_prop. apply negb_true_iff in Hc. by rewrite Hc, IH.
Qed.

Lemma split_path_record id :
  no_slash id = true ->
  split_path ("/api/weather/" +:+ id) = [""; "api"; "weather"; id].
Proof. intros Hns. simpl. by rewrite split_path_no_slash. Qed.

(** The path of a record is routed to the look-up or the delete handler,
    by method, with the segment as [id]. *)
Lemma find_route_record m id :
  id <> "" -> no_slash id = true ->
  find_route routes m ("/api/weather/" +:+ id) =
    endpoint_route <$> record_endpoint m id.
Proof.
  intros Hid Hns. rewrite find_route_segments. cbv zeta.
  rewrite split_path_record by done.
  destruct id as [|c id]; [done|]. by destruct m.
Qed.

Lemma hex_char_not_slash d : (d < 16)%N -> Ascii.eqb (hex_char d) "/" = false.
Proof.
  intros Hd. destruct d as [|p]; [done|].
  do 4 (destruct p as [p|p|]; try done); lia.
Qed.

Lemma no_slash_app s t : no_slash (s +:+ t) = no_slash s && no_slash t.
Proof. induction s as [|c s IH]; simpl; [done|]. by rewrite IH, andb_assoc. Qed.

Lemma no_slash_hex_of k n : no_slash (hex_of k n) = true.
Proof.
  revert n. induction k as [|k IH]; intros n; simpl; [done|].
  rewrite no_slash_app, IH. simpl.
  rewrite hex_char_not_slash; [done|]. by apply N.mod_lt.
Qed.

Lemma string_of_oid_segment id :
  string_of_oid id <> "" /\ no_slash (string_of_oid id) = true.
Proof.
  split; [|apply no_slash_hex_of].
  intros Hs. pose proof (length_hex_of 24 id) as Hl.
  unfold string_of_oid in Hs. by rewrite Hs in Hl.
Qed.

(** Every handler of the table returns normally, having sent a body with
    one of five status codes. *)
Lemma routes_total rm pat (h : @handler C) e req w :
  (rm, pat, h) ∈ routes ->
  exists r w', h e req res_new w = (Ok r, w') /\
    is_Some (sent r) /\ statusCode r ∈ [200; 201; 400; 404; 500].
Proof.
  intros Hh. each_handler Hh;
    [|destruct (post_weather_total e req res_new w) as (r & w' & -> & ? & ?);
      exists r, w'; set_solver|..];
    rewrite ?get_weather_list_cases, ?get_weather_by_id_cases,
      ?delete_weather_by_id_cases, ?delete_weather_all_cases;
    repeat case_match; eexists _, _; (split; [reflexivity|]); simpl;
    (split; [by eexists|set_solver]).
Qed.

(** What the application does with a request that reaches the router. *)
Lemma app_routed e rq w b :
  method rq <> OPTIONS -> payload rq = Parsed b ->
  (method rq = GET \/ method rq = HEAD -> static_file rq = false) ->
  app e rq w =
    match find_route routes (method rq) (path rq) with
    | Some (h, ps) =>
        bind (h e {| body := b; params_id := param_id ps |} res_new)
             (fun res => ret (Routed res)) w
    | None => (Ok NoRoute, w)
    end.
Proof.
  unfold app. intros Hm -> Hs. rewrite bool_decide_false by done.
  destruct (bool_decide (method rq = GET) || bool_decide (method rq = HEAD)) eqn:Hg.
  - rewrite Hs; [by destruct (find_route _ _ _) as [[h ps]|]|].
    apply orb_prop in Hg as [Hg|Hg]; apply bool_decide_eq_true in Hg; auto.
  - by destruct (find_route _ _ _) as [[h ps]|].
Qed.

(** The responses of the application: those of the middleware and of
    Express, and those of the handlers with the status codes of the
    service. *)
Definition documented (r : http_response) : Prop :=
  match r with
  | Routed res => is_Some (sent res) /\ statusCode res ∈ [200; 201; 400; 404; 500]
  | _ => True
  end.

Lemma app_documented e rq w :
  exists r w', app e rq w = (Ok r, w') /\ documented r.
Proof.
  unfold app. repeat case_match; try by eexists _, _.
  subst. match goal with Hf : find_route _ _ _ = Some _ |- _ =>
    apply find_route_Some in Hf as (rm & pat & Hin & _) end.
  unfold bind.
  edestruct routes_total as (r & w' & -> & ?); [done|]. by eexists _, _.
Qed.

Lemma app_returns e rq w : exists r w', app e rq w = (Ok r, w').
Proof. destruct (app_documented e rq w) as (r & w' & ? & _). eauto. Qed.

(** C35: the service has no update endpoint: a [PUT] or [PATCH] request, to
    any path and with any body, reaches no handler and leaves the world as
    it was. *)
Theorem app_no_update e rq w :
  method rq = PUT \/ method rq = PATCH ->
  exists r, app e rq w = (Ok r, w) /\ (r = BadRequest \/ r = NoRoute).
Proof.
  intros Hm. unfold app.
  rewrite bool_decide_false by (destruct Hm as [-> | ->]; done).
  destruct (payload rq); [|by eauto].
  replace (bool_decide (method rq = GET) || bool_decide (method rq = HEAD))
    with false by (destruct Hm as [-> | ->]; done).
  cbn [andb]. destruct (find_route _ _ _) as [[h ps]|] eqn:Hf; [|by eauto].
  apply find_route_Some in Hf as (rm & pat & [Hrm _]%routes_handlers & Hmm & _).
  exfalso. destruct Hm as [Hm | Hm]; rewrite Hm in Hmm;
    repeat (apply elem_of_cons in Hrm as [-> | Hrm]); try done; set_solver.
Qed.

(** What the application does with a request to a record's path. *)
Lemma app_record_request e m id w :
  m <> OPTIONS -> id <> "" -> no_slash id = true ->
  app e (record_request m id) w =
    match record_endpoint m id with
    | Some ep =>
        bind ((endpoint_route ep).1 e {| body := VObject []; params_id := id |} res_new)
             (fun res => ret (Routed res)) w
    | None => (Ok NoRoute, w)
    end.
Proof.
  intros Hm Hid Hns. rewrite (app_routed _ _ _ (VObject [])) by done.
  cbn [record_request method path]. rewrite find_route_record by done.
  by destruct m.
Qed.

(** What the application does with a request to the collection's path. *)
Lemma app_collection_request e m b w :
  m <> OPTIONS ->
  app e (collection_request m b) w =
    match collection_endpoint m with
    | Some ep =>
        bind ((endpoint_route ep).1 e {| body := b; params_id := "" |} res_new)
             (fun res => ret (Routed res)) w
    | None => (Ok NoRoute, w)
    end.
Proof. by destruct m. Qed.

(** End to end, [GET /api/weather/<id>] with the text of a stored record's
    identifier passes the middleware, is routed to the look-up handler and
    is answered 200 with that record; nothing changes. *)
Lemma app_get_stored e w d :
  store_inv (db w) -> fault e = false -> d ∈ contents (db w) ->
  (_id d < oid_bound)%N ->
  app e (record_request GET (string_of_oid (_id d))) w =
    (Ok (Routed (json (JsonDoc d) res_new)), w).
Proof.
  intros Hinv He Hd Hb. destruct (string_of_oid_segment (_id d)) as [Hne Hns].
  rewrite app_record_request by done. cbn [record_endpoint endpoint_route fst].
  unfold bind. rewrite get_weather_by_id_cases. cbn [params_id].
  rewrite castObjectId_hex, He by done.
  by rewrite (proj2 (findOne_Some (_id d) (db w) d Hinv)).
Qed.

End RouterProps.

(** ** Instances of the theorems with hypotheses *)

Lemma app_no_update_witness :
  exists r, app env_ok (record_request PUT "000000000000000000000001") world_paris
              = (Ok r, world_paris) /\ (r = BadRequest \/ r = NoRoute).
Proof. exact (app_no_update env_ok (record_request PUT _) world_paris (or_introl eq_refl)). Defined.
