(* ===== verification/System.v ===== *)
(** The service as a whole: the application of src/index.js serving one
    request after another on the same collection.

    Each handler awaits one database call and touches no state of the
    process besides that call, so the requests act on the collection in the
    order in which the database performs their calls; a run is the list of
    requests in that order, each with what its environment decides for it.

    The file states the invariant of the world the handlers maintain, proves
    that every reachable state has it, and proves the properties of
    sessions: identifiers are never reused, a created record can be read
    back, a deleted record is gone, a cleared collection lists as empty. *)

From S2P Require Import Prelude JsValue ObjectId Schema Store Model Handlers Router.
From S2P Require Import Examples PostProps QueryProps RouterProps.

Set Warnings "-clear-no-such-hyp".

(** A request together with the clock and the database fault of its
    processing. *)
Record event : Type := {
  ev_env : env;
  ev_request : http_request
}.

(** The identifier of the record a response reports as created. *)
Definition created_id (r : option http_response) : option oid :=
  match r with
  | Some (Routed res) =>
      match sent res with
      | Some (JsonDoc d) => if statusCode res =? 201 then Some (_id d) else None
      | _ => None
      end
  | _ => None
  end.

(** The documents a response carries to the client. *)
Definition sent_docs (r : http_response) : list document :=
  match r with
  | Routed res =>
      match sent res with
      | Some (JsonDoc d) => [d]
      | Some (JsonList l) => l
      | _ => []
      end
  | _ => []
  end.

(** A document meets the data model and holds values of the schema's types. *)
Definition record_ok (d : document) : Prop :=
  valid_record d /\ well_typed weatherSchema d = true.

Section System.
Context {C : Type} `{Store C} `{Caster}.

(** The application answers one request; a handler that threw would leave
    the request without an answer. *)
Definition serve (ev : event) (w : world C) : option http_response * world C :=
  match app (ev_env ev) (ev_request ev) w with
  | (Ok r, w') => (Some r, w')
  | (Throw _, w') => (None, w')
  end.

(** The answers to a list of requests, and the world after them. *)
Fixpoint run (evs : list event) (w : world C)
  : list (option http_response) * world C :=
  match evs with
  | [] => ([], w)
  | ev :: rest =>
      let '(r, w') := serve ev w in
      let '(rs, w'') := run rest w' in
      (r :: rs, w'')
  end.

(** The states the service reaches from [w0]. *)
Inductive reachable (w0 : world C) : world C -> Prop :=
| reachable_start : reachable w0 w0
| reachable_serve w ev : reachable w0 w -> reachable w0 (serve ev w).2.

(** What holds of a stored document: its identifier was handed out, and
    it meets the data model and the types of the schema. *)
Definition doc_inv (bound : oid) (d : document) : Prop :=
  (_id d < bound)%N /\ valid_record d /\ well_typed weatherSchema d = true.

(** The invariant of the world. *)
Definition world_inv (w : world C) : Prop :=
  store_inv (db w) /\ Forall (doc_inv (next_oid w)) (contents (db w)).

(** The world of a service started on an empty collection. *)
Definition world_init : world C :=
  {| db := store_empty; next_oid := 0; console := [] |}.

End System.

Section SystemProps.
Context {C : Type} `{StoreLaws C} `{CasterLaws}.
Implicit Types (w : world C) (e : env) (d : document).

(** ** The invariant *)

Lemma doc_inv_mono a b d : (a <= b)%N -> doc_inv a d -> doc_inv b d.
Proof. unfold doc_inv. intros ? (? & ? & ?). split_and!; [lia|done..]. Qed.

Lemma world_init_inv : world_inv (@world_init C _).
Proof.
  split; simpl; [apply store_empty_inv|]. by rewrite store_empty_contents.
Qed.

Lemma world_inv_fresh w : world_inv w -> next_oid w ∉ ids (db w).
Proof.
  intros [_ Hall] (d & Hid & Hd)%list_elem_of_fmap.
  rewrite Forall_forall in Hall. destruct (Hall d Hd) as [Hlt _]. lia.
Qed.

Lemma world_inv_logged err w : world_inv w -> world_inv (logged err w).
Proof. done. Qed.

Lemma world_inv_bump w : world_inv w -> world_inv (bump w).
Proof.
  intros [? Hall]. split; [done|]. simpl.
  eapply Forall_impl; [done|]. intros d. apply doc_inv_mono. lia.
Qed.

(** A database call that leaves only documents the collection held keeps
    the invariant. *)
Lemma world_inv_set_db c' w :
  store_inv c' -> contents c' ⊆ contents (db w) ->
  world_inv w -> world_inv (set_db c' w).
Proof.
  intros Hc' Hsub [_ Hall]. split; [done|]. simpl.
  rewrite Forall_forall in *. auto.
Qed.

Lemma world_inv_insert d c' w :
  world_inv w -> insertOne d (db w) = Some c' -> doc_inv (next_oid w) d ->
  world_inv (set_db c' w).
Proof.
  intros [Hc Hall] Hi Hd. apply insertOne_Some in Hi as [Hc' Hp]; [|done].
  split; [done|]. simpl. rewrite Hp. by constructor.
Qed.

(** The document [POST /api/weather] constructs, once validated. *)
Lemma Weather_doc_inv w t obj :
  validate weatherSchema (Weather (next_oid w) t obj) = [] ->
  doc_inv (next_oid (bump w)) (Weather (next_oid w) t obj).
Proof.
  intros Hv. pose proof (Weather_well_typed (next_oid w) t obj).
  split_and!; [simpl; lia|by apply validate_valid_record|done].
Qed.

Lemma post_weather_inv e req res w r w' :
  world_inv w -> post_weather e req res w = (r, w') -> world_inv w'.
Proof.
  intros Hw. rewrite post_weather_cases.
  destruct (is_nullish _); [by intros [= _ <-]|].
  destruct (missing_required _); [by intros [= _ <-]|]. cbv zeta.
  destruct (save _ _ _ _) as [[saved|err] w1] eqn:Hsave; intros [= _ <-].
  - apply save_Ok_inv in Hsave as (_ & Hv & _ & c' & Hi & ->).
    eapply world_inv_insert; [by apply world_inv_bump|done|].
    by apply Weather_doc_inv.
  - apply save_throw in Hsave as ->. by apply world_inv_logged, world_inv_bump.
Qed.

Lemma delete_weather_by_id_inv e req res w r w' :
  world_inv w -> delete_weather_by_id e req res w = (r, w') -> world_inv w'.
Proof.
  intros Hw. rewrite delete_weather_by_id_cases.
  assert (forall i, world_inv (set_db (findOneAndDelete i (db w)).2 w)).
  { intros i. destruct (findOneAndDelete_rest i (db w)) as [? Hp]; [apply Hw|].
    apply world_inv_set_db; [done| |done].
    intros d Hd. by apply findOneAndDelete_elem_of in Hd as [? _]; [|apply Hw]. }
  repeat case_match; by intros [= _ <-].
Qed.

Lemma delete_weather_all_inv e req res w r w' :
  world_inv w -> delete_weather_all e req res w = (r, w') -> world_inv w'.
Proof.
  intros Hw. rewrite delete_weather_all_cases.
  destruct (fault e); intros [= _ <-]; [done|].
  apply world_inv_set_db; [apply deleteMany_inv| |done].
  rewrite deleteMany_contents. set_solver.
Qed.

Lemma reads_inv (h : @handler C) e req res w r w' :
  h ∈ [get_health; get_weather_list; get_weather_by_id] ->
  world_inv w -> h e req res w = (r, w') -> world_inv w'.
Proof.
  intros Hh Hw. repeat (apply elem_of_cons in Hh as [->|Hh]); [| | |set_solver].
  - by intros [= _ <-].
  - rewrite get_weather_list_cases. by destruct (fault e); intros [= _ <-].
  - rewrite get_weather_by_id_cases. by repeat case_match; intros [= _ <-].
Qed.

(** Every handler of the route table keeps the invariant. *)
Lemma routes_inv rm pat (h : @handler C) e req res w r w' :
  (rm, pat, h) ∈ routes -> world_inv w -> h e req res w = (r, w') -> world_inv w'.
Proof.
  intros Hh. each_handler Hh;
    eauto using post_weather_inv, delete_weather_by_id_inv, delete_weather_all_inv;
    apply reads_inv; set_solver.
Qed.

Lemma app_inv e rq w r w' : world_inv w -> app e rq w = (Ok r, w') -> world_inv w'.
Proof.
  intros Hw. apply (app_handlers (fun _ _ w' => world_inv w')); [done|].
  intros. by eapply routes_inv.
Qed.

Lemma serve_inv ev w : world_inv w -> world_inv (serve ev w).2.
Proof.
  intros Hw. unfold serve.
  destruct (app_returns (ev_env ev) (ev_request ev) w) as (r & w' & Ha).
  rewrite Ha. by eapply app_inv.
Qed.

Lemma reachable_inv w0 w : world_inv w0 -> reachable w0 w -> world_inv w.
Proof. intros Hw0. induction 1; [done|]. by apply serve_inv. Qed.

(** The world after a run is reachable. *)
Lemma run_reachable evs w0 w : reachable w0 w -> reachable w0 (run evs w).2.
Proof.
  revert w. induction evs as [|ev evs IH]; intros w Hw; simpl; [done|].
  specialize (IH (serve ev w).2 (reachable_serve _ _ ev Hw)).
  by destruct (serve ev w), (run evs _).
Qed.

(** C4: in every state the service reaches from a state with the
    invariant (the empty collection, for one), the identifiers of the
    stored records are pairwise distinct and every stored record has a city
    that is a non-empty string, a temperature that is a number, and values
    of the schema's types at its other attributes. *)
Theorem reachable_records_valid w0 w :
  world_inv w0 -> reachable w0 w ->
  NoDup (ids (db w)) /\
  forall d, d ∈ contents (db w) ->
    valid_record d /\ well_typed weatherSchema d = true.
Proof.
  intros Hw0 Hr. destruct (reachable_inv w0 w Hw0 Hr) as [Hc Hall].
  split; [by apply store_inv_NoDup|]. rewrite Forall_forall in Hall.
  intros d Hd. by destruct (Hall d Hd) as (_ & ? & ?).
Qed.

(** ** What the service sends *)

Lemma world_inv_record_ok w d : world_inv w -> d ∈ contents (db w) -> record_ok d.
Proof.
  intros [_ Hall] Hd. rewrite Forall_forall in Hall.
  by destruct (Hall d Hd) as (_ & ? & ?).
Qed.

Lemma post_weather_sends_ok e req res w r w' :
  post_weather e req res w = (Ok r, w') -> Forall record_ok (sent_docs (Routed r)).
Proof.
  intros Hp. simpl. destruct (sent r) as [[]|] eqn:Hs; try by constructor.
  - destruct (post_weather_JsonDoc _ _ _ _ _ _ _ Hp Hs) as (-> & Hv & _).
    repeat constructor; [by apply validate_valid_record, Weather_well_typed|].
    apply Weather_well_typed.
  - revert Hp. rewrite post_weather_cases. cbv zeta.
    repeat case_match; intros [= <- _]; done.
Qed.

Lemma routes_send_ok rm pat (h : @handler C) e req w r w' :
  (rm, pat, h) ∈ routes -> world_inv w -> h e req res_new w = (Ok r, w') ->
  Forall record_ok (sent_docs (Routed r)).
Proof.
  intros Hh Hw. each_handler Hh; [|apply post_weather_sends_ok|..];
    rewrite ?get_weather_list_cases, ?get_weather_by_id_cases,
      ?delete_weather_by_id_cases, ?delete_weather_all_cases;
    repeat case_match; intros [= <- <-]; simpl; repeat constructor.
  - apply Forall_forall. intros d Hd. apply (world_inv_record_ok w); [done|].
    by eapply elem_of_submseteq, findSorted_submseteq.
  - eapply (world_inv_record_ok w), findOne_elem_of; [done|apply Hw|done].
  - eapply (world_inv_record_ok w), findOne_elem_of; [done|apply Hw|done].
Qed.

(** C15: every document the service sends to a client, alone or in a list,
    meets the data model (a city that is a non-empty string, a numeric
    temperature) and holds, at each attribute of the schema, a value of the
    attribute's type or none. *)
Theorem app_sends_valid_records e rq w r w' :
  world_inv w -> app e rq w = (Ok r, w') -> Forall record_ok (sent_docs r).
Proof.
  intros Hw. apply (app_handlers (fun _ r _ => Forall record_ok (sent_docs r))).
  - intros [] Hr; try constructor. by destruct (Hr res).
  - intros. by eapply routes_send_ok.
Qed.

(** ** Identifiers are never reused *)

(** What a request does to the identifier generator: a request that
    reports a created record took the next identifier for it; no request
    moves the generator back. *)
Definition oid_step (w : world C) (r : option http_response) (w' : world C) : Prop :=
  match created_id r with
  | Some i => i = next_oid w /\ next_oid w' = N.succ (next_oid w)
  | None => (next_oid w <= next_oid w')%N
  end.

Lemma post_weather_next_oid e req res w r w' :
  post_weather e req res w = (r, w') ->
  (next_oid w <= next_oid w' <= N.succ (next_oid w))%N.
Proof.
  rewrite post_weather_cases.
  destruct (is_nullish _); [intros [= _ <-]; simpl; lia|].
  destruct (missing_required _); [intros [= _ <-]; lia|]. cbv zeta.
  destruct (save _ _ _ _) as [[saved|err] w1] eqn:Hsave; intros [= _ <-].
  - apply save_Ok_inv in Hsave as (_ & _ & _ & c' & _ & ->). simpl. lia.
  - apply save_throw in Hsave as ->. simpl. lia.
Qed.

Lemma post_weather_oid_step e req w r w' :
  post_weather e req res_new w = (Ok r, w') -> oid_step w (Some (Routed r)) w'.
Proof.
  intros Hp. pose proof (post_weather_next_oid _ _ _ _ _ _ Hp).
  unfold oid_step, created_id. destruct (sent r) as [[]|] eqn:Hs; try lia.
  destruct (statusCode r =? 201); [|lia].
  by destruct (post_weather_JsonDoc _ _ _ _ _ _ _ Hp Hs) as (-> & _ & _ & c' & _ & ->).
Qed.

Lemma routes_oid_step rm pat (h : @handler C) e req w r w' :
  (rm, pat, h) ∈ routes -> h e req res_new w = (Ok r, w') ->
  oid_step w (Some (Routed r)) w'.
Proof.
  intros Hh. each_handler Hh; [|apply post_weather_oid_step|..];
    rewrite ?get_weather_list_cases, ?get_weather_by_id_cases,
      ?delete_weather_by_id_cases, ?delete_weather_all_cases;
    repeat case_match; intros [= <- <-]; unfold oid_step; simpl; lia.
Qed.

Lemma app_oid_step e rq w r w' :
  app e rq w = (Ok r, w') -> oid_step w (Some r) w'.
Proof.
  apply (app_handlers (fun w r w' => oid_step w (Some r) w')).
  - intros [| | |res|] Hr; try (unfold oid_step; simpl; lia). by destruct (Hr res).
  - intros. by eapply routes_oid_step.
Qed.

Lemma serve_oid_step ev w : oid_step w (serve ev w).1 (serve ev w).2.
Proof.
  unfold serve. destruct (app_returns (ev_env ev) (ev_request ev) w) as (r & w' & Ha).
  rewrite Ha. by apply app_oid_step in Ha.
Qed.

(** The identifiers a run reports as created lie between the generator's
    value before the run and its value after, and are pairwise distinct. *)
Lemma run_created_ids evs w :
  (next_oid w <= next_oid (run evs w).2)%N /\
  Forall (fun i => (next_oid w <= i < next_oid (run evs w).2)%N)
         (omap created_id (run evs w).1) /\
  NoDup (omap created_id (run evs w).1).
Proof.
  revert w. induction evs as [|ev evs IH]; intros w; simpl.
  { split_and!; [lia|constructor|constructor]. }
  pose proof (serve_oid_step ev w) as Hs. unfold oid_step in Hs.
  destruct (serve ev w) as [r w1]. destruct (IH w1) as (Hle & Hall & Hnd).
  destruct (run evs w1) as [rs w2]. simpl in *.
  destruct (created_id r) as [i|]; [destruct Hs as [-> Hs]|];
    (split; [lia|]); rewrite ?Forall_cons, ?NoDup_cons;
    split_and?; try done; try lia;
    try (eapply Forall_impl; [exact Hall|]; simpl; intros; lia).
  rewrite Forall_forall in Hall. intros ?%Hall. lia.
Qed.

(** C5: the records a run of requests reports as created (status 201)
    have pairwise distinct identifiers, none of which was in use in the
    collection before the run. *)
Theorem run_created_distinct evs w :
  world_inv w ->
  NoDup (omap created_id (run evs w).1) /\
  forall i, i ∈ omap created_id (run evs w).1 -> i ∉ ids (db w).
Proof.
  intros [_ Hall]. destruct (run_created_ids evs w) as (_ & Hb & Hnd).
  split; [done|]. rewrite Forall_forall in Hb. rewrite Forall_forall in Hall.
  intros i ?%Hb (d & -> & ?%Hall)%list_elem_of_fmap. unfold doc_inv in *. lia.
Qed.

(** C16: every request of a run is answered: the run yields one response
    per request, none is missing, and a response sent by a handler has a
    body and one of the status codes 200, 201, 400, 404 and 500. *)
Theorem run_answers_all evs w :
  length (run evs w).1 = length evs /\
  Forall (fun r => exists r', r = Some r' /\ documented r') (run evs w).1.
Proof.
  revert w. induction evs as [|ev evs IH]; intros w; simpl; [by split|].
  unfold serve.
  destruct (app_documented (ev_env ev) (ev_request ev) w) as (r & w' & -> & Hr).
  destruct (IH w') as [Hlen Hall]. destruct (run evs w') as [rs w2].
  simpl in *. split; [by rewrite Hlen|]. constructor; eauto.
Qed.

(** ** Sessions *)

(** C7: a record that [POST /api/weather] reports as created is read back
    by [GET /api/weather/<id>] with the text of the identifier in the
    response: the answer is 200 with the same document. *)
Theorem post_then_get e1 e2 b w r w1 d :
  world_inv w -> (next_oid w < oid_bound)%N ->
  app e1 (collection_request POST b) w = (Ok (Routed r), w1) ->
  sent r = Some (JsonDoc d) -> fault e2 = false ->
  app e2 (record_request GET (string_of_oid (_id d))) w1 =
    (Ok (Routed (json (JsonDoc d) res_new)), w1).
Proof.
  intros Hw Hb. rewrite app_collection_request by done. simpl. unfold bind.
  destruct (post_weather _ _ _ _) as [[res|err] w'] eqn:Hp; intros [= <- <-] Hs He.
  destruct (post_weather_JsonDoc _ _ _ _ _ _ _ Hp Hs)
    as (Hd & _ & _ & c' & Hi & ->).
  apply insertOne_Some in Hi as [Hc' Hperm]; [|apply Hw].
  apply app_get_stored; simpl; [done|done|rewrite Hperm; left|by rewrite Hd].
Qed.

(** C8: a record that [DELETE /api/weather/<id>] reports as deleted is
    gone: a later [GET] of the same path, with the collection untouched in
    between, is answered 404 "Not found". *)
Theorem delete_then_get e1 e2 s w r w1 i :
  world_inv w -> s <> "" -> no_slash s = true ->
  app e1 (record_request DELETE s) w = (Ok (Routed r), w1) ->
  sent r = Some (JsonDeleted i) -> fault e2 = false ->
  app e2 (record_request GET s) w1 = (Ok (Routed (res_404 res_new)), w1).
Proof.
  intros [Hc _] Hs Hns. rewrite !app_record_request by done. simpl. unfold bind.
  rewrite delete_weather_by_id_cases, get_weather_by_id_cases. simpl.
  destruct (castObjectId s) as [j|]; [|by intros [= <- _]].
  destruct (fault e1); [by intros [= <- _]|].
  destruct (findOneAndDelete j (db w)).1; intros [= <- <-]; [|done].
  intros _ ->. simpl. by rewrite findOneAndDelete_gone.
Qed.

Lemma findSorted_empty n (c : C) : contents c = [] -> findSorted n c = [].
Proof.
  intros Hc. destruct (findSorted_spec n c) as (l & Hp & _ & ->).
  rewrite Hc in Hp. apply Permutation_nil_r in Hp as ->. by destruct n.
Qed.

(** C19: after [DELETE /api/weather] reports that all records were
    deleted, [GET /api/weather] lists no record. *)
Theorem delete_all_then_list e1 e2 b1 b2 w r w1 :
  app e1 (collection_request DELETE b1) w = (Ok (Routed r), w1) ->
  sent r = Some JsonDeletedAll -> fault e2 = false ->
  app e2 (collection_request GET b2) w1 =
    (Ok (Routed (json (JsonList []) res_new)), w1).
Proof.
  rewrite !app_collection_request by done. simpl. unfold bind.
  rewrite delete_weather_all_cases, get_weather_list_cases.
  destruct (fault e1); intros [= <- <-]; [done|]. intros _ ->. simpl.
  by rewrite findSorted_empty by apply deleteMany_contents.
Qed.

End SystemProps.

(** ** Instances of the theorems with hypotheses *)

(** The request of the specification's example, as an event. *)
Definition paris_event : event :=
  {| ev_env := env_ok; ev_request := collection_request POST paris_body |}.

(** The world after the only record was deleted. *)
Definition world_cleared : world (list document) :=
  {| db := []; next_oid := 2; console := [] |}.

Lemma world_empty_inv : world_inv world_empty.
Proof. split; simpl; constructor. Defined.

Lemma world_paris_inv : world_inv world_paris.
Proof.
  split; [apply paris_store_inv|]. repeat constructor. by eexists _, _.
Defined.

Lemma reachable_records_valid_witness :
  NoDup (ids (db (serve paris_event world_empty).2)) /\
  forall d, d ∈ contents (db (serve paris_event world_empty).2) ->
    valid_record d /\ well_typed weatherSchema d = true.
Proof.
  exact (reachable_records_valid world_empty _ world_empty_inv
           (reachable_serve _ _ paris_event (reachable_start _))).
Defined.

Lemma run_created_distinct_witness :
  NoDup (omap created_id (run [paris_event; paris_event] world_empty).1) /\
  forall i, i ∈ omap created_id (run [paris_event; paris_event] world_empty).1 ->
    i ∉ ids (db world_empty).
Proof. exact (run_created_distinct [paris_event; paris_event] world_empty world_empty_inv). Defined.

Lemma post_then_get_witness :
  app env_ok (record_request GET (string_of_oid (_id paris_doc))) world_paris =
    (Ok (Routed (json (JsonDoc paris_doc) res_new)), world_paris).
Proof.
  refine (post_then_get env_ok env_ok paris_body world_empty
            (res_201 paris_doc res_new) world_paris paris_doc
            world_empty_inv _ _ eq_refl eq_refl).
  - reflexivity.
  - vm_compute. reflexivity.
Defined.

Lemma delete_then_get_witness :
  app env_ok (record_request GET "000000000000000000000001") world_cleared =
    (Ok (Routed (res_404 res_new)), world_cleared).
Proof.
  refine (delete_then_get env_ok env_ok "000000000000000000000001" world_paris
            (json (JsonDeleted 1) res_new) world_cleared 1
            world_paris_inv _ eq_refl _ eq_refl eq_refl).
  - discriminate.
  - vm_compute. reflexivity.
Defined.

Lemma delete_all_then_list_witness :
  app env_ok (collection_request GET VUndefined) world_cleared =
    (Ok (Routed (json (JsonList []) res_new)), world_cleared).
Proof.
  refine (delete_all_then_list env_ok env_ok VUndefined VUndefined world_paris
            (json JsonDeletedAll res_new) world_cleared _ eq_refl eq_refl).
  vm_compute. reflexivity.
Defined.

Lemma app_sends_valid_records_witness :
  Forall record_ok (sent_docs (Routed (json (JsonDoc paris_doc) res_new))).
Proof.
  refine (app_sends_valid_records env_ok
            (record_request GET "000000000000000000000001") world_paris _
            world_paris world_paris_inv _).
  vm_compute. reflexivity.
Defined.

Lemma run_answers_all_witness :
  length (run [paris_event; paris_event] world_empty).1 =
    length [paris_event; paris_event] /\
  Forall (fun r => exists r', r = Some r' /\ documented r')
         (run [paris_event; paris_event] world_empty).1.
Proof. exact (run_answers_all [paris_event; paris_event] world_empty). Defined.
