(* ===== verification/Spec.v ===== *)
(** The specification of the service, and the proof that the application
    of src/index.js implements it.

    The specification is abstract: its state is a finite map from
    identifiers to records, and a relation [spec_step] gives, for each of
    the six endpoints, the responses the service may send and the state that
    results (the Record Store operations and the HTTP surface of the
    specification).  The abstraction function [abs] reads the map off the
    collection.  The refinement theorem states that every response of the
    application to a request that addresses an endpoint is a step of the
    specification between the abstractions of the collections before and
    after. *)

From stdpp Require Import gmap.
From S2P Require Import Prelude JsValue ObjectId Schema Store Model Handlers Router.
From S2P Require Import Examples PostProps QueryProps RouterProps System.

Set Warnings "-clear-no-such-hyp".

(** ** The abstract state *)

Abbreviation records := (gmap oid document).

(** The records of a collection, by identifier. *)
Definition abs {C} `{Store C} (c : C) : records :=
  list_to_map ((fun d => (_id d, d)) <$> contents c).

(** ** What the specification says of inputs and outputs *)

(** The city of the body is no non-empty string, or the temperature is
    absent. *)
Definition spec_missing (b : value) : Prop :=
  (forall s, get_prop "city" b = VString s -> s = "") \/
  get_prop "temperature" b = VUndefined.

(** The record holds what the body gives: a string at a string attribute,
    a number at the temperature. *)
Definition body_fields (b : value) (d : document) : Prop :=
  (forall k s, k ∈ ["city"; "country"; "description"] ->
     get_prop k b = VString s -> doc_get k d = Val (BString s)) /\
  (forall n, get_prop "temperature" b = VNumber n -> is_nan n = false ->
     doc_get "temperature" d = Val (BNumber n)).

(** [l] lists the [n] most recent records of [m], most recent first. *)
Definition recent (n : nat) (m : records) (l : list document) : Prop :=
  Sorted newer l /\ length l = n `min` size m /\
  (forall d, d ∈ l -> m !! _id d = Some d) /\
  (forall x y, x ∈ l -> m !! _id y = Some y -> y ∉ l -> newer x y).

(** The endpoints that take an identifier. *)
Definition by_id (ep : endpoint) : bool :=
  match ep with EGet _ | EDelete _ => true | _ => false end.

(** ** The steps of the specification *)

(** [spec_step t m ep b res m']: at time [t] and in state [m], the endpoint
    [ep] called with body [b] may answer [res] and leave the state [m']. *)
Inductive spec_step `{Caster} (t : Z) (m : records)
  : endpoint -> value -> response -> records -> Prop :=
| spec_health b :
    spec_step t m EHealth b (json (JsonHealth t) res_new) m
| spec_create b d :
    m !! _id d = None -> valid_record d -> recordedAt d = Some t ->
    body_fields b d ->
    spec_step t m ECreate b (res_201 d res_new) (<[_id d := d]> m)
| spec_create_missing b :
    spec_missing b ->
    spec_step t m ECreate b (res_400_required res_new) m
| spec_create_error b :
    spec_step t m ECreate b (res_500 res_new) m
| spec_list b l :
    recent list_limit m l ->
    spec_step t m EList b (json (JsonList l) res_new) m
| spec_list_error b :
    spec_step t m EList b (res_500 res_new) m
| spec_get s i d b :
    castObjectId s = Some i -> m !! i = Some d ->
    spec_step t m (EGet s) b (json (JsonDoc d) res_new) m
| spec_get_not_found s i b :
    castObjectId s = Some i -> m !! i = None ->
    spec_step t m (EGet s) b (res_404 res_new) m
| spec_get_invalid s b :
    castObjectId s = None ->
    spec_step t m (EGet s) b (res_400_invalid_id res_new) m
| spec_delete s i d b :
    castObjectId s = Some i -> m !! i = Some d ->
    spec_step t m (EDelete s) b (json (JsonDeleted i) res_new) (delete i m)
| spec_delete_not_found s i b :
    castObjectId s = Some i -> m !! i = None ->
    spec_step t m (EDelete s) b (res_404 res_new) m
| spec_delete_invalid s b :
    castObjectId s = None ->
    spec_step t m (EDelete s) b (res_400_invalid_id res_new) m
| spec_delete_all b :
    spec_step t m EDeleteAll b (json JsonDeletedAll res_new) ∅
| spec_delete_all_error b :
    spec_step t m EDeleteAll b (res_500 res_new) m.

#[export] Hint Constructors spec_step : weather.

Section Abstraction.
Context {C : Type} `{StoreLaws C}.
Implicit Types (c : C) (d : document).

Lemma abs_keys c : ((fun d => (_id d, d)) <$> contents c).*1 = ids c.
Proof. unfold ids. rewrite <-list_fmap_compose. done. Qed.

Lemma abs_lookup c i : store_inv c -> abs c !! i = findOne i c.
Proof.
  intros Hc. apply option_eq. intros d. rewrite findOne_Some by done.
  unfold abs. rewrite <-elem_of_list_to_map
    by (rewrite abs_keys; by apply store_inv_NoDup).
  rewrite list_elem_of_fmap. naive_solver.
Qed.

Lemma abs_lookup_Some c d :
  store_inv c -> abs c !! _id d = Some d <-> d ∈ contents c.
Proof. intros Hc. rewrite abs_lookup, findOne_Some by done. naive_solver. Qed.

Lemma abs_size c : store_inv c -> size (abs c) = length (contents c).
Proof.
  intros Hc. unfold abs. rewrite map_size_list_to_map, length_fmap; [done|].
  rewrite abs_keys. by apply store_inv_NoDup.
Qed.

Lemma abs_insert c c' d :
  store_inv c -> insertOne d c = Some c' -> abs c' = <[_id d := d]> (abs c).
Proof.
  intros Hc [Hc' Hp]%insertOne_Some; [|done]. unfold abs.
  transitivity (list_to_map ((fun d => (_id d, d)) <$> d :: contents c) : records);
    [|done].
  apply list_to_map_proper; [|by rewrite Hp].
  rewrite abs_keys. by apply store_inv_NoDup.
Qed.

Lemma abs_delete c i :
  store_inv c -> abs (findOneAndDelete i c).2 = delete i (abs c).
Proof.
  intros Hc. destruct (findOneAndDelete_rest i c Hc) as [Hc' _].
  apply map_eq. intros j. rewrite abs_lookup by done.
  destruct (decide (i = j)) as [<-|].
  - by rewrite lookup_delete_eq, findOneAndDelete_gone.
  - by rewrite lookup_delete_ne, findOneAndDelete_other, abs_lookup.
Qed.

Lemma abs_deleteMany c : abs (deleteMany c) = ∅.
Proof. unfold abs. by rewrite deleteMany_contents. Qed.

(** The list query answers with the most recent records. *)
Lemma findSorted_recent n c : store_inv c -> recent n (abs c) (findSorted n c).
Proof.
  intros Hc. split_and!.
  - apply findSorted_Sorted.
  - by rewrite findSorted_length, abs_size.
  - intros d Hd. apply abs_lookup_Some; [done|].
    by eapply elem_of_submseteq, findSorted_submseteq.
  - intros x y Hx Hy%abs_lookup_Some Hny; [|done]. by eapply findSorted_newest.
Qed.

End Abstraction.

(** ** The handlers implement the steps *)

Section Refinement.
Context {C : Type} `{StoreLaws C} `{CasterLaws}.
Implicit Types (w : world C) (e : env) (d : document).

(** The presence check of the handler rejects only what the specification
    calls missing. *)
Lemma missing_required_spec b : missing_required b = true -> spec_missing b.
Proof.
  unfold missing_required, spec_missing.
  intros [Hc%negb_true_iff | Ht%is_undefined_true]%orb_prop; [left|by right].
  intros s Hs. rewrite Hs in Hc. destruct (decide (s = "")) as [|Hne]; [done|].
  apply truthy_string in Hne. congruence.
Qed.

Lemma Weather_body_fields id t b : body_fields b (Weather id t (record_init b)).
Proof.
  split; [intros k s Hk Hg|intros n Hg Hn]; unfold doc_get;
    rewrite Weather_paths; [repeat (apply elem_of_cons in Hk as [->|Hk])|];
    try set_solver; simpl; rewrite Hg; unfold init_value, cast_path; simpl;
    by rewrite ?cast_string, ?cast_number.
Qed.

Lemma Weather_recordedAt id t b : recordedAt (Weather id t (record_init b)) = Some t.
Proof. unfold recordedAt, doc_get. by rewrite Weather_paths. Qed.

Lemma post_refines e req w r w' :
  world_inv w -> post_weather e req res_new w = (Ok r, w') ->
  spec_step (now e) (abs (db w)) ECreate (body req) r (abs (db w')).
Proof.
  intros Hw. rewrite post_weather_cases.
  destruct (is_nullish _); [intros [= <- <-]; constructor|].
  destruct (missing_required _) eqn:Hm;
    [intros [= <- <-]; by apply spec_create_missing, missing_required_spec|].
  cbv zeta. destruct (save _ _ _ _) as [[saved|err] w1] eqn:Hsave; intros [= <- <-].
  - apply save_Ok_inv in Hsave as (-> & Hv & _ & c' & Hi & ->). simpl in *.
    rewrite (abs_insert _ _ _ (proj1 Hw) Hi). constructor.
    + rewrite abs_lookup by apply Hw. apply findOne_None; [apply Hw|].
      by apply world_inv_fresh.
    + apply validate_valid_record; [done|apply Weather_well_typed].
    + apply Weather_recordedAt.
    + apply Weather_body_fields.
  - apply save_throw in Hsave as ->. constructor.
Qed.

Lemma list_refines e req w r w' :
  world_inv w -> get_weather_list e req res_new w = (Ok r, w') ->
  spec_step (now e) (abs (db w)) EList (body req) r (abs (db w')).
Proof.
  intros [Hc _]. rewrite get_weather_list_cases.
  destruct (fault e); intros [= <- <-]; constructor. by apply findSorted_recent.
Qed.

Lemma get_refines e req w r w' :
  world_inv w -> fault e = false ->
  get_weather_by_id e req res_new w = (Ok r, w') ->
  spec_step (now e) (abs (db w)) (EGet (params_id req)) (body req) r (abs (db w')).
Proof.
  intros [Hc _] He. rewrite get_weather_by_id_cases, He.
  destruct (castObjectId _) as [i|] eqn:Hi; [|intros [= <- <-]; by constructor].
  rewrite <-abs_lookup by done.
  destruct (abs (db w) !! i) eqn:Hl; intros [= <- <-]; eauto with weather.
Qed.

Lemma delete_refines e req w r w' :
  world_inv w -> fault e = false ->
  delete_weather_by_id e req res_new w = (Ok r, w') ->
  spec_step (now e) (abs (db w)) (EDelete (params_id req)) (body req) r (abs (db w')).
Proof.
  intros [Hc _] He. rewrite delete_weather_by_id_cases, He.
  destruct (castObjectId _) as [i|] eqn:Hi; [|intros [= <- <-]; by constructor].
  rewrite findOneAndDelete_found.
  destruct (findOne i (db w)) as [d|] eqn:Hf; intros [= <- <-]; simpl;
    rewrite abs_delete by done.
  - rewrite (findOne_id i (db w) d Hc Hf).
    eapply spec_delete; [done|by rewrite abs_lookup].
  - rewrite delete_id by (by rewrite abs_lookup).
    eapply spec_delete_not_found; [done|by rewrite abs_lookup].
Qed.

Lemma delete_all_refines e req w r w' :
  delete_weather_all e req res_new w = (Ok r, w') ->
  spec_step (now e) (abs (db w)) EDeleteAll (body req) r (abs (db w')).
Proof.
  rewrite delete_weather_all_cases.
  destruct (fault e); intros [= <- <-]; simpl; rewrite ?abs_deleteMany; constructor.
Qed.

(** Each handler, called with the parameter of its endpoint, takes a step
    of the specification. *)
Lemma endpoint_refines e ep b w r w' :
  world_inv w -> (by_id ep = true -> fault e = false) ->
  (endpoint_route ep).1 e
    {| body := b; params_id := param_id (endpoint_route ep).2 |} res_new w
    = (Ok r, w') ->
  spec_step (now e) (abs (db w)) ep b r (abs (db w')).
Proof.
  intros Hw He. destruct ep; simpl in *.
  - intros [= <- <-]. constructor.
  - by apply (post_refines e {| body := b |}).
  - by apply (list_refines e {| body := b |}).
  - apply (get_refines e {| body := b; params_id := id |}); auto.
  - apply (delete_refines e {| body := b; params_id := id |}); auto.
  - by apply (delete_all_refines e {| body := b |}).
Qed.

(** C3: the application implements the specification.  For a request that
    addresses an endpoint, whatever the application answers, and whatever it
    does to the collection, is a step of the specification from the records
    of the collection before to the records after; on the two endpoints that
    take an identifier this holds when the database call does not fail. *)
Theorem app_refines_spec e rq b ep w r w' :
  world_inv w ->
  payload rq = Parsed b -> static_file rq = false ->
  classify (method rq) (split_path (path rq)) = Some ep ->
  (by_id ep = true -> fault e = false) ->
  app e rq w = (Ok r, w') ->
  exists res, r = Routed res /\
    spec_step (now e) (abs (db w)) ep b res (abs (db w')).
Proof.
  intros Hw Hb Hs Hep He.
  rewrite (app_routed e rq w b), (find_route_split _ _ _ eq_refl), Hep;
    [|intros Hm; apply classify_method in Hep; rewrite Hm in Hep; set_solver
     |done|done].
  simpl. unfold bind. destruct (endpoint_route ep) as [h ps] eqn:Hr.
  destruct (h e _ res_new w) as [[res|err] w1] eqn:Hh; intros [= <- <-].
  exists res. split; [done|]. apply endpoint_refines; [done..|]. by rewrite Hr.
Qed.

End Refinement.

(** ** An instance of the refinement theorem *)

Lemma app_refines_spec_witness :
  exists res, Routed (res_201 paris_doc res_new) = Routed res /\
    spec_step (now env_ok) (abs (db world_empty)) ECreate paris_body res
      (abs (db world_paris)).
Proof.
  refine (app_refines_spec env_ok (collection_request POST paris_body) paris_body
            ECreate world_empty _ world_paris world_empty_inv eq_refl eq_refl
            eq_refl _ _).
  - discriminate.
  - vm_compute. reflexivity.
Defined.
