(* ===== verification/Concurrent.v ===== *)
(** Requests in flight at the same time.

    A route handler of src/index.js is an [async] function with one
    [await]: it runs from the arrival of the request to the [await] without
    interruption, is suspended until the database has answered, and then
    runs to its end.  Between these two parts the parts of other handlers
    may run.  This file splits each handler at its [await], proves that the
    two parts run back to back are the handler of [Handlers], and gives the
    service as a transition system whose steps are the arrival of a request,
    the database performing the call some handler waits for, and a handler
    resuming; it proves that the records of the collection stay valid, and
    that only valid records are sent, under every interleaving, and that
    every request takes effect at its database call: the call and the
    answer of the resumed handler are a step of the specification from the
    records the collection holds at the moment of the call, whatever other
    requests did since the arrival. *)

From stdpp Require Import relations gmap.
From S2P Require Import Prelude JsValue ObjectId Schema Store Model Handlers Router.
From S2P Require Import Examples PostProps QueryProps RouterProps System Spec.

Set Warnings "-clear-no-such-hyp".
Local Open Scope prog_scope.

Section Concurrent.
Context {C : Type} `{Store C} `{Caster}.

(** ** Handlers split at their [await] *)

(** A handler suspended at [await promise]: the awaited call, and the rest
    of the handler as a function of how the call settles. *)
Record awaiting : Type := {
  aw_type : Type;
  aw_promise : prog (world C) exn aw_type;
  aw_resume : outcome exn aw_type -> prog (world C) exn response
}.

(** What the first part of a handler ends in. *)
Inductive task : Type :=
| Returned (res : response)     (** the handler returned: the response is sent *)
| Awaiting (a : awaiting)       (** the handler waits for the database *)
| Escaped (err : exn).          (** an exception left the handler *)

(** The body of the [catch] blocks: log the error, send [r res]. *)
Definition catch_with (r : response -> response) (res : response) (err : exn)
  : prog (world C) exn response :=
  let* _ := console_error err in ret (r res).

(** The rest of a [try] block after its [await]: [ok] on the value the
    promise resolves to, the [catch] block on a rejection. *)
Definition settle {A} (ok : A -> response)
    (catch : exn -> prog (world C) exn response) (out : outcome exn A)
  : prog (world C) exn response :=
  match out with
  | Ok a => ret (ok a)
  | Throw err => catch err
  end.

Definition await {A} (p : prog (world C) exn A) (ok : A -> response)
    (catch : exn -> prog (world C) exn response) : task :=
  Awaiting {| aw_type := A; aw_promise := p; aw_resume := settle ok catch |}.

(** The first part of a handler, as a task. *)
Definition starting (p : prog (world C) exn task) (w : world C) : task * world C :=
  match p w with
  | (Ok t, w') => (t, w')
  | (Throw err, w') => (Escaped err, w')
  end.

Definition split_handler : Type := env -> request -> response -> world C -> task * world C.

(** [GET /api/health] (line 25): no [await]. *)
Definition get_health_start : split_handler := fun e req res =>
  starting (ret (Returned (json (JsonHealth (now e)) res))).

(** [POST /api/weather] up to [await record.save()] (lines 31-38). *)
Definition post_weather_start : split_handler := fun e req res =>
  starting
    (try_catch
       (let* (city, country, temperature, description) :=
          lift (destructure4 "city" "country" "temperature" "description" (body req)) in
        if negb (truthy city) || is_undefined temperature then
          ret (Returned (json (JsonError "city and temperature are required")
                           (status 400 res)))
        else
          let* id := new_ObjectId in
          let record :=
            Weather id (now e)
              (VObject [("city", city); ("country", country);
                        ("temperature", temperature); ("description", description)]) in
          ret (await (save weatherSchema e record)
                 (fun saved => json (JsonDoc saved) (status 201 res))
                 (catch_with res_500 res)))
       (fun err => let* r := catch_with res_500 res err in ret (Returned r))).

(** [GET /api/weather] up to the [await] of line 50. *)
Definition get_weather_list_start : split_handler := fun e req res =>
  starting
    (ret (await (find_sort_limit e list_limit)
            (fun list => json (JsonList list) res)
            (catch_with res_500 res))).

(** [GET /api/weather/:id] up to the [await] of line 62. *)
Definition get_weather_by_id_start : split_handler := fun e req res =>
  starting
    (ret (await (findById e (params_id req))
            (fun rec => match rec with
                        | None => res_404 res
                        | Some d => json (JsonDoc d) res
                        end)
            (catch_with res_400_invalid_id res))).

(** [DELETE /api/weather/:id] up to the [await] of line 75. *)
Definition delete_weather_by_id_start : split_handler := fun e req res =>
  starting
    (ret (await (findByIdAndDelete e (params_id req))
            (fun removed => match removed with
                            | None => res_404 res
                            | Some d => json (JsonDeleted (_id d)) res
                            end)
            (catch_with res_400_invalid_id res))).

(** [DELETE /api/weather] up to the [await] of line 88. *)
Definition delete_weather_all_start : split_handler := fun e req res =>
  starting
    (ret (await (deleteMany_all e)
            (fun _ => json JsonDeletedAll res)
            (catch_with res_500 res))).

(** The split handler of each endpoint. *)
Definition endpoint_start (ep : endpoint) : split_handler :=
  match ep with
  | EHealth => get_health_start
  | ECreate => post_weather_start
  | EList => get_weather_list_start
  | EGet _ => get_weather_by_id_start
  | EDelete _ => delete_weather_by_id_start
  | EDeleteAll => delete_weather_all_start
  end.

(** A task run to its end with nothing in between. *)
Definition complete (tw : task * world C) : outcome exn response * world C :=
  match tw with
  | (Returned res, w) => (Ok res, w)
  | (Awaiting a, w) => let '(out, w') := aw_promise a w in aw_resume a out w'
  | (Escaped err, w) => (Throw err, w)
  end.

(** ** The service with requests in flight *)

(** What the arrival of a request leads to: an answer at once, or a
    suspended handler. *)
Inductive arrival : Type :=
| Respond (r : http_response)
| Suspend (a : awaiting)
| Hang (err : exn).             (** no answer: an exception left the handler *)

(** The middleware stack and the router, up to the first [await]. *)
Definition dispatch (e : env) (rq : http_request) (w : world C) : arrival * world C :=
  if bool_decide (method rq = OPTIONS) then (Respond Preflight, w)
  else
    match payload rq with
    | Malformed => (Respond BadRequest, w)
    | Parsed b =>
        if (bool_decide (method rq = GET) || bool_decide (method rq = HEAD))
           && static_file rq
        then (Respond StaticFile, w)
        else
          match classify (method rq) (split_path (path rq)) with
          | Some ep =>
              let req := {| body := b;
                            params_id := param_id (endpoint_route (C:=C) ep).2 |} in
              match endpoint_start ep e req res_new w with
              | (Returned res, w') => (Respond (Routed res), w')
              | (Awaiting a, w') => (Suspend a, w')
              | (Escaped err, w') => (Hang err, w')
              end
          | None => (Respond NoRoute, w)
          end
    end.

(** A request served from its arrival to its answer with nothing in
    between. *)
Definition finish (aw : arrival * world C) : outcome exn http_response * world C :=
  match aw with
  | (Respond r, w) => (Ok r, w)
  | (Suspend a, w) =>
      let '(out, w') := aw_promise a w in
      match aw_resume a out w' with
      | (Ok res, w'') => (Ok (Routed res), w'')
      | (Throw err, w'') => (Throw err, w'')
      end
  | (Hang err, w) => (Throw err, w)
  end.

(** The state of the service: the world, the handlers that wait for the
    database, the handlers whose call has settled and that have not resumed
    yet, and the answers sent so far. *)
Record conc : Type := {
  c_world : world C;
  c_waiting : list awaiting;
  c_ready : list (prog (world C) exn response);
  c_sent : list http_response
}.

(** A request arrives. *)
Definition arrive (ev : event) (s : conc) : conc :=
  match dispatch (ev_env ev) (ev_request ev) (c_world s) with
  | (Respond r, w') =>
      {| c_world := w'; c_waiting := c_waiting s; c_ready := c_ready s;
         c_sent := c_sent s ++ [r] |}
  | (Suspend a, w') =>
      {| c_world := w'; c_waiting := c_waiting s ++ [a]; c_ready := c_ready s;
         c_sent := c_sent s |}
  | (Hang _, w') =>
      {| c_world := w'; c_waiting := c_waiting s; c_ready := c_ready s;
         c_sent := c_sent s |}
  end.

(** The database performs the call the handler [a] waits for. *)
Definition settle_call (a : awaiting) (rest : list awaiting) (s : conc) : conc :=
  let '(out, w') := aw_promise a (c_world s) in
  {| c_world := w'; c_waiting := rest; c_ready := c_ready s ++ [aw_resume a out];
     c_sent := c_sent s |}.

(** The handler with the rest [k] resumes and runs to its end. *)
Definition resume (k : prog (world C) exn response)
    (rest : list (prog (world C) exn response)) (s : conc) : conc :=
  let '(out, w') := k (c_world s) in
  {| c_world := w'; c_waiting := c_waiting s; c_ready := rest;
     c_sent := c_sent s ++ match out with Ok res => [Routed res] | Throw _ => [] end |}.

(** The steps of the service: any waiting call may be the next the database
    performs, any settled handler the next to resume. *)
Inductive cstep : conc -> conc -> Prop :=
| cstep_arrive s ev :
    cstep s (arrive ev s)
| cstep_settle s l1 a l2 :
    c_waiting s = l1 ++ a :: l2 -> cstep s (settle_call a (l1 ++ l2) s)
| cstep_resume s l1 k l2 :
    c_ready s = l1 ++ k :: l2 -> cstep s (resume k (l1 ++ l2) s).

(** The service at rest on the world [w]. *)
Definition conc_start (w : world C) : conc :=
  {| c_world := w; c_waiting := []; c_ready := []; c_sent := [] |}.

(** ** What every interleaving maintains *)

(** The collection is well formed and holds valid records only. *)
Definition db_ok (w : world C) : Prop :=
  store_inv (db w) /\ Forall record_ok (contents (db w)).

(** The rest of a handler returns, leaves the collection alone and sends
    valid records only. *)
Definition rest_ok (k : prog (world C) exn response) : Prop :=
  forall w, db_ok w ->
    exists res w', k w = (Ok res, w') /\ db w' = db w /\
                   Forall record_ok (sent_docs (Routed res)).

(** A suspended handler: its call keeps the collection valid, and its rest
    is as above however the call settles. *)
Definition awaiting_ok (a : awaiting) : Prop :=
  forall w, db_ok w ->
    db_ok (aw_promise a w).2 /\ rest_ok (aw_resume a (aw_promise a w).1).

Definition conc_inv (s : conc) : Prop :=
  db_ok (c_world s) /\ Forall awaiting_ok (c_waiting s) /\
  Forall rest_ok (c_ready s) /\
  Forall (fun r => Forall record_ok (sent_docs r)) (c_sent s).

(** ** A request takes effect at its database call *)

(** The handler suspended on [a], of endpoint [ep], called with body [b] by
    a request that arrived at time [t], is linearised at its call: whatever
    the collection holds when the database performs the call and whatever
    the world is when the handler resumes, the handler answers, resuming
    leaves the collection alone, and the call with the answer is a step of
    the specification from the records at the moment of the call. *)
Definition linearizes (t : Z) (ep : endpoint) (b : value) (a : awaiting) : Prop :=
  forall w w2, store_inv (db w) ->
    store_inv (db (aw_promise a w).2) /\
    exists res w3,
      aw_resume a (aw_promise a w).1 w2 = (Ok res, w3) /\ db w3 = db w2 /\
      spec_step t (abs (db w)) ep b res (abs (db (aw_promise a w).2)).

(** The first part of the handler of [ep], run on [w0], leaves the
    collection alone; an answer it gives at once is a step of the
    specification in every state, and a handler it suspends is linearised
    at its call. *)
Definition start_refines (t : Z) (ep : endpoint) (b : value) (w0 : world C)
    (tw : task * world C) : Prop :=
  db tw.2 = db w0 /\
  match tw.1 with
  | Returned res => forall m, spec_step t m ep b res m
  | Awaiting a => linearizes t ep b a
  | Escaped _ => False
  end.

End Concurrent.

Section ConcurrentProps.
Context {C : Type} `{StoreLaws C} `{CasterLaws}.
Implicit Types (w : world C) (e : env) (req : request) (res : response).

(** ** The two parts of a handler, run back to back, are the handler *)

Lemma post_weather_split e req res w :
  complete (post_weather_start e req res w) = post_weather e req res w.
Proof.
  unfold post_weather_start, post_weather, starting, catch_with, try_catch, bind,
    lift, destructure4, require_object_coercible.
  destruct (is_nullish (body req)); [done|]. simpl.
  destruct (negb _ || _); [done|]. simpl.
  by destruct (save _ _ _ _) as [[]].
Qed.

Lemma get_weather_list_split e req res w :
  complete (get_weather_list_start e req res w) = get_weather_list e req res w.
Proof.
  unfold get_weather_list_start, get_weather_list, try_catch, bind. simpl.
  by destruct (find_sort_limit _ _ _) as [[]].
Qed.

Lemma get_weather_by_id_split e req res w :
  complete (get_weather_by_id_start e req res w) = get_weather_by_id e req res w.
Proof.
  unfold get_weather_by_id_start, get_weather_by_id, try_catch, bind. simpl.
  by destruct (findById _ _ _) as [[[]|]].
Qed.

Lemma delete_weather_by_id_split e req res w :
  complete (delete_weather_by_id_start e req res w) =
    delete_weather_by_id e req res w.
Proof.
  unfold delete_weather_by_id_start, delete_weather_by_id, try_catch, bind. simpl.
  by destruct (findByIdAndDelete _ _ _) as [[[]|]].
Qed.

Lemma delete_weather_all_split e req res w :
  complete (delete_weather_all_start e req res w) = delete_weather_all e req res w.
Proof.
  unfold delete_weather_all_start, delete_weather_all, try_catch, bind. simpl.
  by destruct (deleteMany_all _ _) as [[]].
Qed.

Lemma endpoint_split ep e req res w :
  complete (endpoint_start ep e req res w) = (endpoint_route ep).1 e req res w.
Proof.
  destruct ep;
    [done|apply post_weather_split|apply get_weather_list_split
    |apply get_weather_by_id_split|apply delete_weather_by_id_split
    |apply delete_weather_all_split].
Qed.

(** Consistency of this file with [Handlers] and [Router]: a request
    served from arrival to answer with no step of another request in
    between is served as [app] serves it.  Both sides are written from the
    same lines of the source, so this says nothing of the source; it
    guards the split handlers against a slip of transcription. *)
Lemma finish_dispatch_app e rq w : finish (dispatch e rq w) = app e rq w.
Proof.
  unfold dispatch, app. destruct (bool_decide _); [done|].
  destruct (payload rq) as [b|]; [|done]. destruct (_ && _); [done|].
  rewrite (find_route_split _ _ _ eq_refl).
  destruct (classify _ _) as [ep|]; [|done]. simpl.
  destruct (endpoint_route ep) as [h ps] eqn:Hr. simpl. unfold bind.
  replace h with (endpoint_route ep).1 by (by rewrite Hr).
  rewrite <-endpoint_split.
  destruct (endpoint_start ep e _ res_new w) as [[res|a|err] w1]; simpl; [done| |done].
  destruct (aw_promise a w1) as [out w2]. by destruct (aw_resume a out w2) as [[]].
Qed.

(** ** The invariant *)

Lemma db_ok_same w w' : db w' = db w -> db_ok w -> db_ok w'.
Proof. unfold db_ok. by intros ->. Qed.

Lemma world_inv_db_ok w : world_inv w -> db_ok w.
Proof.
  intros Hw. split; [apply Hw|]. apply Forall_forall. intros d Hd.
  by eapply world_inv_record_ok.
Qed.

Lemma db_ok_record w d : db_ok w -> d ∈ contents (db w) -> record_ok d.
Proof. intros [_ Hall]. rewrite Forall_forall in Hall. auto. Qed.

(** The [catch] blocks send no record. *)
Lemma catch_with_ok (r : response -> response) res err :
  (forall res', sent (r res') = Some (JsonError "server error") \/
                sent (r res') = Some (JsonError "Invalid id")) ->
  rest_ok (catch_with r res err).
Proof.
  intros Hr w Hw. exists (r res), (logged err w).
  split_and!; [done..|]. simpl. by destruct (Hr res) as [-> | ->].
Qed.

Lemma settle_ok {A} (Q : A -> Prop) (ok : A -> response) catch out :
  (forall a, Q a -> Forall record_ok (sent_docs (Routed (ok a)))) ->
  (forall err, rest_ok (catch err)) ->
  (forall a, out = Ok a -> Q a) ->
  rest_ok (settle ok catch out).
Proof.
  intros Hok Hc HQ. destruct out as [a|err]; simpl; [|done].
  intros w Hw. exists (ok a), w. eauto.
Qed.

(** A handler suspended on a call that keeps the collection valid and
    resolves to values [Q] holds of, when [ok] sends valid records for such
    values. *)
Lemma await_ok {A} (Q : A -> Prop) (p : prog (world C) exn A) ok catch :
  (forall w, db_ok w -> db_ok (p w).2 /\ forall a, (p w).1 = Ok a -> Q a) ->
  (forall a, Q a -> Forall record_ok (sent_docs (Routed (ok a)))) ->
  (forall err, rest_ok (catch err)) ->
  awaiting_ok {| aw_type := A; aw_promise := p; aw_resume := settle ok catch |}.
Proof.
  intros Hp Hok Hc w Hw. destruct (Hp w Hw) as [Hw' HQ]. simpl.
  split; [done|]. by apply (settle_ok Q).
Qed.

(** *** The awaited calls *)

Lemma save_db_ok e d w :
  well_typed weatherSchema d = true -> db_ok w ->
  db_ok (save weatherSchema e d w).2 /\
  forall x, (save weatherSchema e d w).1 = Ok x -> record_ok x.
Proof.
  intros Ht [Hc Hall]. destruct (save _ _ _ _) as [[x|err] w'] eqn:Hs; simpl.
  - apply save_Ok_inv in Hs as (-> & Hv & _ & c' & Hi & ->).
    assert (record_ok d) by (split; [by apply validate_valid_record|done]).
    apply insertOne_Some in Hi as [Hc' Hp]; [|done].
    split; [|by intros ? [= <-]]. split; [done|]. simpl. rewrite Hp. by constructor.
  - apply save_throw in Hs as ->. by split.
Qed.

Lemma find_sort_limit_db_ok e n w :
  db_ok w ->
  db_ok (find_sort_limit e n w).2 /\
  forall l, (find_sort_limit e n w).1 = Ok l -> Forall record_ok l.
Proof.
  intros Hw. unfold find_sort_limit, db_call. destruct (fault e); simpl; [done|].
  rewrite set_db_same. split; [done|]. intros l [= <-]. apply Forall_forall.
  intros d Hd. apply (db_ok_record w); [done|].
  by eapply elem_of_submseteq, findSorted_submseteq.
Qed.

Lemma findById_db_ok e id w :
  db_ok w ->
  db_ok (findById e id w).2 /\
  forall rec, (findById e id w).1 = Ok rec -> forall d, rec = Some d -> record_ok d.
Proof.
  intros Hw. unfold findById, db_call.
  destruct (castObjectId id) as [i|]; [|done]. destruct (fault e); simpl; [done|].
  rewrite set_db_same. split; [done|]. intros rec [= <-] d Hd.
  eapply (db_ok_record w), findOne_elem_of; [done|apply Hw|done].
Qed.

Lemma findByIdAndDelete_db_ok e id w :
  db_ok w -> db_ok (findByIdAndDelete e id w).2.
Proof.
  intros Hw. unfold findByIdAndDelete, db_call.
  destruct (castObjectId id) as [i|]; [|done]. destruct (fault e); simpl; [done|].
  destruct (findOneAndDelete i (db w)) as [rec c'] eqn:Hf. simpl.
  destruct (findOneAndDelete_rest i (db w)) as [Hc' Hp]; [apply Hw|].
  rewrite Hf in Hc', Hp. simpl in *. split; [done|]. simpl. rewrite Hp.
  apply Forall_forall. intros d [_ Hd]%list_elem_of_filter. by eapply db_ok_record.
Qed.

Lemma deleteMany_all_db_ok e w : db_ok w -> db_ok (deleteMany_all e w).2.
Proof.
  intros Hw. unfold deleteMany_all, db_call. destruct (fault e); simpl; [done|].
  split; simpl; [apply deleteMany_inv|]. by rewrite deleteMany_contents.
Qed.

(** *** The first part of a handler *)

(** What the first part of a handler ends in, given a valid collection: it
    leaves the collection alone, and sends valid records only or is
    suspended on a call as above. *)
Definition outcome_ok {A} (ok : A -> Prop) (w : world C) (aw : A * world C) : Prop :=
  db aw.2 = db w /\ ok aw.1.

Definition task_ok (t : task) : Prop :=
  match t with
  | Returned res => Forall record_ok (sent_docs (Routed res))
  | Awaiting a => awaiting_ok a
  | Escaped _ => False
  end.

Lemma post_weather_start_ok e req w :
  outcome_ok task_ok w (post_weather_start e req res_new w).
Proof.
  unfold post_weather_start, starting, catch_with, try_catch, bind, lift,
    destructure4, require_object_coercible.
  destruct (is_nullish (body req)); [by split; [|constructor]|]. simpl.
  destruct (negb _ || _); [by split; [|constructor]|]. simpl. split; [done|].
  apply (await_ok record_ok).
  - intros w' Hw'. apply save_db_ok; [apply Weather_well_typed|done].
  - intros d Hd. by apply Forall_singleton.
  - intros err. apply catch_with_ok. auto.
Qed.

Lemma endpoint_start_ok ep e req w :
  outcome_ok task_ok w (endpoint_start ep e req res_new w).
Proof.
  destruct ep; [by split; [|constructor]|apply post_weather_start_ok|..];
    (split; [done|]); simpl.
  - apply (await_ok (Forall record_ok)); [apply find_sort_limit_db_ok|done|].
    intros err. apply catch_with_ok. auto.
  - apply (await_ok (fun rec => forall d, rec = Some d -> record_ok d));
      [apply findById_db_ok| |intros err; apply catch_with_ok; auto].
    intros [d|] Hd; simpl; [apply Forall_singleton; by apply Hd|constructor].
  - apply (await_ok (fun _ => True));
      [split; [by apply findByIdAndDelete_db_ok|done]
      | |intros err; apply catch_with_ok; auto].
    intros [d|] _; constructor.
  - apply (await_ok (fun _ => True));
      [split; [by apply deleteMany_all_db_ok|done]
      |constructor|intros err; apply catch_with_ok; auto].
Qed.

Definition arrival_ok (a : arrival) : Prop :=
  match a with
  | Respond r => Forall record_ok (sent_docs r)
  | Suspend a => awaiting_ok a
  | Hang _ => False
  end.

Lemma dispatch_ok e rq w : outcome_ok arrival_ok w (dispatch e rq w).
Proof.
  unfold dispatch. destruct (bool_decide _); [by split; [|constructor]|].
  destruct (payload rq) as [b|]; [|by split; [|constructor]].
  destruct (_ && _); [by split; [|constructor]|].
  destruct (classify _ _) as [ep|]; [|by split; [|constructor]].
  match goal with |- context [endpoint_start ep e ?req res_new w] =>
    pose proof (endpoint_start_ok ep e req w) as Hok;
    by destruct (endpoint_start ep e req res_new w) as [[res|a|err] w'] end.
Qed.

(** *** The steps *)

Lemma arrive_inv ev s : conc_inv s -> conc_inv (arrive ev s).
Proof.
  intros (Hw & Hwait & Hready & Hsent). unfold arrive.
  destruct (dispatch_ok (ev_env ev) (ev_request ev) (c_world s)) as [Hdb Hok].
  destruct (dispatch _ _ _) as [[r|a|err] w']; simpl in *; [| |done].
  - split_and!; simpl; [by eapply db_ok_same|done..|].
    apply Forall_app. split; [done|]. by apply Forall_singleton.
  - split_and!; simpl; [by eapply db_ok_same| |done..].
    apply Forall_app. split; [done|]. by apply Forall_singleton.
Qed.

Lemma settle_call_inv a l1 l2 s :
  c_waiting s = l1 ++ a :: l2 -> conc_inv s -> conc_inv (settle_call a (l1 ++ l2) s).
Proof.
  intros Hl (Hw & Hwait & Hready & Hsent). rewrite Hl in Hwait.
  apply Forall_app in Hwait as [Hl1 [Ha Hl2]%Forall_cons].
  unfold settle_call. destruct (Ha _ Hw) as [Hw' Hk].
  destruct (aw_promise a (c_world s)) as [out w']. simpl in *.
  split_and!; simpl; [done|by apply Forall_app| |done].
  apply Forall_app. split; [done|]. by apply Forall_singleton.
Qed.

Lemma resume_inv k l1 l2 s :
  c_ready s = l1 ++ k :: l2 -> conc_inv s -> conc_inv (resume k (l1 ++ l2) s).
Proof.
  intros Hl (Hw & Hwait & Hready & Hsent). rewrite Hl in Hready.
  apply Forall_app in Hready as [Hl1 [Hk Hl2]%Forall_cons].
  unfold resume. destruct (Hk _ Hw) as (res & w' & -> & Hdb & Hres).
  split_and!; simpl; [by eapply db_ok_same|done|by apply Forall_app|].
  apply Forall_app. split; [done|]. by apply Forall_singleton.
Qed.

Lemma cstep_inv s s' : cstep s s' -> conc_inv s -> conc_inv s'.
Proof.
  destruct 1; eauto using arrive_inv, settle_call_inv, resume_inv.
Qed.

Lemma conc_start_inv w : world_inv w -> conc_inv (conc_start w).
Proof. intros Hw. split_and!; simpl; [by apply world_inv_db_ok|done..]. Qed.

Lemma rtc_cstep_inv s s' : rtc cstep s s' -> conc_inv s -> conc_inv s'.
Proof. induction 1; eauto using cstep_inv. Qed.

(** C13: under every interleaving of arrivals, database calls and
    resumptions, the identifiers of the stored records stay pairwise
    distinct, every stored record stays valid, and every document sent to a
    client is valid. *)
Theorem conc_records_valid w s :
  world_inv w -> rtc cstep (conc_start w) s ->
  NoDup (ids (db (c_world s))) /\
  Forall record_ok (contents (db (c_world s))) /\
  Forall (fun r => Forall record_ok (sent_docs r)) (c_sent s).
Proof.
  intros Hw Hs.
  destruct (rtc_cstep_inv _ _ Hs (conc_start_inv w Hw)) as ([Hc Hall] & _ & _ & Hsent).
  split_and!; [by apply store_inv_NoDup|done..].
Qed.

(** ** Linearisation *)

(** A handler suspended on the call [p] whose [catch] answers [r]: it is
    linearised when the call keeps the collection well formed and, with the
    answer the handler gives for its outcome, is a step of the
    specification. *)
Lemma linearizes_await {A} t ep b (p : prog (world C) exn A) ok
    (r : response -> response) :
  (forall w, store_inv (db w) ->
     store_inv (db (p w).2) /\
     spec_step t (abs (db w)) ep b
       match (p w).1 with Ok a => ok a | Throw _ => r res_new end
       (abs (db (p w).2))) ->
  linearizes t ep b
    {| aw_type := A; aw_promise := p; aw_resume := settle ok (catch_with r res_new) |}.
Proof.
  intros Hp w w2 Hw. destruct (Hp w Hw) as [Hw' Hstep]. simpl. split; [done|].
  destruct (p w) as [[a|err] w']; simpl in *; by eexists _, _.
Qed.

Lemma save_step e b id w :
  store_inv (db w) ->
  let d := Weather id (now e) (record_init b) in
  store_inv (db (save weatherSchema e d w).2) /\
  spec_step (now e) (abs (db w)) ECreate b
    match (save weatherSchema e d w).1 with
    | Ok saved => res_201 saved res_new
    | Throw _ => res_500 res_new
    end
    (abs (db (save weatherSchema e d w).2)).
Proof.
  intros Hw d. destruct (save _ _ _ _) as [[saved|err] w'] eqn:Hs; simpl.
  - apply save_Ok_inv in Hs as (-> & Hv & _ & c' & Hi & ->). simpl.
    destruct (insertOne_Some _ _ _ Hw Hi) as [Hc' _]. split; [done|].
    rewrite (abs_insert _ _ _ Hw Hi). constructor.
    + rewrite abs_lookup by done. apply findOne_None; [done|].
      intros Hin%(insertOne_None _ _ Hw). congruence.
    + apply validate_valid_record; [done|apply Weather_well_typed].
    + apply Weather_recordedAt.
    + apply Weather_body_fields.
  - apply save_throw in Hs as ->. split; [done|constructor].
Qed.

Lemma find_sort_limit_step e b w :
  store_inv (db w) ->
  store_inv (db (find_sort_limit e list_limit w).2) /\
  spec_step (now e) (abs (db w)) EList b
    match (find_sort_limit e list_limit w).1 with
    | Ok list => json (JsonList list) res_new
    | Throw _ => res_500 res_new
    end
    (abs (db (find_sort_limit e list_limit w).2)).
Proof.
  intros Hw. unfold find_sort_limit, db_call.
  destruct (fault e); simpl; (split; [done|]); constructor.
  by apply findSorted_recent.
Qed.

Lemma findById_step e id b w :
  fault e = false -> store_inv (db w) ->
  store_inv (db (findById e id w).2) /\
  spec_step (now e) (abs (db w)) (EGet id) b
    match (findById e id w).1 with
    | Ok (Some d) => json (JsonDoc d) res_new
    | Ok None => res_404 res_new
    | Throw _ => res_400_invalid_id res_new
    end
    (abs (db (findById e id w).2)).
Proof.
  intros He Hw. unfold findById, db_call. rewrite He.
  destruct (castObjectId id) as [i|] eqn:Hi; simpl; (split; [done|]);
    [|by constructor].
  rewrite <-abs_lookup by done.
  destruct (abs (db w) !! i) eqn:Hl; eauto with weather.
Qed.

Lemma findByIdAndDelete_step e id b w :
  fault e = false -> store_inv (db w) ->
  store_inv (db (findByIdAndDelete e id w).2) /\
  spec_step (now e) (abs (db w)) (EDelete id) b
    match (findByIdAndDelete e id w).1 with
    | Ok (Some d) => json (JsonDeleted (_id d)) res_new
    | Ok None => res_404 res_new
    | Throw _ => res_400_invalid_id res_new
    end
    (abs (db (findByIdAndDelete e id w).2)).
Proof.
  intros He Hw. unfold findByIdAndDelete, db_call. rewrite He.
  destruct (castObjectId id) as [i|] eqn:Hi; simpl; [|split; [done|by constructor]].
  destruct (findOneAndDelete_rest i (db w) Hw) as [Hc' _].
  pose proof (findOneAndDelete_found i (db w)) as Hf.
  pose proof (abs_delete (db w) i Hw) as Hd.
  destruct (findOneAndDelete i (db w)) as [rec c']. simpl in *. split; [done|].
  rewrite Hd. subst rec. destruct (findOne i (db w)) as [d|] eqn:Hfind.
  - rewrite (findOne_id i (db w) d Hw Hfind).
    eapply spec_delete; [done|by rewrite abs_lookup].
  - rewrite delete_id by (by rewrite abs_lookup).
    eapply spec_delete_not_found; [done|by rewrite abs_lookup].
Qed.

Lemma deleteMany_all_step e b w :
  store_inv (db w) ->
  store_inv (db (deleteMany_all e w).2) /\
  spec_step (now e) (abs (db w)) EDeleteAll b
    match (deleteMany_all e w).1 with
    | Ok _ => json JsonDeletedAll res_new
    | Throw _ => res_500 res_new
    end
    (abs (db (deleteMany_all e w).2)).
Proof.
  intros Hw. unfold deleteMany_all, db_call. destruct (fault e); simpl.
  - split; [done|constructor].
  - split; [apply deleteMany_inv|]. rewrite abs_deleteMany. constructor.
Qed.

Lemma post_weather_start_refines e b p w0 :
  start_refines (now e) ECreate b w0
    (post_weather_start e {| body := b; params_id := p |} res_new w0).
Proof.
  unfold post_weather_start, starting, catch_with, try_catch, bind, lift,
    destructure4, require_object_coercible. simpl.
  destruct (is_nullish b); [split; [done|]; intros m; constructor|]. simpl.
  destruct (negb _ || _) eqn:Hm; simpl.
  - split; [done|]. intros m. by apply spec_create_missing, missing_required_spec.
  - split; [done|]. apply (linearizes_await _ _ _ _ _ res_500).
    intros w Hw. by apply save_step.
Qed.

(** C14: every request takes effect at its database call.  The part of a
    handler that runs on arrival leaves the collection alone and either
    answers at once, with a response the specification allows in every
    state, or is suspended on one call; whatever other requests do to the
    collection between the arrival and the call, and whatever happens
    between the call and the resumption, the resumed handler answers, does
    not touch the collection, and the call together with the answer is a
    step of the specification from the records the collection holds at the
    moment of the call.  On the two endpoints that take an identifier this
    holds when the database call does not fail. *)
Theorem handler_linearizes ep e b w0 :
  (by_id ep = true -> fault e = false) ->
  start_refines (now e) ep b w0
    (endpoint_start ep e
       {| body := b; params_id := param_id (endpoint_route (C:=C) ep).2 |}
       res_new w0).
Proof.
  intros He. destruct ep; simpl in He; simpl endpoint_start.
  - split; [done|]. intros m. constructor.
  - apply post_weather_start_refines.
  - split; [done|]. apply (linearizes_await _ _ _ _ _ res_500).
    intros w Hw. by apply find_sort_limit_step.
  - split; [done|]. apply (linearizes_await _ _ _ _
      (fun rec => match rec with None => _ | Some d => _ end) res_400_invalid_id).
    intros w Hw. destruct (findById_step e id b w) as [? Hstep]; [auto..|].
    split; [done|]. simpl. by destruct (findById e id w) as [[[d|]|err] w'].
  - split; [done|]. apply (linearizes_await _ _ _ _
      (fun rec => match rec with None => _ | Some d => _ end) res_400_invalid_id).
    intros w Hw. destruct (findByIdAndDelete_step e id b w) as [? Hstep]; [auto..|].
    split; [done|]. simpl. by destruct (findByIdAndDelete e id w) as [[[d|]|err] w'].
  - split; [done|]. apply (linearizes_await _ _ _ _ _ res_500).
    intros w Hw. by apply deleteMany_all_step.
Qed.

End ConcurrentProps.

(** ** An instance *)

Lemma conc_records_valid_witness :
  NoDup (ids (db (c_world (arrive paris_event (conc_start world_empty))))) /\
  Forall record_ok
    (contents (db (c_world (arrive paris_event (conc_start world_empty))))) /\
  Forall (fun r => Forall record_ok (sent_docs r))
    (c_sent (arrive paris_event (conc_start world_empty))).
Proof.
  exact (conc_records_valid world_empty _ world_empty_inv
           (rtc_once _ _ (cstep_arrive (conc_start world_empty) paris_event))).
Defined.

Lemma handler_linearizes_witness :
  start_refines (now env_ok) ECreate paris_body world_empty
    (endpoint_start ECreate env_ok
       {| body := paris_body;
          params_id := param_id (endpoint_route (C:=list document) ECreate).2 |}
       res_new world_empty).
Proof.
  exact (handler_linearizes ECreate env_ok paris_body world_empty (fun _ => eq_refl)).
Defined.
