(* ===== verification/Server.v ===== *)
(** Start-up of the process (src/index.js, lines 13-14 and 97-105): the
    configuration read from the environment, the connection to MongoDB, and
    the HTTP server that starts listening once the connection is made.

    The process is a state machine driven by what its environment delivers:
    the outcome of [mongoose.connect], then HTTP requests.  A request that
    arrives while the process does not listen reaches no code of the
    program. *)

From S2P Require Import Prelude JsValue ObjectId Schema Store Model Handlers Router.
From S2P Require Import Examples PostProps QueryProps RouterProps System.

Set Warnings "-clear-no-such-hyp".

(** ** Configuration *)

(** The two variables the program reads from [process.env]: each is a
    string, or is not set. *)
Record process_env : Type := {
  env_PORT : option string;
  env_MONGODB_URI : option string
}.

(** [process.env.NAME] *)
Definition env_get (v : option string) : value :=
  match v with Some s => VString s | None => VUndefined end.

(** [const PORT = process.env.PORT || 5000] (line 13) *)
Definition PORT (pe : process_env) : value :=
  js_or (env_get (env_PORT pe)) (VNumber (num_of_Z 5000)).

(** [const MONGODB_URI = process.env.MONGODB_URI] (line 14) *)
Definition MONGODB_URI (pe : process_env) : value := env_get (env_MONGODB_URI pe).

(** The text of [PORT] in the template string of line 101, for the two
    forms [PORT] takes: a string of the environment, or the number 5000. *)
Definition port_text (v : value) : string :=
  match v with VString s => s | _ => "5000" end.

(** ** The process *)

Inductive phase : Type :=
| Connecting      (** [mongoose.connect] is pending *)
| Listening       (** [app.listen] was called: requests are served *)
| Idle.           (** the connection failed: the process serves nothing *)

(** What the environment delivers to the process. *)
Inductive input : Type :=
| ConnectResult (r : outcome exn unit)   (** the connection attempt settles *)
| Incoming (ev : event).                 (** an HTTP request arrives *)

Record process (C : Type) : Type := {
  proc_phase : phase;
  proc_world : world C;
  answers : list (option http_response)   (** the answers given, oldest first *)
}.
Arguments proc_phase {C} _.
Arguments proc_world {C} _.
Arguments answers {C} _.

(** [console.log(msg)] *)
Definition console_log {C} (msg : string) (w : world C) : world C :=
  {| db := db w; next_oid := next_oid w; console := console w ++ [ConsoleLog msg] |}.

(** [console.error(label, err)] *)
Definition console_error_labelled {C} (label : string) (err : exn) (w : world C)
  : world C :=
  {| db := db w; next_oid := next_oid w;
     console := console w ++ [ConsoleError label err] |}.

(** How [mongoose.connect(uri, ...)] settles: a value that is no string is
    rejected before any connection is attempted; otherwise the outcome is
    the environment's.  The options of the call are not modelled, and the
    rejection for a missing string is the same [StoreError] as any other
    failure to connect. *)
Definition connect (uri : value) (r : outcome exn unit) : outcome exn unit :=
  match uri with
  | VString _ => r
  | _ => Throw StoreError
  end.

Section Server.
Context {C : Type} `{Store C} `{Caster}.

(** The callback of [.then] (lines 99-102): log, then listen; the callback
    of [app.listen] logs the address.  The two are one step here: the time
    between the call of [app.listen] and its callback, in which the server
    does not answer yet, is not a state of the model, and [app.listen]
    does not fail. *)
Definition on_connected (pe : process_env) (w : world C) : world C :=
  console_log ("Server running on http://localhost:" +:+ port_text (PORT pe))
    (console_log "Connected to MongoDB" w).

(** The callback of [.catch] (lines 103-105). *)
Definition on_connect_error (err : exn) (w : world C) : world C :=
  console_error_labelled "MongoDB connection error:" err w.

(** One step of the process. *)
Definition proc_step (pe : process_env) (p : process C) (i : input) : process C :=
  match proc_phase p, i with
  | Connecting, ConnectResult r =>
      match connect (MONGODB_URI pe) r with
      | Ok _ =>
          {| proc_phase := Listening; proc_world := on_connected pe (proc_world p);
             answers := answers p |}
      | Throw err =>
          {| proc_phase := Idle; proc_world := on_connect_error err (proc_world p);
             answers := answers p |}
      end
  | Listening, Incoming ev =>
      let '(r, w') := serve ev (proc_world p) in
      {| proc_phase := Listening; proc_world := w'; answers := answers p ++ [r] |}
  | _, _ => p
  end.

(** The process at its start, on the world [w]. *)
Definition proc_start (w : world C) : process C :=
  {| proc_phase := Connecting; proc_world := w; answers := [] |}.

(** The process after a sequence of inputs. *)
Definition proc_run (pe : process_env) (inputs : list input) (p : process C)
  : process C :=
  foldl (proc_step pe) p inputs.

End Server.

Section ServerProps.
Context {C : Type} `{StoreLaws C} `{CasterLaws}.
Implicit Types (w : world C) (p : process C) (pe : process_env).

(** C38: the port is the text of the environment variable [PORT] when it is
    set and not empty, and the number 5000 otherwise. *)
Theorem PORT_default pe :
  PORT pe = match env_PORT pe with
            | Some s => if String.eqb s "" then VNumber (num_of_Z 5000) else VString s
            | None => VNumber (num_of_Z 5000)
            end.
Proof.
  unfold PORT, js_or. destruct (env_PORT pe) as [s|]; simpl; [|done].
  by destruct (String.eqb s "").
Qed.

Lemma proc_run_cons pe i inputs p :
  proc_run pe (i :: inputs) p = proc_run pe inputs (proc_step pe p i).
Proof. reflexivity. Qed.

(** A process whose connection failed ignores every input. *)
Lemma proc_run_idle pe inputs p :
  proc_phase p = Idle -> proc_run pe inputs p = p.
Proof.
  revert p. induction inputs as [|i inputs IH]; intros p Hp; [done|].
  rewrite proc_run_cons. unfold proc_step. rewrite Hp. by apply IH.
Qed.

(** A listening process serves the requests in the order of arrival. *)
Lemma proc_run_listening pe evs p :
  proc_phase p = Listening ->
  proc_run pe (Incoming <$> evs) p =
    {| proc_phase := Listening; proc_world := (run evs (proc_world p)).2;
       answers := answers p ++ (run evs (proc_world p)).1 |}.
Proof.
  revert p. induction evs as [|ev evs IH]; intros p Hp.
  { simpl. rewrite app_nil_r. by destruct p; simplify_eq/=. }
  rewrite fmap_cons, proc_run_cons. unfold proc_step. rewrite Hp. simpl.
  destruct (serve ev (proc_world p)) as [r w1] eqn:Hs. rewrite IH by done. simpl.
  destruct (run evs w1) as [rs w2]. simpl. by rewrite <-app_assoc.
Qed.

(** [PORT] is the number 5000 or a non-empty string, the two values
    [port_text] is written for. *)
Lemma PORT_forms pe :
  PORT pe = VNumber (num_of_Z 5000) \/ exists s, s <> "" /\ PORT pe = VString s.
Proof.
  unfold PORT, js_or. destruct (env_PORT pe) as [s|]; simpl; [|by left].
  destruct (String.eqb_spec s ""); [by left|right; eauto].
Qed.

(** The console after the [.catch] callback, and after the [.then]
    callback and the callback of [app.listen]. *)
Lemma on_connect_error_eq err w :
  on_connect_error err w =
    {| db := db w; next_oid := next_oid w;
       console := console w ++ [ConsoleError "MongoDB connection error:" err] |}.
Proof. reflexivity. Qed.

Lemma on_connected_eq pe w :
  on_connected pe w =
    {| db := db w; next_oid := next_oid w;
       console := console w ++
         [ConsoleLog "Connected to MongoDB";
          ConsoleLog ("Server running on http://localhost:" +:+ port_text (PORT pe))] |}.
Proof. unfold on_connected, console_log. simpl. by rewrite <-app_assoc. Qed.

(** C10: when the connection to the database fails, or no connection
    string is configured, the process never serves: whatever requests
    arrive, none is answered, the collection is untouched, and the console
    holds the one line that reports the error. *)
Theorem no_connection_no_service pe r err inputs w :
  connect (MONGODB_URI pe) r = Throw err ->
  proc_run pe (ConnectResult r :: inputs) (proc_start w) =
    {| proc_phase := Idle;
       proc_world :=
         {| db := db w; next_oid := next_oid w;
            console := console w ++ [ConsoleError "MongoDB connection error:" err] |};
       answers := [] |}.
Proof.
  intros Hc. rewrite proc_run_cons. unfold proc_step. simpl. rewrite Hc.
  rewrite <-on_connect_error_eq. by apply proc_run_idle.
Qed.

(** C36: once the connection is made the process logs the two start-up
    lines and serves the requests that follow as the application does, in
    the order of arrival. *)
Theorem connected_serves pe s evs w :
  env_MONGODB_URI pe = Some s ->
  let started :=
    {| db := db w; next_oid := next_oid w;
       console := console w ++
         [ConsoleLog "Connected to MongoDB";
          ConsoleLog ("Server running on http://localhost:" +:+ port_text (PORT pe))] |} in
  proc_run pe (ConnectResult (Ok tt) :: (Incoming <$> evs)) (proc_start w) =
    {| proc_phase := Listening;
       proc_world := (run evs started).2;
       answers := (run evs started).1 |}.
Proof.
  intros Hs. cbv zeta. rewrite <-on_connected_eq, proc_run_cons.
  unfold proc_step, MONGODB_URI. simpl. rewrite Hs. simpl.
  by rewrite proc_run_listening.
Qed.

(** What holds of the process after the inputs [inputs]: it has answered
    nothing unless it listens, and it listens only after a connection
    attempt that succeeded. *)
Definition proc_inv (pe : process_env) (inputs : list input) (p : process C) : Prop :=
  match proc_phase p with
  | Listening =>
      exists r, ConnectResult r ∈ inputs /\ connect (MONGODB_URI pe) r = Ok tt
  | _ => answers p = []
  end.

Lemma proc_run_inv pe inputs w :
  proc_inv pe inputs (proc_run pe inputs (proc_start w)).
Proof.
  induction inputs as [|i inputs IH] using rev_ind; [done|].
  unfold proc_run in *. rewrite foldl_app. simpl.
  set (p := foldl _ _ inputs) in *. unfold proc_inv, proc_step in *.
  destruct (proc_phase p) eqn:Hp, i as [r|ev]; simpl; rewrite ?Hp; try done.
  - destruct (connect _ r) as [[]|err] eqn:Hc; simpl; [|done]. exists r. set_solver.
  - destruct IH as (r0 & ? & ?). exists r0. set_solver.
  - destruct (serve ev _). simpl. destruct IH as (r0 & ? & ?). exists r0. set_solver.
Qed.

(** C37: no request is answered before the connection to the database is
    made: a process that has answered a request is listening, and among its
    inputs is a connection attempt that succeeded. *)
Theorem served_only_connected pe inputs w :
  answers (proc_run pe inputs (proc_start w)) <> [] ->
  proc_phase (proc_run pe inputs (proc_start w)) = Listening /\
  exists r, ConnectResult r ∈ inputs /\ connect (MONGODB_URI pe) r = Ok tt.
Proof.
  pose proof (proc_run_inv pe inputs w) as Hinv. unfold proc_inv in Hinv.
  by destruct (proc_phase _).
Qed.

End ServerProps.

(** ** Instances of the theorems with hypotheses *)

(** A configuration with a connection string and no port, and one with
    nothing set. *)
Definition env_configured : process_env :=
  {| env_PORT := None; env_MONGODB_URI := Some "mongodb://localhost/weather" |}.
Definition env_unset : process_env :=
  {| env_PORT := None; env_MONGODB_URI := None |}.

Lemma no_connection_no_service_witness :
  proc_run env_unset [ConnectResult (Ok tt); Incoming paris_event]
    (proc_start world_empty) =
    {| proc_phase := Idle;
       proc_world :=
         {| db := db world_empty; next_oid := next_oid world_empty;
            console := console world_empty ++
              [ConsoleError "MongoDB connection error:" StoreError] |};
       answers := [] |}.
Proof.
  exact (no_connection_no_service env_unset (Ok tt) StoreError
           [Incoming paris_event] world_empty eq_refl).
Defined.

(** The empty world after a start-up on the default port. *)
Definition world_started : world (list document) :=
  {| db := db world_empty; next_oid := next_oid world_empty;
     console := console world_empty ++
       [ConsoleLog "Connected to MongoDB";
        ConsoleLog ("Server running on http://localhost:" +:+
                    port_text (PORT env_configured))] |}.

Lemma connected_serves_witness :
  proc_run env_configured (ConnectResult (Ok tt) :: (Incoming <$> [paris_event]))
    (proc_start world_empty) =
    {| proc_phase := Listening;
       proc_world := (run [paris_event] world_started).2;
       answers := (run [paris_event] world_started).1 |}.
Proof.
  exact (connected_serves env_configured _ [paris_event] world_empty eq_refl).
Defined.

Lemma served_only_connected_witness :
  proc_phase (proc_run env_configured
                [ConnectResult (Ok tt); Incoming paris_event]
                (proc_start world_empty)) = Listening /\
  exists r, ConnectResult r ∈ [ConnectResult (Ok tt); Incoming paris_event] /\
            connect (MONGODB_URI env_configured) r = Ok tt.
Proof.
  refine (served_only_connected env_configured
            [ConnectResult (Ok tt); Incoming paris_event] world_empty _).
  vm_compute. discriminate.
Defined.
